(** * kirill-scherba/log: the delivery engine, embedded and verified

    Shallow embedding of the Go package [log]:
    - [entry.go]   : [LogEntry], its [String] and [Json] methods, [entry],
      [entryf] and [getFields];
    - the Elasticsearch sink (type [es]): [entryHandler], [sendOrSave],
      [saveBatchToDisk], [processFailoverFiles], [sendToElasticsearch];
    - [file.go]    : the file sink, [newLogfile] and [compressFile];
    - [loggers.go] : [loggersType], [newLoggers] and [send];
    - [log.go]     : [customWriter.Write], [Init], [CLose],
      [SetDefaultLevel] and the printing functions; with them the [init]
      and [close] methods of the two sinks.

    Go strings are byte strings: they are modelled by [string], whose
    characters are 8-bit [ascii].  Methods with a pointer receiver return
    the receiver's new value next to their result.  The file system, the
    HTTP transport and the wall clock are explicit parts of the state.

    Scope of the model.
    - A [[]*LogEntry] is a list of entries: no element is a nil pointer.
    - The worker only runs with a configuration ([init] returns before
      starting it when [esConfig] is nil), so the methods other than
      [sendToElasticsearch], which checks it, take the [EsConfig] itself.
    - [FailoverDir] holds no pattern character, so that the pattern given
      to [filepath.Glob] is well formed and matches inside that directory.
    - The failures of the file system are the ones listed with each
      operation: a directory that cannot be listed, a name taken by a
      directory, a missing path, a failing [MkdirAll], a failing copy.
    - The worker of each sink is sequential; what it receives (entries,
      ticks, the closing of its channel, a timer firing) is a list of
      events, in the order the scheduler delivers them.
    - The front end and the workers meet in the channels, and once more
      where [newLogfile] hands its message to [log.Println].
      [newLogfile] and [file_entry] are the file system's side of the
      file sink, that message recorded as a notice; [Wired.newLogfile]
      and [Wired.file_entry] run the call on the front end as well,
      where it returns, parks the worker on a channel, its own
      included, or panics.  A call of the front end is followed up to
      the point where it returns, panics, or is parked on a send
      statement; the worker that would wake it runs in its own model.
      The wait groups only order the start and the end of the
      goroutines and are left out.
    - [time.NewTicker] and [Ticker.Reset] panic on a period that is not
      positive.  [NewTicker] and [Ticker_Reset] are the tickers of a
      positive period; [entryHandler] is the worker once its ticker is
      made, [entryHandler_started] the worker from its first statement.
    - [fmt.Sprint], [fmt.Sprintf] and [strings.TrimSpace] are parameters,
      as the JSON encoder is; the standard logger is known by the prefix
      it writes and by where its output goes. *)

From Stdlib Require Import ZArith Lia List Ascii String.
From Stdlib Require Import DecimalString DecimalZ DecimalPos.
From Stdlib Require DecimalFacts.
From stdpp Require Import base option list gmap strings sorting.

Local Open Scope string_scope.

(** * Part I: the embedding *)

(** ** Go's [strings] and [fmt] helpers used by the package *)

Module GoStrings.

Definition nl : ascii := ascii_of_nat 10.
Definition dquote : ascii := ascii_of_nat 34.
Definition NL : string := String nl EmptyString.
Definition DQ : string := String dquote EmptyString.

Definition is_nl (c : ascii) : bool := Ascii.eqb c nl.

(** [strings.TrimLeft(s, "\n")] *)
Fixpoint TrimLeft (s : string) : string :=
  match s with
  | EmptyString => EmptyString
  | String c r => if is_nl c then TrimLeft r else s
  end.

(** [strings.TrimRight(s, "\n")] *)
Fixpoint TrimRight (s : string) : string :=
  match s with
  | EmptyString => EmptyString
  | String c r =>
      match TrimRight r with
      | EmptyString => if is_nl c then EmptyString else String c EmptyString
      | r' => String c r'
      end
  end.

(** [strings.Trim(s, "\n")]: every leading and trailing newline goes. *)
Definition Trim (s : string) : string := TrimLeft (TrimRight s).

(** The string starts with a newline; it ends with one. *)
Definition starts_nl (s : string) : bool :=
  match s with
  | EmptyString => false
  | String c _ => is_nl c
  end.

Fixpoint ends_nl (s : string) : bool :=
  match s with
  | EmptyString => false
  | String c r =>
      match r with
      | EmptyString => is_nl c
      | _ => ends_nl r
      end
  end.

(** [strings.HasSuffix] *)
Definition HasSuffix (s suffix : string) : bool :=
  let n := String.length s in
  let k := String.length suffix in
  (k <=? n)%nat && String.eqb (substring (n - k) k s) suffix.

(** [%d] of an [int64] *)
Definition itoa (z : Z) : string := NilZero.string_of_int (Z.to_int z).

(** The number a decimal numeral writes, most significant digit first,
    on top of the digits [acc] already read. *)
Fixpoint decimal_value (acc : N) (d : Decimal.uint) : N :=
  match d with
  | Decimal.Nil => acc
  | Decimal.D0 l => decimal_value (10 * acc) l
  | Decimal.D1 l => decimal_value (10 * acc + 1) l
  | Decimal.D2 l => decimal_value (10 * acc + 2) l
  | Decimal.D3 l => decimal_value (10 * acc + 3) l
  | Decimal.D4 l => decimal_value (10 * acc + 4) l
  | Decimal.D5 l => decimal_value (10 * acc + 5) l
  | Decimal.D6 l => decimal_value (10 * acc + 6) l
  | Decimal.D7 l => decimal_value (10 * acc + 7) l
  | Decimal.D8 l => decimal_value (10 * acc + 8) l
  | Decimal.D9 l => decimal_value (10 * acc + 9) l
  end.

(** How many digits a numeral has. *)
Definition width (d : Decimal.uint) : N := N.of_nat (Decimal.nb_digits d).


(** [strings.Repeat(" ", n)] *)
Fixpoint spaces (n : nat) : string :=
  match n with
  | O => EmptyString
  | S k => String (ascii_of_nat 32) (spaces k)
  end.

End GoStrings.

Import GoStrings.

(** ** Data model ([entry.go], the [EsConfig] struct) *)

(** Go's [error] values are modelled by their message; a call that returns
    [(value, error)] returns a [result]. *)
Inductive result (A : Type) : Type :=
| Ok (a : A)
| Err (msg : string).
Arguments Ok {A} a.
Arguments Err {A} msg.

(** The dynamic values a [Fields] map holds ([map[string]any]).  [AnyFunc]
    stands for the values [encoding/json] refuses (functions, channels). *)
Inductive any : Type :=
| AnyNil
| AnyBool (b : bool)
| AnyInt (z : Z)
| AnyString (s : string)
| AnyFunc (id : nat).

(** [type LogLevel string] *)
Definition LogLevel : Type := string.
Definition LevelDebug : LogLevel := "DEBUG".
Definition LevelInfo : LogLevel := "INFO".
Definition LevelWarn : LogLevel := "WARN".
Definition LevelError : LogLevel := "ERROR".
Definition LevelNone : LogLevel := EmptyString.

(** [type LogEntry struct].  A nil [Fields] map is [None]. *)
Record LogEntry : Type := mkLogEntry {
  AppType : string;
  Timestamp : string;
  Level : LogLevel;
  Message : string;
  Fields : option (gmap string any)
}.

(** The assignment [entry.Message = m] through the pointer receiver. *)
Definition set_Message (m : string) (entry : LogEntry) : LogEntry :=
  {| AppType := AppType entry; Timestamp := Timestamp entry;
     Level := Level entry; Message := m; Fields := Fields entry |}.

(** [type EsConfig struct]; durations are nanosecond counts. *)
Record EsConfig : Type := mkEsConfig {
  ES_URL : string;
  ES_API_KEY : string;
  ES_INDEX_NAME : string;
  TimeToHold : Z;
  EntriesToHold : Z;
  FailoverDir : string;
  MaxFailoverFiles : Z
}.

(** [len] of a slice, as Go's [int]. *)
Definition len {A : Type} (l : list A) : Z := Z.of_nat (List.length l).

(** ** The environment of the Elasticsearch sink *)

(** An entry of the failover directory: a regular file with its bytes, or
    a subdirectory. *)
Inductive node : Type :=
| File (data : string)
| Dir.

(** What [http.NewRequest] builds and [client.Do] sends. *)
Record Request : Type := mkRequest {
  Method : string;
  URL : string;
  Header : list (string * string);
  ReqBody : string
}.

(** [*http.Response]: [Body] is what [io.ReadAll(resp.Body)] returns. *)
Record Response : Type := mkResponse {
  StatusCode : Z;
  Status : string;
  Body : result string
}.

(** What one [client.Do] call comes back with: a response, or a transport
    error (connection refused, the 10 second timeout, ...). *)
Definition outcome : Type := result Response.

(** Everything outside the worker's own variables.
    - [dir_fault]: [Some msg] when the failover directory cannot be listed;
    - [disk]: the entries of [FailoverDir], by base name;
    - [net k]: the fate of the [k]-th request handed to [client.Do];
    - [wire]: the requests handed to [client.Do] so far, oldest first;
    - [clock k]: the [k]-th reading of [time.Now().UnixNano()];
    - [console]: the lines printed through [stdoutLogger];
    - [flushes]: ghost state, the argument of every [sendOrSave] call. *)
Record World : Type := mkWorld {
  dir_fault : option string;
  disk : gmap string node;
  net : nat -> outcome;
  wire : list Request;
  clock : nat -> Z;
  clock_reads : nat;
  console : list string;
  flushes : list (list LogEntry)
}.

Definition set_disk (d : gmap string node) (w : World) : World :=
  {| dir_fault := dir_fault w; disk := d; net := net w; wire := wire w;
     clock := clock w; clock_reads := clock_reads w; console := console w;
     flushes := flushes w |}.

(** [stdoutLogger.Println] / [Printf]: one more line on the console. *)
Definition Println (line : string) (w : World) : World :=
  {| dir_fault := dir_fault w; disk := disk w; net := net w; wire := wire w;
     clock := clock w; clock_reads := clock_reads w;
     console := console w ++ [line]; flushes := flushes w |}.

(** [client.Do(req)]: the request goes on the wire, the environment
    answers. *)
Definition client_Do (req : Request) (w : World) : outcome * World :=
  (net w (List.length (wire w)),
   {| dir_fault := dir_fault w; disk := disk w; net := net w;
      wire := wire w ++ [req];
      clock := clock w; clock_reads := clock_reads w; console := console w;
      flushes := flushes w |}).

(** [time.Now().UnixNano()] *)
Definition UnixNano (w : World) : Z * World :=
  (clock w (clock_reads w),
   {| dir_fault := dir_fault w; disk := disk w; net := net w; wire := wire w;
      clock := clock w; clock_reads := S (clock_reads w);
      console := console w; flushes := flushes w |}).

(** Ghost: a [sendOrSave] call is recorded with its argument. *)
Definition record_flush (entries : list LogEntry) (w : World) : World :=
  {| dir_fault := dir_fault w; disk := disk w; net := net w; wire := wire w;
     clock := clock w; clock_reads := clock_reads w; console := console w;
     flushes := flushes w ++ [entries] |}.

(** Byte-wise order of Go's [<] on strings, the order of [sort.Strings]. *)
Definition str_le (a b : string) : Prop := String.leb a b = true.

#[global] Instance str_le_dec (a b : string) : Decision (str_le a b).
Proof. unfold str_le. apply _. Defined.

(** [sort.Strings] *)
Definition sort_Strings (l : list string) : list string := merge_sort str_le l.

(** [filepath.Join(dir, name)] for a clean [dir] and a base name. *)
Definition Join (dir name : string) : string := dir +:+ "/" +:+ name.

(** [os.ReadDir(FailoverDir)]: every entry of the directory, whatever its
    kind, sorted by name. *)
Definition ReadDir (w : World) : result (list string) :=
  match dir_fault w with
  | Some msg => Err msg
  | None => Ok (sort_Strings (map_to_list (disk w)).*1)
  end.

(** [filepath.Glob(filepath.Join(FailoverDir, "*.json"))]: the entries whose
    name ends in [.json], regular files and subdirectories alike.  Glob
    ignores I/O errors: an unreadable directory has no match.  The paths
    it returns share the prefix [FailoverDir/], which does not change
    their order; they are kept here by base name. *)
Definition Glob (w : World) : list string :=
  match dir_fault w with
  | Some _ => []
  | None =>
      filter (fun n => HasSuffix n ".json" = true) (map_to_list (disk w)).*1
  end.

(** [os.ReadFile]: the bytes of a regular file. *)
Definition ReadFile (name : string) (w : World) : result string :=
  match disk w !! name with
  | Some (File data) => Ok data
  | Some Dir => Err ("read " +:+ name +:+ ": is a directory")
  | None => Err ("open " +:+ name +:+ ": no such file or directory")
  end.

(** [os.WriteFile(path, data, 0644)]: creates the file or replaces its
    bytes. *)
Definition WriteFile (name data : string) (w : World) : option string * World :=
  match disk w !! name with
  | Some Dir => (Some ("open " +:+ name +:+ ": is a directory"), w)
  | _ => (None, set_disk (<[name := File data]> (disk w)) w)
  end.

(** [os.Remove(path)] on a directory listing, its error dropped as every
    caller does: a regular file goes, anything else stays. *)
Definition fs_Remove (name : string) (d : gmap string node) : gmap string node :=
  match d !! name with
  | Some (File _) => delete name d
  | _ => d
  end.

Definition Remove (name : string) (w : World) : World :=
  set_disk (fs_Remove name (disk w)) w.

(** ** The library calls whose results the package only passes on

    - [json_Marshal]: [json.Marshal] of one [*LogEntry];
    - [json_Unmarshal]: [json.Unmarshal] into a [[]*LogEntry];
    - [gzip]: the bytes a [gzip.Writer] holds after [Write] and [Close]
      (neither can fail on the [bytes.Buffer] of [sendToElasticsearch], so
      the two error returns around them there are dead);
    - [gunzip]: [gzip.NewReader] and [io.ReadAll] over a payload;
    - [NewRequest_error]: the error of [http.NewRequest] for a URL it
      cannot parse;
    - [fmt_map]: the [%v] rendering of a [Fields] map;
    - [RuneCount]: [utf8.RuneCountInString], the width [%-36s] pads to;
    - [Format]: the layout [2006.01.02-15.04.05] of a time;
    - [TempDir]: [os.TempDir()]. *)
Class Lib : Type := mkLib {
  json_Marshal : LogEntry -> result string;
  json_Unmarshal : string -> result (list LogEntry);
  gzip : string -> string;
  gunzip : string -> option string;
  NewRequest_error : string -> option string;
  fmt_map : gmap string any -> string;
  RuneCount : string -> nat;
  Format : Z -> string;
  TempDir : string
}.

(** ** The sink's code *)

Section Code.

Context `{L : Lib}.

(** [func (entry *LogEntry) String() string] *)
Definition String_ (entry : LogEntry) : string * LogEntry :=
  let fields :=
    match Fields entry with
    | Some m => ", fields: " +:+ fmt_map m
    | None => EmptyString
    end in
  let level :=
    if String.eqb (Level entry) LevelNone then EmptyString
    else "[" +:+ Level entry +:+ "] " in
  (Timestamp entry +:+ spaces (36 - RuneCount (Timestamp entry)) +:+ " "
     +:+ level +:+ Trim (Message entry) +:+ fields,
   entry).

(** [func (entry *LogEntry) Json() string]: the message is trimmed in
    place, through the pointer, before the entry is marshalled. *)
Definition Json (entry : LogEntry) : string * LogEntry :=
  let entry := set_Message (Trim (Message entry)) entry in
  match json_Marshal entry with
  | Err err =>
      ("{" +:+ DQ +:+ "error" +:+ DQ +:+ ": " +:+ DQ
         +:+ "Failed to marshal log entry: " +:+ err +:+ DQ +:+ "}",
       entry)
  | Ok logJSON => (logJSON, entry)
  end.

(** [json.Marshal(entries)] of a [[]*LogEntry]: [null] for the nil slice,
    else the array of the entries' documents; the first entry that cannot
    be marshalled fails the whole call. *)
Fixpoint marshal_all (entries : list LogEntry) : result (list string) :=
  match entries with
  | [] => Ok []
  | e :: rest =>
      match json_Marshal e with
      | Err err => Err err
      | Ok doc =>
          match marshal_all rest with
          | Err err => Err err
          | Ok docs => Ok (doc :: docs)
          end
      end
  end.

Definition json_Marshal_batch (entries : list LogEntry) : result string :=
  match entries with
  | [] => Ok "null"
  | _ =>
      match marshal_all entries with
      | Err err => Err err
      | Ok docs => Ok ("[" +:+ String.concat "," docs +:+ "]")
      end
  end.

(** The action line [{ "index": { "_index": "<name>" } }]. *)
Definition action_line (index : string) : string :=
  "{ " +:+ DQ +:+ "index" +:+ DQ +:+ ": { " +:+ DQ +:+ "_index" +:+ DQ
    +:+ ": " +:+ DQ +:+ index +:+ DQ +:+ " } }".

(** The loop of [sendToElasticsearch] over [entrys]: the buffer grows by
    two lines per entry, and each entry is left as [Json] left it. *)
Fixpoint bulk_body (index : string) (entrys : list LogEntry)
  : string * list LogEntry :=
  match entrys with
  | [] => (EmptyString, [])
  | entry :: rest =>
      let '(json, entry') := Json entry in
      let '(buf, rest') := bulk_body index rest in
      (action_line index +:+ NL +:+ json +:+ NL +:+ buf, entry' :: rest')
  end.

(** The request [sendToElasticsearch] builds. *)
Definition bulk_request (cfg : EsConfig) (payload : string) : Request :=
  {| Method := "POST";
     URL := ES_URL cfg +:+ "/_bulk?pretty&pipeline=ent-search-generic-ingestion";
     Header := [("Authorization", "ApiKey " +:+ ES_API_KEY cfg);
                ("Content-Type", "application/json");
                ("Content-Encoding", "gzip")];
     ReqBody := payload |}.

(** [func (e *es) sendToElasticsearch(entrys ...*LogEntry) (err error)].
    [e] is the embedded [*EsConfig], [None] when nil.  Returns the error
    ([None] for nil), the entries as the call leaves them, and the
    world. *)
Definition sendToElasticsearch (e : option EsConfig) (entrys : list LogEntry)
  (w : World) : option string * list LogEntry * World :=
  match e with
  | None => (Some "elasticsearch config is not set", entrys, w)
  | Some cfg =>
      let '(buf, entrys') := bulk_body (ES_INDEX_NAME cfg) entrys in
      let gzipBuf := gzip buf in
      match NewRequest_error
              (ES_URL cfg +:+ "/_bulk?pretty&pipeline=ent-search-generic-ingestion") with
      | Some err => (Some ("Error creating HTTP request: " +:+ err), entrys', w)
      | None =>
          let '(resp, w1) := client_Do (bulk_request cfg gzipBuf) w in
          match resp with
          | Err err => (Some ("Error sending HTTP request: " +:+ err), entrys', w1)
          | Ok resp =>
              if negb (StatusCode resp =? 200)%Z then
                let responseStatus := "Error Response Status: " +:+ Status resp in
                match Body resp with
                | Err err =>
                    (Some (responseStatus +:+ NL +:+ "Error reading response body: "
                             +:+ err), entrys', w1)
                | Ok body =>
                    let responseBody := "Response Body: " +:+ body in
                    (Some (responseStatus +:+ NL +:+ responseBody), entrys', w1)
                end
              else (None, entrys', w1)
          end
      end
  end.

(** [func (e *es) saveBatchToDisk(entries []*LogEntry) error] *)
Definition saveBatchToDisk (cfg : EsConfig) (entries : list LogEntry)
  (w : World) : option string * World :=
  if String.eqb (FailoverDir cfg) EmptyString then
    (Some "FailoverDir is not configured", w)
  else
    match ReadDir w with
    | Err err => (Some ("could not read failover directory: " +:+ err), w)
    | Ok files =>
        if (MaxFailoverFiles cfg <=? len files)%Z then
          (Some ("max failover files limit (" +:+ itoa (MaxFailoverFiles cfg)
                   +:+ ") reached, discarding batch"), w)
        else
          match json_Marshal_batch entries with
          | Err err =>
              (Some ("failed to marshal batch for disk save: " +:+ err), w)
          | Ok data =>
              let '(now, w1) := UnixNano w in
              let fileName := "batch-" +:+ itoa now +:+ ".json" in
              WriteFile fileName data w1
          end
    end.

(** [func (e *es) processFailoverFiles() bool] *)
Definition processFailoverFiles (cfg : EsConfig) (w : World) : bool * World :=
  if String.eqb (FailoverDir cfg) EmptyString then (false, w)
  else
    match sort_Strings (Glob w) with
    | [] => (false, w)
    | file :: _ =>
        let filePath := Join (FailoverDir cfg) file in
        match ReadFile file w with
        | Err err =>
            (false,
             Println ("error reading failover file " +:+ filePath +:+ ": " +:+ err) w)
        | Ok data =>
            match json_Unmarshal data with
            | Err err =>
                (false,
                 Remove file
                   (Println ("error unmarshalling failover file " +:+ filePath
                               +:+ ": " +:+ err +:+ ", deleting corrupt file.") w))
            | Ok entries =>
                let w1 :=
                  Println ("attempting to send batch from failover file: "
                             +:+ filePath) w in
                let '(err, _, w2) := sendToElasticsearch (Some cfg) entries w1 in
                match err with
                | None =>
                    (true,
                     Remove file
                       (Println ("successfully sent batch from " +:+ filePath
                                   +:+ ", deleting file.") w2))
                | Some err =>
                    (false,
                     Println ("failed to send batch from " +:+ filePath
                                +:+ ", will retry later: " +:+ err) w2)
                end
            end
        end
    end.

(** [func (e *es) sendOrSave(entries []*LogEntry)] *)
Definition sendOrSave (cfg : EsConfig) (entries : list LogEntry) (w : World)
  : World :=
  let w := record_flush entries w in
  let '(err, entries, w1) := sendToElasticsearch (Some cfg) entries w in
  match err with
  | None => w1
  | Some err =>
      let w2 :=
        Println ("error sending log entries to Elasticsearch, saving to disk for retry: "
                   +:+ err) w1 in
      let '(err, w3) := saveBatchToDisk cfg entries w2 in
      match err with
      | None => Println "successfully saved failed batch to disk" w3
      | Some err =>
          Println ("CRITICAL: Failed to save batch to disk: " +:+ err) w3
      end
  end.

(** *** The worker: [func (e *es) entryHandler()] *)

(** What one [select] of the worker receives: an entry from
    [esEntryChannel], the closing of that channel, or a tick of the
    ticker. *)
Inductive event : Type :=
| Recv (entry : LogEntry)
| Closed
| Tick.

(** [*time.Ticker]: its period and, as ghost state, how often [Reset] was
    called on it. *)
Record Ticker : Type := mkTicker {
  period : Z;
  resets : nat
}.

(** [time.NewTicker(d)] for a positive [d], the ticker it returns; on
    any other [d] the call panics, see [time_NewTicker]. *)
Definition NewTicker (d : Z) : Ticker := {| period := d; resets := 0 |}.

(** [ticker.Reset(d)] for a positive [d]; the worker calls it with the
    period its [time.NewTicker] accepted. *)
Definition Ticker_Reset (d : Z) (t : Ticker) : Ticker :=
  {| period := d; resets := S (resets t) |}.

(** [time.NewTicker(d)] with its precondition: on a period that is not
    positive it panics ([None]). *)
Definition time_NewTicker (d : Z) : option Ticker :=
  if (0 <? d)%Z then Some (NewTicker d) else None.

Inductive status : Type :=
| Running
| Returned.

(** The worker's local variables, and the world it acts on. *)
Record Handler : Type := mkHandler {
  entries : list LogEntry;
  ticker : Ticker;
  state : status;
  world : World
}.

(** The [select] statement, for the event it receives. *)
Definition select_case (cfg : EsConfig) (ev : event) (h : Handler) : Handler :=
  match ev with
  | Closed =>
      {| entries := entries h; ticker := ticker h; state := Returned;
         world := if (0 <? len (entries h))%Z
                  then sendOrSave cfg (entries h) (world h)
                  else world h |}
  | Recv entry =>
      let entries' := (entries h ++ [entry])%list in
      if (EntriesToHold cfg <=? len entries')%Z then
        {| entries := [];
           ticker := Ticker_Reset (TimeToHold cfg) (ticker h);
           state := state h;
           world := sendOrSave cfg entries' (world h) |}
      else
        {| entries := entries'; ticker := ticker h; state := state h;
           world := world h |}
  | Tick =>
      if (0 <? len (entries h))%Z then
        {| entries := []; ticker := ticker h; state := state h;
           world := sendOrSave cfg (entries h) (world h) |}
      else h
  end.

Definition set_world (w : World) (h : Handler) : Handler :=
  {| entries := entries h; ticker := ticker h; state := state h; world := w |}.

(** The [for] loop.  One unit of [fuel] pays for one iteration; [evs] is
    what the successive [select]s receive.  The loop stops when the
    worker returns, when [select] has nothing to receive, or when the
    fuel is spent; what is left of [evs] is returned with the worker. *)
Fixpoint loop (cfg : EsConfig) (fuel : nat) (evs : list event) (h : Handler)
  : Handler * list event :=
  match fuel with
  | O => (h, evs)
  | S fuel' =>
      let '(sent, w1) := processFailoverFiles cfg (world h) in
      if sent then loop cfg fuel' evs (set_world w1 h)
      else
        match evs with
        | [] => (set_world w1 h, [])
        | ev :: evs' =>
            let h' := select_case cfg ev (set_world w1 h) in
            match state h' with
            | Returned => (h', evs')
            | Running => loop cfg fuel' evs' h'
            end
        end
  end.

(** [func (e *es) entryHandler()], once its ticker is made: the loop
    from the worker's initial state. *)
Definition entryHandler (cfg : EsConfig) (fuel : nat) (evs : list event)
  (w : World) : Handler * list event :=
  loop cfg fuel evs
    {| entries := []; ticker := NewTicker (TimeToHold cfg); state := Running;
       world := w |}.

(** [func (e *es) entryHandler()] from its first statement: the worker
    panics in [time.NewTicker] ([None], line 151) before it reads its
    channel, or enters the loop with the ticker it got. *)
Definition entryHandler_started (cfg : EsConfig) (fuel : nat)
  (evs : list event) (w : World) : option (Handler * list event) :=
  match time_NewTicker (TimeToHold cfg) with
  | None => None
  | Some t =>
      Some (loop cfg fuel evs
              {| entries := []; ticker := t; state := Running; world := w |})
  end.

(** ** The file sink ([file.go]) *)

(** [type FileConfig struct]; the duration is a nanosecond count. *)
Record FileConfig : Type := mkFileConfig {
  Folder : string;
  CreateNewAfter : Z
}.

(** [*os.File]: the name it was opened with, and whether [Close] was
    called on it. *)
Record osFile : Type := mkOsFile {
  Name : string;
  closed : bool
}.

(** [type file struct], without its channel. *)
Record file : Type := mkFile {
  Config : FileConfig;
  AppShort : string;
  f : option osFile;
  fCreatedAt : Z
}.

(** The world of the file sink.
    - [fs]: the file system, by full path;
    - [mkdir_fault]: [Some msg] when [os.MkdirAll] fails;
    - [copy_fault]: [Some (msg, bytes)] when [io.Copy] into the gzip
      writer fails, [bytes] being what the [.gz] file is left with;
    - [now k]: the [k]-th reading of [time.Now()], in nanoseconds;
    - [timers]: the names [time.AfterFunc] scheduled a compression for, not
      yet run, oldest first;
    - [closes]: ghost state, the names of the files [Close] was called on;
    - [notices]: the lines handed to [fmt.Println] and [log.Println]. *)
Record FWorld : Type := mkFWorld {
  fs : gmap string node;
  mkdir_fault : option string;
  copy_fault : option (string * string);
  now : nat -> Z;
  now_reads : nat;
  timers : list string;
  closes : list string;
  notices : list string
}.

Definition set_fs (d : gmap string node) (w : FWorld) : FWorld :=
  {| fs := d; mkdir_fault := mkdir_fault w; copy_fault := copy_fault w;
     now := now w; now_reads := now_reads w; timers := timers w;
     closes := closes w; notices := notices w |}.

Definition set_timers (t : list string) (w : FWorld) : FWorld :=
  {| fs := fs w; mkdir_fault := mkdir_fault w; copy_fault := copy_fault w;
     now := now w; now_reads := now_reads w; timers := t;
     closes := closes w; notices := notices w |}.

Definition notice (line : string) (w : FWorld) : FWorld :=
  {| fs := fs w; mkdir_fault := mkdir_fault w; copy_fault := copy_fault w;
     now := now w; now_reads := now_reads w; timers := timers w;
     closes := closes w; notices := notices w ++ [line] |}.

(** [time.Now()] *)
Definition time_Now (w : FWorld) : Z * FWorld :=
  (now w (now_reads w),
   {| fs := fs w; mkdir_fault := mkdir_fault w; copy_fault := copy_fault w;
      now := now w; now_reads := S (now_reads w); timers := timers w;
      closes := closes w; notices := notices w |}).

(** [f.f.Close()]: the handle is closed for good. *)
Definition Close (h : osFile) (w : FWorld) : osFile * FWorld :=
  ({| Name := Name h; closed := true |},
   {| fs := fs w; mkdir_fault := mkdir_fault w; copy_fault := copy_fault w;
      now := now w; now_reads := now_reads w; timers := timers w;
      closes := closes w ++ [Name h]; notices := notices w |}).

(** [time.AfterFunc(1*time.Second, func() {...})] for the file [name]. *)
Definition AfterFunc (name : string) (w : FWorld) : FWorld :=
  set_timers (timers w ++ [name]) w.

(** [os.MkdirAll(folder, 0755)] *)
Definition MkdirAll (folder : string) (w : FWorld) : option string * FWorld :=
  match mkdir_fault w with
  | Some msg => (Some msg, w)
  | None =>
      match fs w !! folder with
      | Some (File _) => (Some ("mkdir " +:+ folder +:+ ": not a directory"), w)
      | _ => (None, set_fs (<[folder := Dir]> (fs w)) w)
      end
  end.

(** [os.OpenFile(fileName, os.O_CREATE|os.O_WRONLY|os.O_APPEND, 0644)] for a
    file of [folder]. *)
Definition OpenFile (folder fileName : string) (w : FWorld)
  : result osFile * FWorld :=
  match fs w !! folder with
  | Some Dir =>
      match fs w !! fileName with
      | Some Dir => (Err ("open " +:+ fileName +:+ ": is a directory"), w)
      | Some (File _) => (Ok {| Name := fileName; closed := false |}, w)
      | None =>
          (Ok {| Name := fileName; closed := false |},
           set_fs (<[fileName := File EmptyString]> (fs w)) w)
      end
  | Some (File _) => (Err ("open " +:+ fileName +:+ ": not a directory"), w)
  | None => (Err ("open " +:+ fileName +:+ ": no such file or directory"), w)
  end.

(** [f.f.Write(data)], its error dropped as the worker does: the bytes are
    appended to the file the handle names; a closed handle, or one whose
    path no longer names a regular file, leaves the file system as it
    is. *)
Definition Write (h : osFile) (data : string) (w : FWorld) : FWorld :=
  if closed h then w
  else
    match fs w !! Name h with
    | Some (File old) => set_fs (<[Name h := File (old +:+ data)]> (fs w)) w
    | _ => w
    end.

(** [os.Create(path)]: the file is created, or truncated. *)
Definition Create (path : string) (w : FWorld) : option string * FWorld :=
  match fs w !! path with
  | Some Dir => (Some ("open " +:+ path +:+ ": is a directory"), w)
  | _ => (None, set_fs (<[path := File EmptyString]> (fs w)) w)
  end.

(** [func (f *file) newLogfile() (err error)], the file system's side:
    the message of line 156 is recorded as a notice.  Where the standard
    logger takes that message, and whether the call returns, is told by
    [Wired.newLogfile]. *)
Definition newLogfile (s : file) (w : FWorld) : option string * file * FWorld :=
  let '(now, w) := time_Now w in
  let timeStr := Format now in
  let folder :=
    if String.eqb (Folder (Config s)) EmptyString then TempDir
    else Folder (Config s) in
  let folder := folder +:+ "/" +:+ AppShort s in
  let '(err, w) :=
    match fs w !! folder with
    | None => MkdirAll folder w
    | Some _ => (None, w)
    end in
  match err with
  | Some err => (Some err, s, w)
  | None =>
      let fileName :=
        folder +:+ "/" +:+ AppShort s +:+ "_" +:+ timeStr +:+ ".log" in
      let '(file, w) := OpenFile folder fileName w in
      match file with
      | Err err => (Some err, s, notice ("error creating log file: " +:+ err) w)
      | Ok file =>
          let w :=
            match f s with
            | Some old => AfterFunc (Name old) w
            | None => w
            end in
          (None,
           {| Config := Config s; AppShort := AppShort s; f := Some file;
              fCreatedAt := now |},
           notice ("create new log file: " +:+ Name file) w)
      end
  end.

(** [func (f *file) compressFile(name string) (err error)], with its
    deferred [Close] calls. *)
Definition compressFile (name : string) (w : FWorld) : option string * FWorld :=
  match fs w !! name with
  | None => (Some ("open " +:+ name +:+ ": no such file or directory"), w)
  | Some src =>
      let '(err, w) := Create (name +:+ ".gz") w in
      match err with
      | Some err => (Some err, w)
      | None =>
          match src with
          | Dir =>
              (Some ("error compressing log file: read " +:+ name
                       +:+ ": is a directory"),
               set_fs (<[name +:+ ".gz" := File (gzip EmptyString)]> (fs w)) w)
          | File data =>
              match copy_fault w with
              | Some (msg, bytes) =>
                  (Some ("error compressing log file: " +:+ msg),
                   set_fs (<[name +:+ ".gz" := File bytes]> (fs w)) w)
              | None =>
                  (None,
                   set_fs (<[name +:+ ".gz" := File (gzip data)]> (fs w)) w)
              end
          end
      end
  end.

(** The function [newLogfile] hands to [time.AfterFunc]: compress, then
    remove, whatever the compression returned. *)
Definition compress_and_remove (fileName : string) (w : FWorld) : FWorld :=
  let '(_, w) := compressFile fileName w in
  set_fs (fs_Remove fileName (fs w)) w.

(** A timer fires: the oldest scheduled function runs. *)
Definition fire (w : FWorld) : FWorld :=
  match timers w with
  | [] => w
  | name :: rest => compress_and_remove name (set_timers rest w)
  end.

(** The body of the worker's loop for one received [entry]. *)
Definition file_entry (entry : LogEntry) (s : file) (w : FWorld)
  : file * FWorld :=
  let '(err, s, w) :=
    match f s with
    | None => newLogfile s w
    | Some h =>
        if (0 <? CreateNewAfter (Config s))%Z then
          let '(t, w) := time_Now w in
          if (CreateNewAfter (Config s) <? t - fCreatedAt s)%Z then
            let '(h, w) := Close h w in
            newLogfile
              {| Config := Config s; AppShort := AppShort s; f := Some h;
                 fCreatedAt := fCreatedAt s |} w
          else (None, s, w)
        else (None, s, w)
    end in
  match err with
  | Some _ => (s, w)
  | None =>
      match f s with
      | Some h => (s, Write h (fst (String_ entry) +:+ NL) w)
      | None => (s, w)
      end
  end.

(** What happens around the file sink: its worker receives an entry, or a
    timer fires. *)
Inductive fevent : Type :=
| FRecv (entry : LogEntry)
| FTimer.

Definition file_event (ev : fevent) (s : file) (w : FWorld) : file * FWorld :=
  match ev with
  | FRecv entry => file_entry entry s w
  | FTimer => (s, fire w)
  end.

(** [func (f *file) entryHandler()], run until the channel is closed, the
    timers firing in between as [evs] says. *)
Fixpoint file_entryHandler (evs : list fevent) (s : file) (w : FWorld)
  : file * FWorld :=
  match evs with
  | [] => (s, w)
  | ev :: evs' =>
      let '(s, w) := file_event ev s w in
      file_entryHandler evs' s w
  end.

(** ** Reading a bulk payload back *)






(** ** Notions the statements below use *)


(** The records at rest: the entries of the failover directory that the
    retry scan can see, those named [*.json]. *)
Definition is_record (name : string) : bool := HasSuffix name ".json".

Definition names (d : gmap string node) : list string := (map_to_list d).*1.

Definition n_records (d : gmap string node) : Z :=
  len (filter (fun n => is_record n = true) (names d)).

(** The entries of any kind, as [saveBatchToDisk] counts them. *)
Definition n_entries (d : gmap string node) : Z := Z.of_nat (size d).

(** The record one retry cycle works on: [files[0]] after [sort.Strings]. *)
Definition selected (w : World) : option string := head (sort_Strings (Glob w)).

(** [fmt.Sprintf("batch-%d.json", t)] *)
Definition batch_name (t : Z) : string := "batch-" +:+ itoa t +:+ ".json".

(** The name [saveBatchToDisk] gives the record it writes in [w]. *)
Definition next_name (w : World) : string :=
  "batch-" +:+ itoa (clock w (clock_reads w)) +:+ ".json".

(** The URL of the bulk endpoint. *)
Definition bulk_url (cfg : EsConfig) : string :=
  ES_URL cfg +:+ "/_bulk?pretty&pipeline=ent-search-generic-ingestion".

(** The next request gets through: it can be built, and the answer to it
    has status 200. *)
Definition delivers (cfg : EsConfig) (w : World) : Prop :=
  NewRequest_error (bulk_url cfg) = None /\
  exists resp, net w (List.length (wire w)) = Ok resp /\ StatusCode resp = 200%Z.

(** The conditions under which [saveBatchToDisk] can write [batch]. *)
Definition can_save (cfg : EsConfig) (batch : list LogEntry) (w : World)
  (data : string) : Prop :=
  FailoverDir cfg <> EmptyString /\ dir_fault w = None /\
  (n_entries (disk w) < MaxFailoverFiles cfg)%Z /\
  json_Marshal_batch batch = Ok data /\
  disk w !! next_name w <> Some Dir.

(** The conditions under which it cannot. *)
Definition cannot_save (cfg : EsConfig) (batch : list LogEntry) (w : World)
  : Prop :=
  FailoverDir cfg = EmptyString \/ dir_fault w <> None \/
  (MaxFailoverFiles cfg <= n_entries (disk w))%Z \/
  (exists msg, json_Marshal_batch batch = Err msg) \/
  disk w !! next_name w = Some Dir.

(** The three occasions on which the [select] statement flushes. *)
Definition size_trigger (cfg : EsConfig) (ev : event) (h : Handler) : Prop :=
  exists entry,
    ev = Recv entry /\
    (EntriesToHold cfg <= len (entries h ++ [entry]))%Z.

Definition time_trigger (ev : event) (h : Handler) : Prop :=
  ev = Tick /\ entries h <> [].

Definition close_trigger (ev : event) (h : Handler) : Prop :=
  ev = Closed /\ entries h <> [].

(** This [select] called [sendOrSave] with [batch]. *)
Definition flushed (cfg : EsConfig) (ev : event) (h : Handler)
  (batch : list LogEntry) : Prop :=
  flushes (world (select_case cfg ev h)) = (flushes (world h) ++ [batch])%list.

(** How many records the retry scan can see. *)
Definition glob_count (w : World) : nat := List.length (Glob w).

(** The entries of the directory that are no records. *)
Definition n_others (d : gmap string node) : Z :=
  len (filter (fun n => is_record n = false) (names d)).

End Code.

(** ** A concrete setting for the examples

    The theorems of Part II hold for every JSON encoder, decoder and
    gzip.  The closed examples run the code with small stand-ins for
    them. *)

Module Sample.

Definition is_func (v : any) : bool :=
  match v with
  | AnyFunc _ => true
  | _ => false
  end.

(** The document the stand-in encoder writes: the message only. *)
Definition doc (e : LogEntry) : string :=
  "{" +:+ DQ +:+ "message" +:+ DQ +:+ ":" +:+ DQ +:+ Message e +:+ DQ +:+ "}".

(** An encoder that refuses function values, as [encoding/json] does. *)
Definition marshal (e : LogEntry) : result string :=
  match Fields e with
  | Some m =>
      if existsb (fun kv => is_func (snd kv)) (map_to_list m)
      then Err "json: unsupported type: func()"
      else Ok (doc e)
  | None => Ok (doc e)
  end.

Definition e_old : LogEntry :=
  {| AppType := "DEV"; Timestamp := "2025-10-19T10:28:50.567024001Z";
     Level := LevelInfo; Message := "first"; Fields := None |}.

Definition e_new : LogEntry :=
  {| AppType := "DEV"; Timestamp := "2025-10-19T10:28:51.567024001Z";
     Level := LevelInfo; Message := "second"; Fields := None |}.

(** An entry as [log.Info("boot\n")] builds it. *)
Definition e_nl : LogEntry :=
  {| AppType := "DEV"; Timestamp := "2025-10-19T10:28:52.567024001Z";
     Level := LevelInfo; Message := "boot" +:+ NL; Fields := None |}.

(** An entry no encoder accepts. *)
Definition e_func : LogEntry :=
  {| AppType := "DEV"; Timestamp := "2025-10-19T10:28:53.567024001Z";
     Level := LevelInfo; Message := "callback";
     Fields := Some {[ "cb" := AnyFunc 0 ]} |}.

(** The bytes of the record that holds [batch]. *)
Definition data_of (batch : list LogEntry) : string :=
  "[" +:+ String.concat "," (map doc batch) +:+ "]".

(** A decoder that reads the two sample records back and takes anything
    else for corrupt. *)
Definition unmarshal (data : string) : result (list LogEntry) :=
  if String.eqb data (data_of [e_old]) then Ok [e_old]
  else if String.eqb data (data_of [e_new]) then Ok [e_new]
  else Err "invalid character".

Definition lib : Lib :=
  {| json_Marshal := marshal;
     json_Unmarshal := unmarshal;
     gzip := fun s => "GZ" +:+ s;
     gunzip := fun s =>
       match s with
       | String "G" (String "Z" r) => Some r
       | _ => None
       end;
     NewRequest_error := fun _ => None;
     fmt_map := fun _ => "map[]";
     RuneCount := String.length;
     Format := itoa;
     TempDir := "/tmp" |}.

Definition cfg : EsConfig :=
  {| ES_URL := "http://es:9200"; ES_API_KEY := "key"; ES_INDEX_NAME := "logs";
     TimeToHold := 10000000000; EntriesToHold := 2;
     FailoverDir := "/tmp/app/failover"; MaxFailoverFiles := 10 |}.

Definition refused : outcome := Err "connection refused".

Definition ok200 : outcome :=
  Ok {| StatusCode := 200; Status := "200 OK"; Body := Ok "{}" |}.

(** An empty, readable failover directory, a network that answers as
    [answer] says, and a clock that reads [t0], then [t1] for ever. *)
Definition world (t0 t1 : Z) (answer : nat -> outcome) : World :=
  {| dir_fault := None; disk := ∅; net := answer; wire := [];
     clock := fun k => match k with O => t0 | S _ => t1 end;
     clock_reads := 0; console := []; flushes := [] |}.

End Sample.

(** The sink's code in the sample setting. *)
Definition run_Json : LogEntry -> string * LogEntry := @Json Sample.lib.

Definition run_save : EsConfig -> list LogEntry -> World -> option string * World :=
  @saveBatchToDisk Sample.lib.

Definition run_sendOrSave : list LogEntry -> World -> World :=
  @sendOrSave Sample.lib Sample.cfg.

Definition run_cycle : World -> bool * World :=
  @processFailoverFiles Sample.lib Sample.cfg.

Definition run_select : event -> Handler -> Handler :=
  @select_case Sample.lib Sample.cfg.

Definition run_loop : nat -> list event -> Handler -> Handler * list event :=
  @loop Sample.lib Sample.cfg.

Definition run_entryHandler : nat -> list event -> World -> Handler * list event :=
  @entryHandler Sample.lib Sample.cfg.

Definition run_file_entry : LogEntry -> file -> FWorld -> file * FWorld :=
  @file_entry Sample.lib.

(** The request that carries [batch]. *)
Definition request_of (batch : list LogEntry) : Request :=
  bulk_request Sample.cfg
    (@gzip Sample.lib
       (fst (@bulk_body Sample.lib (ES_INDEX_NAME Sample.cfg) batch))).

(** Two batches fail delivery one after the other while the clock goes
    from 999999999 to 1000000000 nanoseconds: the world both records are
    at rest in, with a network that keeps refusing. *)
Definition two_records : World :=
  run_sendOrSave [Sample.e_new]
    (run_sendOrSave [Sample.e_old]
       (Sample.world 999999999 1000000000 (fun _ => Sample.refused))).

(** The cap of the sample configuration lowered to one record. *)
Definition cfg_cap1 : EsConfig :=
  {| ES_URL := ES_URL Sample.cfg; ES_API_KEY := ES_API_KEY Sample.cfg;
     ES_INDEX_NAME := ES_INDEX_NAME Sample.cfg;
     TimeToHold := TimeToHold Sample.cfg;
     EntriesToHold := EntriesToHold Sample.cfg;
     FailoverDir := FailoverDir Sample.cfg; MaxFailoverFiles := 1 |}.

(** A failover directory that holds one subdirectory and no record. *)
Definition stray_dir : World :=
  set_disk {[ "lost+found" := Dir ]}
    (Sample.world 1760869730567024001 1760869731567024001
       (fun _ => Sample.refused)).

(** The worker after it received one entry, the threshold being two. *)
Definition one_held : Handler :=
  run_select (Recv Sample.e_old)
    {| entries := []; ticker := NewTicker (TimeToHold Sample.cfg);
       state := Running;
       world := Sample.world 1760869730567024001 1760869731567024001
                  (fun _ => Sample.ok200) |}.

(** An unreadable failover directory and a network that refuses. *)
Definition unreadable : World :=
  {| dir_fault := Some "open /tmp/app/failover: permission denied";
     disk := ∅; net := fun _ => Sample.refused; wire := [];
     clock := fun _ => 1760869730567024001%Z; clock_reads := 0;
     console := []; flushes := [] |}.

(** The file sink in the sample setting: one file is active under
    [/var/log/app], a minute is the rotation period, the clock reads
    well past it, and the disk is full, so that copies fail. *)
Definition old_log : string := "/var/log/app/app_1000.log".

Definition sink0 : file :=
  {| Config := {| Folder := "/var/log"; CreateNewAfter := 60000000000 |};
     AppShort := "app";
     f := Some {| Name := old_log; closed := false |};
     fCreatedAt := 1000 |}.

Definition disk_full : FWorld :=
  {| fs := {[ "/var/log/app" := Dir; old_log := File "first line" ]};
     mkdir_fault := None;
     copy_fault := Some ("no space left on device", EmptyString);
     now := fun _ => 61000001000%Z; now_reads := 0;
     timers := []; closes := []; notices := [] |}.


(** A server that answers every request with status 503. *)
Definition busy : World :=
  Sample.world 1760869730567024001 1760869731567024001
    (fun _ => Ok {| StatusCode := 503; Status := "503 Service Unavailable";
                    Body := Ok "busy" |}).

(** ** The worker over a whole run: notions *)

(** The entries a run of events hands to the worker, in order. *)
Definition received (evs : list event) : list LogEntry :=
  omap (fun ev => match ev with Recv entry => Some entry | _ => None end) evs.

(** The entries the worker holds and has not flushed: none once it
    returned. *)
Definition pending (h : Handler) : list LogEntry :=
  match state h with
  | Running => entries h
  | Returned => []
  end.

(** The largest batch the worker lets build up. *)
Definition batch_cap (cfg : EsConfig) : Z := Z.max 1 (EntriesToHold cfg).

(** A batch the worker may hand to [sendOrSave]. *)
Definition batch_ok (cfg : EsConfig) (b : list LogEntry) : Prop :=
  b <> [] /\ (len b <= batch_cap cfg)%Z.

(** The numeral starts with the digit 0. *)
Definition leading_zero (d : Decimal.uint) : bool :=
  match d with
  | Decimal.D0 _ => true
  | _ => false
  end.

Section Backlog.

Context `{L : Lib}.

(** Every request is answered with status 200. *)
Definition always_ok (w : World) : Prop :=
  forall k, exists resp, net w k = Ok resp /\ StatusCode resp = 200%Z.

(** Every record at rest is a regular file that can be read back. *)
Definition all_valid (w : World) : Prop :=
  forall n, n ∈ Glob w ->
    exists data es, disk w !! n = Some (File data) /\ json_Unmarshal data = Ok es.

End Backlog.

(** ** The file sink over a run of entries: notions *)

Section Lines.

Context `{L : Lib}.

(** The lines the file sink writes for a run of entries. *)
Definition log_lines (es : list LogEntry) : string :=
  fold_right (fun e rest => fst (String_ e) +:+ NL +:+ rest) EmptyString es.

(** The folder and the name [newLogfile] gives a file created at [t]. *)
Definition log_folder (s : file) : string :=
  (if String.eqb (Folder (Config s)) EmptyString then TempDir
   else Folder (Config s)) +:+ "/" +:+ AppShort s.

Definition log_name (s : file) (t : Z) : string :=
  log_folder s +:+ "/" +:+ AppShort s +:+ "_" +:+ Format t +:+ ".log".

End Lines.

(** ** The package's front end ([log.go], [loggers.go], [entry.go]) *)

(** An operand of a variadic [v ...any]: a plain value, or a map typed
    [map[string]any] or [Fields]; a nil map of either type is [None]. *)
Inductive operand : Type :=
| Plain (a : any)
| MapArg (m : option (gmap string any))
| FieldsArg (m : option (gmap string any)).

(** [chan *LogEntry]: what it buffers, oldest first, its capacity, and
    whether [close] was called on it. *)
Record chan : Type := mkChan {
  buf : list LogEntry;
  cap : Z;
  chan_closed : bool
}.

(** [type loggersType struct], with the fields of the embedded [*es] and
    [*file] the front end touches.  A nil channel, configuration or
    slice is [None]. *)
Record loggersType : Type := mkLoggers {
  useStdoutLogger : bool;
  useEsLogger : bool;
  useFailLogger : bool;
  filterLevels : option (list LogLevel);
  esConfig : option EsConfig;
  esEntryChannel : option chan;
  fileConfig : option FileConfig;
  fileAppShort : string;
  fileEntryChannel : option chan
}.

(** The package's variables and what its front end acts on.
    - [appType], [LevelDefault], [loggers]: the package variables;
    - [std_custom]: the standard logger writes to a [customWriter];
    - [custom_set]: the caller's loggers that write to a [customWriter];
    - [std_prefix]: what the standard logger puts before a line, as its
      flags and the clock have it;
    - [stderr]: the lines the standard logger wrote while its output was
      still the default one;
    - [stdout]: the lines printed through [stdoutLogger];
    - [stamp k]: the [k]-th [time.Now().Format(time.RFC3339Nano)];
    - [mkdirs]: ghost, the paths handed to [os.MkdirAll];
    - [started]: ghost, the workers started with [go]. *)
Record Front : Type := mkFront {
  appType : string;
  LevelDefault : LogLevel;
  loggers : loggersType;
  std_custom : bool;
  custom_set : list nat;
  std_prefix : string;
  stderr : list string;
  stdout : list string;
  stamp : nat -> string;
  stamps_read : nat;
  mkdirs : list string;
  started : list string
}.

(** How a call of the front end ends: it returns; or it is parked on a
    send statement, in the state it had reached (for good on a nil
    channel, until the worker receives on a full one; what it does once
    woken is outside the model); or it panics. *)
Inductive flow (A : Type) : Type :=
| Done (a : A) (g : Front)
| Blocked (g : Front)
| Panicked (msg : string) (g : Front).
Arguments Done {A} a g.
Arguments Blocked {A} g.
Arguments Panicked {A} msg g.

Definition M (A : Type) : Type := Front -> flow A.

Definition ret {A : Type} (a : A) : M A := fun g => Done a g.

Definition bind {A B : Type} (m : M A) (k : A -> M B) : M B :=
  fun g =>
    match m g with
    | Done a g' => k a g'
    | Blocked g' => Blocked g'
    | Panicked msg g' => Panicked msg g'
    end.

Definition gets {A : Type} (proj : Front -> A) : M A := fun g => Done (proj g) g.

Definition modify (upd : Front -> Front) : M unit := fun g => Done tt (upd g).

Definition panic {A : Type} (msg : string) : M A := fun g => Panicked msg g.

Definition when (b : bool) (m : M unit) : M unit := if b then m else ret tt.

Declare Scope go_scope.
Delimit Scope go_scope with go.
Notation "'let*' x ':=' m 'in' k" := (bind m (fun x => k))
  (at level 10, x name, m at level 100, k at level 200, only parsing)
  : go_scope.

(** The state a call ends in. *)
Definition final {A : Type} (r : flow A) : Front :=
  match r with
  | Done _ g => g
  | Blocked g => g
  | Panicked _ g => g
  end.

Definition set_loggers (l : loggersType) (g : Front) : Front :=
  {| appType := appType g; LevelDefault := LevelDefault g; loggers := l;
     std_custom := std_custom g; custom_set := custom_set g;
     std_prefix := std_prefix g; stderr := stderr g; stdout := stdout g;
     stamp := stamp g; stamps_read := stamps_read g; mkdirs := mkdirs g;
     started := started g |}.

Definition set_esEntryChannel (c : option chan) (l : loggersType) : loggersType :=
  {| useStdoutLogger := useStdoutLogger l; useEsLogger := useEsLogger l;
     useFailLogger := useFailLogger l; filterLevels := filterLevels l;
     esConfig := esConfig l; esEntryChannel := c;
     fileConfig := fileConfig l; fileAppShort := fileAppShort l;
     fileEntryChannel := fileEntryChannel l |}.

Definition set_fileEntryChannel (c : option chan) (l : loggersType) : loggersType :=
  {| useStdoutLogger := useStdoutLogger l; useEsLogger := useEsLogger l;
     useFailLogger := useFailLogger l; filterLevels := filterLevels l;
     esConfig := esConfig l; esEntryChannel := esEntryChannel l;
     fileConfig := fileConfig l; fileAppShort := fileAppShort l;
     fileEntryChannel := c |}.

Definition set_appType (a : string) (g : Front) : Front :=
  {| appType := a; LevelDefault := LevelDefault g; loggers := loggers g;
     std_custom := std_custom g; custom_set := custom_set g;
     std_prefix := std_prefix g; stderr := stderr g; stdout := stdout g;
     stamp := stamp g; stamps_read := stamps_read g; mkdirs := mkdirs g;
     started := started g |}.

Definition set_LevelDefault (level : LogLevel) (g : Front) : Front :=
  {| appType := appType g; LevelDefault := level; loggers := loggers g;
     std_custom := std_custom g; custom_set := custom_set g;
     std_prefix := std_prefix g; stderr := stderr g; stdout := stdout g;
     stamp := stamp g; stamps_read := stamps_read g; mkdirs := mkdirs g;
     started := started g |}.

(** [log.SetOutput(w)] and [customLogger.SetOutput(w)] for a
    [customWriter] [w]. *)
Definition std_SetOutput_custom (g : Front) : Front :=
  {| appType := appType g; LevelDefault := LevelDefault g; loggers := loggers g;
     std_custom := true; custom_set := custom_set g;
     std_prefix := std_prefix g; stderr := stderr g; stdout := stdout g;
     stamp := stamp g; stamps_read := stamps_read g; mkdirs := mkdirs g;
     started := started g |}.

Definition custom_SetOutput (customLogger : nat) (g : Front) : Front :=
  {| appType := appType g; LevelDefault := LevelDefault g; loggers := loggers g;
     std_custom := std_custom g; custom_set := custom_set g ++ [customLogger];
     std_prefix := std_prefix g; stderr := stderr g; stdout := stdout g;
     stamp := stamp g; stamps_read := stamps_read g; mkdirs := mkdirs g;
     started := started g |}.

(** The standard logger writes a line to its default output. *)
Definition std_write (line : string) (g : Front) : Front :=
  {| appType := appType g; LevelDefault := LevelDefault g; loggers := loggers g;
     std_custom := std_custom g; custom_set := custom_set g;
     std_prefix := std_prefix g; stderr := stderr g ++ [line];
     stdout := stdout g;
     stamp := stamp g; stamps_read := stamps_read g; mkdirs := mkdirs g;
     started := started g |}.

(** [os.MkdirAll(path, 0755)], its error dropped. *)
Definition os_MkdirAll (path : string) (g : Front) : Front :=
  {| appType := appType g; LevelDefault := LevelDefault g; loggers := loggers g;
     std_custom := std_custom g; custom_set := custom_set g;
     std_prefix := std_prefix g; stderr := stderr g; stdout := stdout g;
     stamp := stamp g; stamps_read := stamps_read g;
     mkdirs := mkdirs g ++ [path]; started := started g |}.

(** [go worker()] *)
Definition go (worker : string) (g : Front) : Front :=
  {| appType := appType g; LevelDefault := LevelDefault g; loggers := loggers g;
     std_custom := std_custom g; custom_set := custom_set g;
     std_prefix := std_prefix g; stderr := stderr g; stdout := stdout g;
     stamp := stamp g; stamps_read := stamps_read g;
     mkdirs := mkdirs g; started := started g ++ [worker] |}.

Definition set_flags (stdout_on : bool) (levels : option (list LogLevel))
  (l : loggersType) : loggersType :=
  {| useStdoutLogger := stdout_on; useEsLogger := useEsLogger l;
     useFailLogger := useFailLogger l; filterLevels := levels;
     esConfig := esConfig l; esEntryChannel := esEntryChannel l;
     fileConfig := fileConfig l; fileAppShort := fileAppShort l;
     fileEntryChannel := fileEntryChannel l |}.

Definition set_useEsLogger (b : bool) (l : loggersType) : loggersType :=
  {| useStdoutLogger := useStdoutLogger l; useEsLogger := b;
     useFailLogger := useFailLogger l; filterLevels := filterLevels l;
     esConfig := esConfig l; esEntryChannel := esEntryChannel l;
     fileConfig := fileConfig l; fileAppShort := fileAppShort l;
     fileEntryChannel := fileEntryChannel l |}.

Definition set_useFailLogger (b : bool) (l : loggersType) : loggersType :=
  {| useStdoutLogger := useStdoutLogger l; useEsLogger := useEsLogger l;
     useFailLogger := b; filterLevels := filterLevels l;
     esConfig := esConfig l; esEntryChannel := esEntryChannel l;
     fileConfig := fileConfig l; fileAppShort := fileAppShort l;
     fileEntryChannel := fileEntryChannel l |}.

Definition set_esConfig (c : option EsConfig) (l : loggersType) : loggersType :=
  {| useStdoutLogger := useStdoutLogger l; useEsLogger := useEsLogger l;
     useFailLogger := useFailLogger l; filterLevels := filterLevels l;
     esConfig := c; esEntryChannel := esEntryChannel l;
     fileConfig := fileConfig l; fileAppShort := fileAppShort l;
     fileEntryChannel := fileEntryChannel l |}.

Definition set_file (c : option FileConfig) (appShort : string)
  (l : loggersType) : loggersType :=
  {| useStdoutLogger := useStdoutLogger l; useEsLogger := useEsLogger l;
     useFailLogger := useFailLogger l; filterLevels := filterLevels l;
     esConfig := esConfig l; esEntryChannel := esEntryChannel l;
     fileConfig := c; fileAppShort := appShort;
     fileEntryChannel := fileEntryChannel l |}.

(** [func newLoggers() (l *loggersType)] *)
Definition newLoggers : loggersType :=
  {| useStdoutLogger := true; useEsLogger := false; useFailLogger := false;
     filterLevels := None; esConfig := None; esEntryChannel := None;
     fileConfig := None; fileAppShort := EmptyString;
     fileEntryChannel := None |}.

(** [time.Second], in nanoseconds. *)
Definition Second : Z := 1000000000.

(** [stdoutLogger.Println(line)] *)
Definition print (line : string) (g : Front) : Front :=
  {| appType := appType g; LevelDefault := LevelDefault g; loggers := loggers g;
     std_custom := std_custom g; custom_set := custom_set g;
     std_prefix := std_prefix g; stderr := stderr g;
     stdout := stdout g ++ [line];
     stamp := stamp g; stamps_read := stamps_read g; mkdirs := mkdirs g;
     started := started g |}.

(** [time.Now().Format(time.RFC3339Nano)] *)
Definition now_stamp : M string :=
  fun g =>
    Done (stamp g (stamps_read g))
      {| appType := appType g; LevelDefault := LevelDefault g;
         loggers := loggers g; std_custom := std_custom g;
         custom_set := custom_set g; std_prefix := std_prefix g;
         stderr := stderr g; stdout := stdout g;
         stamp := stamp g; stamps_read := S (stamps_read g);
         mkdirs := mkdirs g; started := started g |}.

(** The send statement [ch <- entry]: on a nil channel it blocks for
    good, on a closed one it panics, on a full one it waits for the
    worker; else the entry is buffered. *)
Definition chan_send (entry : LogEntry) (c : option chan)
  : option chan + option string :=
  match c with
  | None => inr None
  | Some c =>
      if chan_closed c then inr (Some "send on closed channel")
      else if (len (buf c) <? cap c)%Z then
        inl (Some {| buf := buf c ++ [entry]; cap := cap c;
                     chan_closed := false |})
      else inr None
  end.

(** [close(ch)] *)
Definition chan_close (c : option chan) : option chan + string :=
  match c with
  | None => inr "close of nil channel"
  | Some c =>
      if chan_closed c then inr "close of closed channel"
      else inl (Some {| buf := buf c; cap := cap c; chan_closed := true |})
  end.

(** [make(chan *LogEntry, n)] *)
Definition make_chan (n : Z) : option chan :=
  if (n <? 0)%Z then None
  else Some {| buf := []; cap := n; chan_closed := false |}.

(** [slices.Contains(levels, level)] *)
Definition Contains_level (levels : list LogLevel) (level : LogLevel) : bool :=
  existsb (String.eqb level) levels.

(** [strings.HasPrefix] *)
Fixpoint HasPrefix (s prefix : string) : bool :=
  match prefix with
  | EmptyString => true
  | String a prefix' =>
      match s with
      | EmptyString => false
      | String b s' => Ascii.eqb a b && HasPrefix s' prefix'
      end
  end.

(** [strings.Index]: the byte offset of the first occurrence, or -1. *)
Fixpoint Index (s substr : string) : Z :=
  if HasPrefix s substr then 0%Z
  else
    match s with
    | EmptyString => (-1)%Z
    | String _ s' =>
        let i := Index s' substr in
        if (i <? 0)%Z then (-1)%Z else (i + 1)%Z
    end.

(** [strings.Contains] *)
Definition Contains (s substr : string) : bool := (0 <=? Index s substr)%Z.

(** [len] of a string or byte slice. *)
Definition strlen (s : string) : Z := Z.of_nat (String.length s).

(** The slice expression [p[i:j]]; [None] when the bounds are out of
    range, where Go panics. *)
Definition slice (p : string) (i j : Z) : option string :=
  if ((0 <=? i) && (i <=? j) && (j <=? strlen p))%Z
  then Some (substring (Z.to_nat i) (Z.to_nat (j - i)) p)
  else None.

Definition sliced (p : string) (i j : Z) : M string :=
  match slice p i j with
  | Some s => ret s
  | None => panic "slice bounds out of range"
  end.

(** [func getFields(v []any) (vout []any, fields Fields)] *)
Definition getFields (v : list operand)
  : list operand * option (gmap string any) :=
  match last v with
  | Some (MapArg m) => (take (List.length v - 1) v, m)
  | Some (FieldsArg m) => (take (List.length v - 1) v, m)
  | _ => (v, None)
  end.

(** The [fmt] and [strings] calls whose results the front end only
    passes on: [fmt.Sprint], [fmt.Sprintf], [strings.TrimSpace]. *)
Class Fmt : Type := mkFmt {
  Sprint : list operand -> string;
  Sprintf : string -> list operand -> string;
  TrimSpace : string -> string
}.

Module Frontend.

(** [type Config struct]; [CustomLogers] are the caller's loggers, known
    here by a number each. *)
Record Config : Type := mkConfig {
  cfg_AppShort : string;
  cfg_AppType : string;
  UseStdout : bool;
  cfg_EsConfig : option EsConfig;
  cfg_FileConfig : option FileConfig;
  DoesNotShowInitMessage : bool;
  CustomLogers : list nat;
  FilterLevels : option (list LogLevel)
}.

Section Code.

Context `{L : Lib} `{F : Fmt}.

Local Open Scope go_scope.

(** [func entry(level LogLevel, v ...any) *LogEntry] *)
Definition entry (level : LogLevel) (v : list operand) : M LogEntry :=
  let '(v, fields) := getFields v in
  let message := Sprint v in
  let* app_type := gets appType in
  let* timestamp := now_stamp in
  ret {| AppType := app_type; Timestamp := timestamp; Level := level;
         Message := message; Fields := fields |}.

(** [func entryf(level LogLevel, format string, v ...any) *LogEntry] *)
Definition entryf (level : LogLevel) (format : string) (v : list operand)
  : M LogEntry :=
  let '(v, fields) := getFields v in
  entry level [Plain (AnyString (Sprintf format v)); FieldsArg fields].

(** The two send statements of [send]. *)
Definition send_es (e : LogEntry) : M unit :=
  fun g =>
    match chan_send e (esEntryChannel (loggers g)) with
    | inl c => Done tt (set_loggers (set_esEntryChannel c (loggers g)) g)
    | inr None => Blocked g
    | inr (Some msg) => Panicked msg g
    end.

Definition send_file (e : LogEntry) : M unit :=
  fun g =>
    match chan_send e (fileEntryChannel (loggers g)) with
    | inl c => Done tt (set_loggers (set_fileEntryChannel c (loggers g)) g)
    | inr None => Blocked g
    | inr (Some msg) => Panicked msg g
    end.

(** [func (l *loggersType) send(entry *LogEntry) (err error)]; the error
    it returns is always nil. *)
Definition send (e : LogEntry) : M unit :=
  let* l := gets loggers in
  if match filterLevels l with
     | Some levels => Contains_level levels (Level e)
     | None => false
     end
  then ret tt
  else
    let* _ := when (useStdoutLogger l) (modify (print (fst (String_ e)))) in
    let* _ := when (useEsLogger l) (send_es e) in
    when (useFailLogger l) (send_file e).

(** [func (cw *customWriter) Write(p []byte) (n int, err error)]; the
    error it returns is always nil. *)
Definition Write (p : string) : M Z :=
  let* level_default := gets LevelDefault in
  if String.eqb level_default LevelNone then ret (strlen p)
  else
    let* p := sliced p (Index p " " + 1) (strlen p) in
    let* p := sliced p (Index p " " + 1) (strlen p) in
    let* lp :=
      if HasPrefix p "[" && Contains p "]" then
        let* level := sliced p (Index p "[" + 1) (Index p "]") in
        let* p := sliced p (Index p "]" + 1) (strlen p) in
        ret (level, p)
      else ret (level_default, p) in
    let* e := entry (fst lp) [Plain (AnyString (TrimSpace (snd lp)))] in
    let* _ := send e in
    ret (strlen (snd lp)).

(** The defaults [init] writes into the configuration it is given. *)
Definition es_defaults (appShort : string) (c : EsConfig) : EsConfig :=
  {| ES_URL := ES_URL c; ES_API_KEY := ES_API_KEY c;
     ES_INDEX_NAME := ES_INDEX_NAME c;
     TimeToHold :=
       if (TimeToHold c =? 0)%Z then (10 * Second)%Z else TimeToHold c;
     EntriesToHold :=
       if (EntriesToHold c =? 0)%Z then 1000%Z else EntriesToHold c;
     FailoverDir :=
       if String.eqb (FailoverDir c) EmptyString
       then TempDir +:+ "/" +:+ appShort +:+ "/failover"
       else FailoverDir c;
     MaxFailoverFiles :=
       if (MaxFailoverFiles c =? 0)%Z then 10%Z else MaxFailoverFiles c |}.

(** [func (e *es) init(appShort string, esConfig *EsConfig)] *)
Definition es_init (appShort : string) (esConfig : option EsConfig) : M unit :=
  match esConfig with
  | None => ret tt
  | Some c =>
      let c := es_defaults appShort c in
      let* _ := modify (fun g => set_loggers (set_esConfig (Some c) (loggers g)) g) in
      let* _ := modify (os_MkdirAll (FailoverDir c)) in
      match make_chan (EntriesToHold c) with
      | None => panic "makechan: size out of range"
      | Some ch =>
          let* _ :=
            modify (fun g =>
                      set_loggers (set_esEntryChannel (Some ch) (loggers g)) g) in
          modify (go "es.entryHandler")
      end
  end.

(** [func (f *file) init(appShort string, fileConfig *FileConfig)] *)
Definition file_init (appShort : string) (fileConfig : option FileConfig)
  : M unit :=
  match fileConfig with
  | None => ret tt
  | Some c =>
      let* _ :=
        modify (fun g => set_loggers (set_file (Some c) appShort (loggers g)) g) in
      match make_chan 100 with
      | None => panic "makechan: size out of range"
      | Some ch =>
          let* _ :=
            modify (fun g =>
                      set_loggers (set_fileEntryChannel (Some ch) (loggers g)) g) in
          modify (go "file.entryHandler")
      end
  end.

(** [log.Println(line)] of the standard library: the line goes, behind
    the logger's prefix, to the logger's output. *)
Definition std_Println (line : string) : M unit :=
  let* custom := gets std_custom in
  let* prefix := gets std_prefix in
  if custom then
    let* _ := Write (prefix +:+ line +:+ NL) in
    ret tt
  else modify (std_write (prefix +:+ line +:+ NL)).

(** [func Init(config Config)] *)
Definition Init (config : Config) : M unit :=
  let* _ := modify (set_appType (cfg_AppType config)) in
  let* _ :=
    modify (fun g =>
              set_loggers
                (set_flags (UseStdout config) (FilterLevels config) (loggers g))
                g) in
  let* _ := modify std_SetOutput_custom in
  let* _ := modify (fun g => fold_left (fun g c => custom_SetOutput c g)
                                       (CustomLogers config) g) in
  let* _ :=
    match cfg_EsConfig config with
    | Some c =>
        let* _ := es_init (cfg_AppShort config) (Some c) in
        modify (fun g => set_loggers (set_useEsLogger true (loggers g)) g)
    | None => ret tt
    end in
  let* _ :=
    match cfg_FileConfig config with
    | Some c =>
        let* _ := file_init (cfg_AppShort config) (Some c) in
        modify (fun g => set_loggers (set_useFailLogger true (loggers g)) g)
    | None => ret tt
    end in
  when (negb (DoesNotShowInitMessage config)) (std_Println "logger initialized").

(** The state [Init] builds before it prints its message, when both
    sinks are configured, [c] and [fc] being their configurations. *)
Definition sinks_on (config : Config) (c : EsConfig) (fc : FileConfig)
  (g : Front) : Front :=
  let c' := es_defaults (cfg_AppShort config) c in
  {| appType := cfg_AppType config; LevelDefault := LevelDefault g;
     loggers :=
       {| useStdoutLogger := UseStdout config; useEsLogger := true;
          useFailLogger := true; filterLevels := FilterLevels config;
          esConfig := Some c';
          esEntryChannel :=
            Some {| buf := []; cap := EntriesToHold c'; chan_closed := false |};
          fileConfig := Some fc; fileAppShort := cfg_AppShort config;
          fileEntryChannel :=
            Some {| buf := []; cap := 100; chan_closed := false |} |};
     std_custom := true;
     custom_set := (custom_set g ++ CustomLogers config)%list;
     std_prefix := std_prefix g; stderr := stderr g; stdout := stdout g;
     stamp := stamp g; stamps_read := stamps_read g;
     mkdirs := (mkdirs g ++ [FailoverDir c'])%list;
     started := (started g ++ ["es.entryHandler"; "file.entryHandler"])%list |}.

(** [func (e *es) close()] and [func (f *file) close()] *)
Definition es_close : M unit :=
  fun g =>
    match chan_close (esEntryChannel (loggers g)) with
    | inl c => Done tt (set_loggers (set_esEntryChannel c (loggers g)) g)
    | inr msg => Panicked msg g
    end.

Definition file_close : M unit :=
  fun g =>
    match chan_close (fileEntryChannel (loggers g)) with
    | inl c => Done tt (set_loggers (set_fileEntryChannel c (loggers g)) g)
    | inr msg => Panicked msg g
    end.

(** [func CLose()]; the wait for the workers to return is not part of the
    front end's state. *)
Definition CLose : M unit :=
  let* l := gets loggers in
  let* _ := when (useEsLogger l) es_close in
  let* l := gets loggers in
  when (useFailLogger l) file_close.

(** [func SetDefaultLevel(level LogLevel)] *)
Definition SetDefaultLevel (level : LogLevel) : M unit :=
  modify (set_LevelDefault level).

(** [func Sentry(level LogLevel, v ...any) string] and its siblings. *)
Definition Sentry (level : LogLevel) (v : list operand) : M string :=
  let* e := entry level v in
  ret (fst (String_ e)).

Definition Sentryf (level : LogLevel) (format : string) (v : list operand)
  : M string :=
  let* e := entryf level format v in
  ret (fst (String_ e)).

Definition Sdebug (v : list operand) : M string :=
  let* e := entry LevelDebug v in
  ret (fst (String_ e)).

Definition Sdebugf (format : string) (v : list operand) : M string :=
  let* e := entryf LevelDebug format v in
  ret (fst (String_ e)).

(** [func Sinfo(message string, v ...any) string]: the entry is built
    from [v] alone. *)
Definition Sinfo (message : string) (v : list operand) : M string :=
  let* e := entry LevelInfo v in
  ret (fst (String_ e)).

Definition Sinfof (format : string) (v : list operand) : M string :=
  let* e := entryf LevelInfo format v in
  ret (fst (String_ e)).

Definition Swarn (message : string) (v : list operand) : M string :=
  let* e := entry LevelWarn v in
  ret (fst (String_ e)).

Definition Swarnf (format : string) (v : list operand) : M string :=
  let* e := entryf LevelWarn format v in
  ret (fst (String_ e)).

Definition Serror (message : string) (v : list operand) : M string :=
  let* e := entry LevelError v in
  ret (fst (String_ e)).

Definition Serrorf (format : string) (v : list operand) : M string :=
  let* e := entryf LevelError format v in
  ret (fst (String_ e)).

(** [func PrintLevel(level LogLevel, v ...any)] and its siblings. *)
Definition PrintLevel (level : LogLevel) (v : list operand) : M unit :=
  let* e := entry level v in
  send e.

Definition PrintLevelf (level : LogLevel) (format : string) (v : list operand)
  : M unit :=
  let* e := entryf level format v in
  send e.

Definition Println (v : list operand) : M unit :=
  let* level := gets LevelDefault in
  PrintLevel level v.

Definition Printf (format : string) (v : list operand) : M unit :=
  let* level := gets LevelDefault in
  PrintLevelf level format v.

Definition Debug (v : list operand) : M unit := PrintLevel LevelDebug v.
Definition Debugf (format : string) (v : list operand) : M unit :=
  PrintLevelf LevelDebug format v.
Definition Info (v : list operand) : M unit := PrintLevel LevelInfo v.
Definition Infof (format : string) (v : list operand) : M unit :=
  PrintLevelf LevelInfo format v.
Definition Warn (v : list operand) : M unit := PrintLevel LevelWarn v.
Definition Warnf (format : string) (v : list operand) : M unit :=
  PrintLevelf LevelWarn format v.
Definition Error (v : list operand) : M unit := PrintLevel LevelError v.
Definition Errorf (format : string) (v : list operand) : M unit :=
  PrintLevelf LevelError format v.

End Code.

End Frontend.

(** ** The file sink and the standard logger

    [Init] points the standard logger at a [customWriter] before it
    starts the file sink's worker, so the [log.Println] that ends
    [newLogfile] comes back into the package: through [Write] and [send]
    the message is printed and sent to the channels of the sinks in use,
    the channel of the worker that is logging among them. *)

Module Wired.

Section Code.

Context `{L : Lib} `{F : Fmt}.

(** [func (f *file) newLogfile() (err error)] with the call that ends
    it.  The file system's side is [newLogfile] above; once the sink
    has switched to the new file, line 156 hands the line to the
    standard logger, on the front end [g] as the worker finds it.  The
    last component is how that call ends; the paths that return before
    line 156 leave the front end as it is. *)
Definition newLogfile (s : file) (w : FWorld) (g : Front)
  : option string * file * FWorld * flow unit :=
  let '(err, s, w) := newLogfile s w in
  match err, f s with
  | None, Some file =>
      (err, s, w,
       Frontend.std_Println ("create new log file: " +:+ Name file) g)
  | _, _ => (err, s, w, Done tt g)
  end.

(** The body of the worker's loop for one received [entry] (lines 84 to
    109): the entry is written once [newLogfile], where it is called,
    has returned without an error; a worker parked or panicking in
    [log.Println] gets no further. *)
Definition file_entry (entry : LogEntry) (s : file) (w : FWorld) (g : Front)
  : file * FWorld * flow unit :=
  let '(err, s, w, r) :=
    match f s with
    | None => newLogfile s w g
    | Some h =>
        if (0 <? CreateNewAfter (Config s))%Z then
          let '(t, w) := time_Now w in
          if (CreateNewAfter (Config s) <? t - fCreatedAt s)%Z then
            let '(h, w) := Close h w in
            newLogfile
              {| Config := Config s; AppShort := AppShort s; f := Some h;
                 fCreatedAt := fCreatedAt s |} w g
          else (None, s, w, Done tt g)
        else (None, s, w, Done tt g)
    end in
  match r with
  | Done _ _ =>
      match err with
      | Some _ => (s, w, r)
      | None =>
          match f s with
          | Some h => (s, Write h (fst (String_ entry) +:+ NL) w, r)
          | None => (s, w, r)
          end
      end
  | _ => (s, w, r)
  end.

End Code.

End Wired.

(** ** Notions the statements about the front end use *)

(** The map an operand carries, when it is one. *)
Definition as_map (x : operand) : option (option (gmap string any)) :=
  match x with
  | Plain _ => None
  | MapArg m => Some m
  | FieldsArg m => Some m
  end.

(** The level of [e] passes the filter. *)
Definition passes (e : LogEntry) (g : Front) : Prop :=
  forall levels, filterLevels (loggers g) = Some levels -> Level e ∉ levels.

(** The channel is open and has room for one more entry. *)
Definition has_room (c : option chan) : Prop :=
  exists ch, c = Some ch /\ chan_closed ch = false /\ (len (buf ch) < cap ch)%Z.

(** What a channel buffers; nothing when it is nil. *)
Definition queued (c : option chan) : list LogEntry :=
  match c with
  | Some ch => buf ch
  | None => []
  end.

(** The channel is open and full. *)
Definition is_full (c : option chan) : Prop :=
  exists ch, c = Some ch /\ chan_closed ch = false /\ (cap ch <= len (buf ch))%Z.

(** The call returned. *)
Definition returned {A : Type} (r : flow A) : bool :=
  match r with
  | Done _ _ => true
  | _ => false
  end.

(** The entry [customWriter.Write] builds of a [line] of the standard
    logger that carries no level, in the state [g]. *)
Definition logged `{F : Fmt} (line : string) (g : Front) : LogEntry :=
  {| AppType := appType g; Timestamp := stamp g (stamps_read g);
     Level := LevelDefault g;
     Message := Sprint [Plain (AnyString (TrimSpace (line +:+ NL)))];
     Fields := None |}.

(** ** A concrete setting for the front end *)

Module SampleFront.

(** Stand-ins for [fmt.Sprint], [fmt.Sprintf] and [strings.TrimSpace]:
    strings are written as they are, the format is followed by its
    operands, and only newlines count as space. *)
Definition render (x : operand) : string :=
  match x with
  | Plain (AnyString s) => s
  | Plain (AnyInt z) => itoa z
  | Plain (AnyBool true) => "true"
  | Plain (AnyBool false) => "false"
  | Plain AnyNil => "<nil>"
  | Plain (AnyFunc _) => "0x0"
  | MapArg _ => "map[]"
  | FieldsArg _ => "map[]"
  end.

Definition fmt : Fmt :=
  {| Sprint := fun v => String.concat EmptyString (map render v);
     Sprintf := fun format v =>
       format +:+ String.concat EmptyString (map render v);
     TrimSpace := Trim |}.

(** The package as it is before [Init]: the standard logger writes
    [date time ] in front of a line. *)
Definition fresh : Front :=
  {| appType := "TEST"; LevelDefault := LevelDebug; loggers := newLoggers;
     std_custom := false; custom_set := [];
     std_prefix := "2025/10/19 10:28:50 ";
     stderr := []; stdout := [];
     stamp := fun _ => "2025-10-19T10:28:50.567024001Z"; stamps_read := 0;
     mkdirs := []; started := [] |}.

Definition file_cfg : FileConfig :=
  {| Folder := "/var/log"; CreateNewAfter := 60000000000 |}.

(** Both sinks configured, debug lines filtered out. *)
Definition config (quiet : bool) : Frontend.Config :=
  {| Frontend.cfg_AppShort := "app"; Frontend.cfg_AppType := "DEV"; Frontend.UseStdout := true;
     Frontend.cfg_EsConfig := Some Sample.cfg; Frontend.cfg_FileConfig := Some file_cfg;
     Frontend.DoesNotShowInitMessage := quiet; Frontend.CustomLogers := [];
     Frontend.FilterLevels := Some [LevelWarn] |}.

Definition e_warn : LogEntry :=
  {| AppType := "DEV"; Timestamp := "2025-10-19T10:28:54.567024001Z";
     Level := LevelWarn; Message := "disk almost full"; Fields := None |}.

End SampleFront.

Definition run_Init (quiet : bool) : flow unit :=
  @Frontend.Init Sample.lib SampleFront.fmt (SampleFront.config quiet)
    SampleFront.fresh.

(** The package after a quiet [Init]. *)
Definition ready : Front := final (run_Init true).

Definition run_CLose : Front -> flow unit := @Frontend.CLose.

Definition run_send : LogEntry -> Front -> flow unit := @Frontend.send Sample.lib.

Definition run_Write : string -> Front -> flow Z :=
  @Frontend.Write Sample.lib SampleFront.fmt.

(** A configuration whose cap is negative. *)
Definition cfg_negative : EsConfig :=
  {| ES_URL := ES_URL Sample.cfg; ES_API_KEY := ES_API_KEY Sample.cfg;
     ES_INDEX_NAME := ES_INDEX_NAME Sample.cfg;
     TimeToHold := TimeToHold Sample.cfg;
     EntriesToHold := EntriesToHold Sample.cfg;
     FailoverDir := FailoverDir Sample.cfg; MaxFailoverFiles := -1 |}.

(** A network that refuses the first request and accepts the others. *)
Definition recovering : World :=
  Sample.world 1760869730567024001 1760869731567024001
    (fun k => match k with O => Sample.refused | S _ => Sample.ok200 end).

(** Two records at rest, written a second apart on a real clock, and a
    server that accepts every request. *)
Definition backlog : World :=
  set_disk
    {[ "batch-1760869730567024001.json" := File (Sample.data_of [Sample.e_old]);
       "batch-1760869731567024001.json" := File (Sample.data_of [Sample.e_new]) ]}
    (Sample.world 1760869732567024001 1760869733567024001
       (fun _ => Sample.ok200)).

(** The file sink with rotation switched off, its file open. *)
Definition sink_plain : file :=
  {| Config := {| Folder := "/var/log"; CreateNewAfter := 0 |};
     AppShort := "app";
     f := Some {| Name := old_log; closed := false |};
     fCreatedAt := 1000 |}.

(** The file sink before its first entry. *)
Definition sink_new : file :=
  {| Config := {| Folder := "/var/log"; CreateNewAfter := 0 |};
     AppShort := "app"; f := None; fCreatedAt := 0 |}.

Definition disk_ok : FWorld :=
  {| fs := {[ "/var/log/app" := Dir; old_log := File "first line" ]};
     mkdir_fault := None; copy_fault := None;
     now := fun _ => 2000%Z; now_reads := 0;
     timers := []; closes := []; notices := [] |}.

(** A file system on which the folder of the logs cannot be created. *)
Definition read_only : FWorld :=
  {| fs := ∅; mkdir_fault := Some "mkdir /var/log/app: read-only file system";
     copy_fault := None; now := fun _ => 2000%Z; now_reads := 0;
     timers := []; closes := []; notices := [] |}.

(** A setting whose file names carry the second, as the layout
    [2006.01.02-15.04.05] does. *)
Definition lib_seconds : Lib :=
  {| json_Marshal := @json_Marshal Sample.lib;
     json_Unmarshal := @json_Unmarshal Sample.lib;
     gzip := @gzip Sample.lib; gunzip := @gunzip Sample.lib;
     NewRequest_error := @NewRequest_error Sample.lib;
     fmt_map := @fmt_map Sample.lib; RuneCount := @RuneCount Sample.lib;
     Format := fun t => itoa (t / 1000000000);
     TempDir := @TempDir Sample.lib |}.

(** A sink that rotates every half second, its file created at 10.2 s,
    and a clock that reads 10.9 s. *)
Definition sink_fast : file :=
  {| Config := {| Folder := "/var/log"; CreateNewAfter := 500000000 |};
     AppShort := "app";
     f := Some {| Name := "/var/log/app/app_10.log"; closed := false |};
     fCreatedAt := 10200000000 |}.

Definition same_second : FWorld :=
  {| fs := {[ "/var/log/app" := Dir;
              "/var/log/app/app_10.log" := File "first line" ]};
     mkdir_fault := None; copy_fault := None;
     now := fun _ => 10900000000%Z; now_reads := 0;
     timers := []; closes := []; notices := [] |}.

(** The package after [CLose]. *)
Definition closed_down : Front := final (run_CLose ready).

(** The worker at rest, in front of the backlog. *)
Definition idle : Handler :=
  {| entries := []; ticker := NewTicker (TimeToHold Sample.cfg);
     state := Running; world := backlog |}.

(** The worker from its first statement, in the sample setting. *)
Definition run_started
  : nat -> list event -> World -> option (Handler * list event) :=
  @entryHandler_started Sample.lib Sample.cfg.

(** The file sink's worker with the standard logger behind it. *)
Definition run_wired
  : LogEntry -> file -> FWorld -> Front -> file * FWorld * flow unit :=
  @Wired.file_entry Sample.lib SampleFront.fmt.

(** The package with the file sink alone in use, the standard logger on
    the [customWriter], and a hundred entries waiting in the sink's
    channel. *)
Definition jammed : Front :=
  {| appType := "DEV"; LevelDefault := LevelDebug;
     loggers :=
       {| useStdoutLogger := false; useEsLogger := false;
          useFailLogger := true; filterLevels := None;
          esConfig := None; esEntryChannel := None;
          fileConfig := Some SampleFront.file_cfg; fileAppShort := "app";
          fileEntryChannel :=
            Some {| buf := replicate 100 Sample.e_new; cap := 100;
                    chan_closed := false |} |};
     std_custom := true; custom_set := [];
     std_prefix := "2025/10/19 10:28:50 ";
     stderr := []; stdout := [];
     stamp := fun _ => "2025-10-19T10:28:50.567024001Z"; stamps_read := 0;
     mkdirs := []; started := ["file.entryHandler"] |}.

(** * Part II: the theorems *)

(** ** Strings *)

Lemma append_cons (c : ascii) (a b : string) :
  String c a +:+ b = String c (a +:+ b).
Proof. reflexivity. Qed.

Lemma append_assoc (a b c : string) : a +:+ (b +:+ c) = (a +:+ b) +:+ c.
Proof.
  induction a as [|x a IH]; [reflexivity|]. rewrite !append_cons. now rewrite IH.
Qed.

Lemma length_append (a b : string) :
  String.length (a +:+ b) = (String.length a + String.length b)%nat.
Proof.
  induction a as [|c a IH]; [reflexivity|].
  rewrite append_cons. simpl. now rewrite IH.
Qed.

(** ** Trimming *)

Lemma TrimLeft_idem s : TrimLeft (TrimLeft s) = TrimLeft s.
Proof.
  induction s as [|c r IH]; simpl; [reflexivity|].
  destruct (is_nl c) eqn:E; [exact IH|]. simpl. now rewrite E.
Qed.

(** What [TrimRight] returns ends with no newline: trimming it again
    changes nothing. *)
Lemma TrimRight_idem s : TrimRight (TrimRight s) = TrimRight s.
Proof.
  induction s as [|c r IH]; simpl; [reflexivity|].
  destruct (TrimRight r) as [|c' r'] eqn:E.
  - destruct (is_nl c) eqn:Ec; simpl; [reflexivity|]. now rewrite Ec.
  - change (TrimRight (String c (String c' r')))
      with (match TrimRight (String c' r') with
            | EmptyString =>
                if is_nl c then EmptyString else String c EmptyString
            | String a b => String c (String a b)
            end).
    now rewrite IH.
Qed.

(** Dropping leading newlines of a string that ends with none keeps it
    ending with none. *)
Lemma TrimRight_TrimLeft s :
  TrimRight s = s -> TrimRight (TrimLeft s) = TrimLeft s.
Proof.
  induction s as [|c r IH]; simpl; [reflexivity|].
  destruct (is_nl c) eqn:Ec; intros H.
  - apply IH. destruct (TrimRight r) as [|c' r'] eqn:E.
    + discriminate.
    + now injection H.
  - simpl. rewrite Ec. exact H.
Qed.

Lemma Trim_idem s : Trim (Trim s) = Trim s.
Proof.
  unfold Trim.
  rewrite (TrimRight_TrimLeft (TrimRight s) (TrimRight_idem s)).
  apply TrimLeft_idem.
Qed.

(** What the two trims cut off. *)
Lemma TrimLeft_suffix s : exists t, s = t +:+ TrimLeft s.
Proof.
  induction s as [|c r [t IH]]; simpl.
  - now exists EmptyString.
  - destruct (is_nl c); [|now exists EmptyString].
    exists (String c t). rewrite append_cons. now rewrite <- IH.
Qed.

Lemma TrimRight_prefix s : exists t, s = TrimRight s +:+ t.
Proof.
  induction s as [|c r [t IH]]; simpl.
  - now exists EmptyString.
  - destruct (TrimRight r) as [|c' r'] eqn:E.
    + destruct (is_nl c); [now exists (String c r)|].
      exists r. reflexivity.
    + exists t. rewrite append_cons. now rewrite <- IH.
Qed.

Lemma app_empty_r (a : string) : a +:+ EmptyString = a.
Proof.
  induction a as [|c a IH]; [reflexivity|]. rewrite append_cons. now rewrite IH.
Qed.

Lemma length_zero (t : string) : String.length t = 0%nat -> t = EmptyString.
Proof. destruct t; [reflexivity|discriminate]. Qed.

Lemma TrimLeft_fix_iff s : TrimLeft s = s <-> starts_nl s = false.
Proof.
  destruct s as [|c r]; simpl; [now split|].
  destruct (is_nl c) eqn:E; [|now split].
  split; [|discriminate]. intros H.
  destruct (TrimLeft_suffix r) as [t Ht].
  apply (f_equal String.length) in H.
  apply (f_equal String.length) in Ht.
  rewrite length_append in Ht. simpl in H. lia.
Qed.

Lemma TrimRight_fix_iff s : TrimRight s = s <-> ends_nl s = false.
Proof.
  induction s as [|c r IH]; [now split|].
  destruct r as [|c' r'].
  - simpl. destruct (is_nl c); split; congruence.
  - change (ends_nl (String c (String c' r'))) with (ends_nl (String c' r')).
    change (TrimRight (String c (String c' r')))
      with (match TrimRight (String c' r') with
            | EmptyString =>
                if is_nl c then EmptyString else String c EmptyString
            | String a b => String c (String a b)
            end).
    rewrite <- IH.
    destruct (TrimRight (String c' r')) as [|a b].
    + split; [|discriminate]. destruct (is_nl c); discriminate.
    + split; [intros [= -> ->]; reflexivity|intros ->; reflexivity].
Qed.

(** [Trim] leaves a string alone exactly when the string neither starts
    nor ends with a newline. *)
Lemma Trim_fix_iff s :
  Trim s = s <-> starts_nl s = false /\ ends_nl s = false.
Proof.
  unfold Trim. split.
  - intros H.
    destruct (TrimRight_prefix s) as [t Ht].
    destruct (TrimLeft_suffix (TrimRight s)) as [u Hu].
    assert (Hlen : String.length t = 0%nat /\ String.length u = 0%nat).
    { pose proof (f_equal String.length Ht) as H1.
      pose proof (f_equal String.length Hu) as H2.
      rewrite length_append in H1, H2. rewrite H in H2. lia. }
    destruct Hlen as [Ht0 Hu0].
    apply length_zero in Ht0, Hu0. subst t u.
    rewrite app_empty_r in Ht.
    assert (Hr : TrimRight s = s) by congruence.
    split; [|now apply TrimRight_fix_iff].
    apply TrimLeft_fix_iff. now rewrite Hr in H.
  - intros [Hs He]. apply TrimRight_fix_iff in He. rewrite He.
    now apply TrimLeft_fix_iff.
Qed.

Section Facts.

Context `{L : Lib}.

Set Default Proof Using "Type".

(** ** Entries: what [String] and [Json] do to their receiver *)

Lemma Json_snd (entry : LogEntry) :
  snd (Json entry) = set_Message (Trim (Message entry)) entry.
Proof. unfold Json. now destruct (json_Marshal _). Qed.

Lemma set_Message_id (entry : LogEntry) : set_Message (Message entry) entry = entry.
Proof. now destruct entry. Qed.

(** The loop of [sendToElasticsearch] calls [Json] on every entry, in
    order. *)
Lemma bulk_body_snd (index : string) (entrys : list LogEntry) :
  snd (bulk_body index entrys) = map (fun e => snd (Json e)) entrys.
Proof.
  induction entrys as [|e rest IH]; simpl; [reflexivity|].
  destruct (Json e) as [json e'] eqn:Ej.
  destruct (bulk_body index rest) as [buf rest'] eqn:Eb.
  simpl in *. now rewrite IH.
Qed.

Lemma bulk_body_fst (index : string) (entrys : list LogEntry) :
  fst (bulk_body index entrys) =
  fold_right
    (fun e buf => action_line index +:+ NL +:+ fst (Json e) +:+ NL +:+ buf)
    EmptyString entrys.
Proof.
  induction entrys as [|e rest IH]; simpl; [reflexivity|].
  destruct (Json e) as [json e'] eqn:Ej.
  destruct (bulk_body index rest) as [buf rest'] eqn:Eb.
  simpl in *. now rewrite IH.
Qed.

(** ** The delivery client *)

(** [sendToElasticsearch] unfolded along its branches. *)
Lemma sendToElasticsearch_cases (cfg : EsConfig) (entrys : list LogEntry)
  (w : World) :
  let body := fst (bulk_body (ES_INDEX_NAME cfg) entrys) in
  let entrys' := map (fun e => snd (Json e)) entrys in
  let w1 := snd (client_Do (bulk_request cfg (gzip body)) w) in
  match NewRequest_error (bulk_url cfg) with
  | Some err =>
      sendToElasticsearch (Some cfg) entrys w =
      (Some ("Error creating HTTP request: " +:+ err), entrys', w)
  | None =>
      match net w (List.length (wire w)) with
      | Err err =>
          sendToElasticsearch (Some cfg) entrys w =
          (Some ("Error sending HTTP request: " +:+ err), entrys', w1)
      | Ok resp =>
          if (StatusCode resp =? 200)%Z then
            sendToElasticsearch (Some cfg) entrys w = (None, entrys', w1)
          else
            sendToElasticsearch (Some cfg) entrys w =
            (Some ("Error Response Status: " +:+ Status resp +:+ NL +:+
                   match Body resp with
                   | Ok body => "Response Body: " +:+ body
                   | Err err => "Error reading response body: " +:+ err
                   end), entrys', w1)
      end
  end.
Proof.
  cbv zeta. unfold sendToElasticsearch, bulk_url.
  rewrite <- (bulk_body_snd (ES_INDEX_NAME cfg)).
  destruct (bulk_body (ES_INDEX_NAME cfg) entrys) as [buf entrys'] eqn:Eb.
  simpl fst; simpl snd.
  destruct (NewRequest_error _) as [err|]; [reflexivity|].
  unfold client_Do. simpl snd.
  destruct (net w (List.length (wire w))) as [resp|err]; [|reflexivity].
  destruct (StatusCode resp =? 200)%Z; simpl; [reflexivity|].
  now destruct (Body resp).
Qed.

(** The request a call puts on the wire, once it could be built. *)
Lemma send_wire (cfg : EsConfig) (entrys : list LogEntry) (w : World) :
  NewRequest_error (bulk_url cfg) = None ->
  wire (snd (sendToElasticsearch (Some cfg) entrys w)) =
  (wire w ++
   [bulk_request cfg (gzip (fst (bulk_body (ES_INDEX_NAME cfg) entrys)))])%list.
Proof.
  intros Hn.
  pose proof (sendToElasticsearch_cases cfg entrys w) as H. cbv zeta in H.
  rewrite Hn in H.
  destruct (net w (List.length (wire w))) as [resp|err].
  - destruct (StatusCode resp =? 200)%Z; now rewrite H.
  - now rewrite H.
Qed.

(** C6: one call of [sendToElasticsearch] returns nil exactly when a
    response came back with status 200.  A transport error is returned as
    one error carrying the transport's message; a response with any other
    status as one error carrying the status line and the body (or the
    error of reading the body).  The call hands at most one request to
    [client.Do]: it never retries. *)
Theorem C6_delivery_result (e : option EsConfig) (entrys : list LogEntry)
  (w : World) :
  let r := sendToElasticsearch e entrys w in
  (fst (fst r) = None <-> exists cfg, e = Some cfg /\ delivers cfg w) /\
  (forall cfg err,
     e = Some cfg -> NewRequest_error (bulk_url cfg) = None ->
     net w (List.length (wire w)) = Err err ->
     fst (fst r) = Some ("Error sending HTTP request: " +:+ err)) /\
  (forall cfg resp,
     e = Some cfg -> NewRequest_error (bulk_url cfg) = None ->
     net w (List.length (wire w)) = Ok resp -> StatusCode resp <> 200%Z ->
     fst (fst r) =
     Some ("Error Response Status: " +:+ Status resp +:+ NL +:+
           match Body resp with
           | Ok body => "Response Body: " +:+ body
           | Err err => "Error reading response body: " +:+ err
           end)) /\
  (wire (snd r) = wire w \/ exists req, wire (snd r) = (wire w ++ [req])%list) /\
  (forall cfg,
     e = Some cfg -> NewRequest_error (bulk_url cfg) = None ->
     wire (snd r) =
     (wire w ++
      [bulk_request cfg (gzip (fst (bulk_body (ES_INDEX_NAME cfg) entrys)))])%list).
Proof.
  cbv zeta. destruct e as [cfg|].
  2:{ simpl. split; [|split; [|split; [|split]]].
      - split; [discriminate|]. intros [cfg [H _]]. discriminate.
      - intros; discriminate.
      - intros; discriminate.
      - now left.
      - intros; discriminate. }
  pose proof (sendToElasticsearch_cases cfg entrys w) as H. cbv zeta in H.
  unfold delivers.
  destruct (NewRequest_error (bulk_url cfg)) as [err0|] eqn:En.
  { rewrite H. simpl. split; [|split; [|split; [|split]]].
    - split; [discriminate|]. intros [cfg' [[= <-] [Hn _]]]. congruence.
    - intros cfg' err [= <-]. congruence.
    - intros cfg' resp [= <-]. congruence.
    - now left.
    - intros cfg' [= <-]. congruence. }
  destruct (net w (List.length (wire w))) as [resp|err] eqn:Enet.
  - destruct (StatusCode resp =? 200)%Z eqn:Es; rewrite H; simpl.
    + apply Z.eqb_eq in Es. split; [|split; [|split; [|split]]].
      * split; [|reflexivity].
        intros _. exists cfg. repeat split; try assumption. now exists resp.
      * intros; discriminate.
      * intros cfg' resp' [= <-] _ [= <-] Hne. contradiction.
      * right. eexists. reflexivity.
      * intros cfg' [= <-] _. reflexivity.
    + apply Z.eqb_neq in Es. split; [|split; [|split; [|split]]].
      * split; [discriminate|].
        intros [cfg' [[= <-] [_ [resp' [[= <-] Hs]]]]]. contradiction.
      * intros; discriminate.
      * intros cfg' resp' [= <-] _ [= <-] _. reflexivity.
      * right. eexists. reflexivity.
      * intros cfg' [= <-] _. reflexivity.
  - rewrite H; simpl. split; [|split; [|split; [|split]]].
    + split; [discriminate|].
      intros [cfg' [[= <-] [_ [resp' [Hr _]]]]]. discriminate.
    + intros cfg' err' [= <-] _ [= <-]. reflexivity.
    + intros; discriminate.
    + right. eexists. reflexivity.
    + intros cfg' [= <-] _. reflexivity.
Qed.

(** Delivery succeeds exactly when the next request gets through. *)
Lemma send_ok_iff (cfg : EsConfig) (entrys : list LogEntry) (w : World) :
  fst (fst (sendToElasticsearch (Some cfg) entrys w)) = None <-> delivers cfg w.
Proof.
  pose proof (sendToElasticsearch_cases cfg entrys w) as H. cbv zeta in H.
  unfold delivers.
  destruct (NewRequest_error (bulk_url cfg)) as [err0|] eqn:En.
  { rewrite H. simpl. split; [discriminate|]. now intros [? _]. }
  destruct (net w (List.length (wire w))) as [resp|err] eqn:Enet.
  - destruct (StatusCode resp =? 200)%Z eqn:Es; rewrite H; simpl.
    + apply Z.eqb_eq in Es. split; [|reflexivity].
      intros _. split; [reflexivity|]. now exists resp.
    + apply Z.eqb_neq in Es. split; [discriminate|].
      intros [_ [resp' [[= <-] Hs]]]. contradiction.
  - rewrite H; simpl. split; [discriminate|].
    intros [_ [resp' [Hr _]]]. discriminate.
Qed.

(** A delivery attempt touches neither the directory nor the clock. *)
Lemma send_frame (e : option EsConfig) (entrys : list LogEntry) (w : World) :
  let w' := snd (sendToElasticsearch e entrys w) in
  disk w' = disk w /\ dir_fault w' = dir_fault w /\ clock w' = clock w /\
  clock_reads w' = clock_reads w /\ console w' = console w /\
  flushes w' = flushes w /\ net w' = net w.
Proof.
  cbv zeta. destruct e as [cfg|]; [|now simpl].
  pose proof (sendToElasticsearch_cases cfg entrys w) as H. cbv zeta in H.
  destruct (NewRequest_error (bulk_url cfg)); [now rewrite H|].
  destruct (net w (List.length (wire w))) as [resp|err].
  - destruct (StatusCode resp =? 200)%Z; now rewrite H.
  - now rewrite H.
Qed.

(** The entries a delivery attempt leaves behind are the entries [Json]
    trimmed. *)
Lemma send_entries (cfg : EsConfig) (entrys : list LogEntry) (w : World) :
  snd (fst (sendToElasticsearch (Some cfg) entrys w)) =
  map (fun e => snd (Json e)) entrys.
Proof.
  pose proof (sendToElasticsearch_cases cfg entrys w) as H. cbv zeta in H.
  destruct (NewRequest_error (bulk_url cfg)); [now rewrite H|].
  destruct (net w (List.length (wire w))) as [resp|err].
  - destruct (StatusCode resp =? 200)%Z; now rewrite H.
  - now rewrite H.
Qed.

(** C8, as amended: [String] leaves every field of its receiver as it
    is.  [Json] leaves [AppType], [Timestamp], [Level] and [Fields] as
    they are and replaces [Message] by the message without its leading
    and trailing newlines; so it leaves the entry unchanged exactly when
    the message has no such newline, and a second call changes nothing
    more.  A delivery attempt leaves each entry of its batch as [Json]
    leaves it. *)
Theorem C8_entry_frame (entry : LogEntry) (cfg : EsConfig)
  (entrys : list LogEntry) (w : World) :
  snd (String_ entry) = entry /\
  AppType (snd (Json entry)) = AppType entry /\
  Timestamp (snd (Json entry)) = Timestamp entry /\
  Level (snd (Json entry)) = Level entry /\
  Fields (snd (Json entry)) = Fields entry /\
  Message (snd (Json entry)) = Trim (Message entry) /\
  (snd (Json entry) = entry <->
   starts_nl (Message entry) = false /\ ends_nl (Message entry) = false) /\
  snd (Json (snd (Json entry))) = snd (Json entry) /\
  snd (fst (sendToElasticsearch (Some cfg) entrys w)) =
    map (fun e => snd (Json e)) entrys.
Proof.
  rewrite send_entries, !Json_snd.
  split; [reflexivity|]. do 4 (split; [reflexivity|]).
  split; [reflexivity|]. split; [split|split; [|reflexivity]].
  - intros H. apply (f_equal Message) in H. now apply Trim_fix_iff.
  - intros H. apply Trim_fix_iff in H. rewrite H. apply set_Message_id.
  - unfold set_Message; simpl. now rewrite Trim_idem.
Qed.

(** ** The bulk codec *)










(** ** The order of [sort.Strings] *)

Lemma ascii_compare_refl (c : ascii) : Ascii.compare c c = Eq.
Proof. unfold Ascii.compare. apply N.compare_refl. Qed.

Lemma ascii_compare_lt_trans (x y z : ascii) :
  Ascii.compare x y = Lt -> Ascii.compare y z = Lt -> Ascii.compare x z = Lt.
Proof.
  unfold Ascii.compare. rewrite !N.compare_lt_iff. lia.
Qed.

Lemma leb_trans (a b c : string) :
  String.leb a b = true -> String.leb b c = true -> String.leb a c = true.
Proof.
  unfold String.leb. revert b c.
  induction a as [|x a IH]; intros [|y b] [|z c]; simpl; try congruence.
  destruct (Ascii.compare x y) eqn:Exy; try congruence;
    destruct (Ascii.compare y z) eqn:Eyz; try congruence.
  - apply Ascii.compare_eq_iff in Exy, Eyz. subst.
    rewrite ascii_compare_refl. apply IH.
  - apply Ascii.compare_eq_iff in Exy. subst. now rewrite Eyz.
  - apply Ascii.compare_eq_iff in Eyz. subst. now rewrite Exy.
  - now rewrite (ascii_compare_lt_trans _ _ _ Exy Eyz).
Qed.

Lemma str_le_trans : Transitive str_le.
Proof. intros a b c. apply leb_trans. Qed.

Lemma str_le_total : Total str_le.
Proof. intros a b. apply String.leb_total. Qed.

Lemma sort_Strings_perm (l : list string) : sort_Strings l ≡ₚ l.
Proof. apply merge_sort_Permutation. Qed.

Lemma sort_Strings_length (l : list string) :
  List.length (sort_Strings l) = List.length l.
Proof. now rewrite sort_Strings_perm. Qed.

(** [files[0]] after [sort.Strings] is an element of [files], and the
    least of them in byte order. *)
Lemma sort_Strings_head (l : list string) (m : string) :
  head (sort_Strings l) = Some m ->
  m ∈ l /\ forall x, x ∈ l -> String.leb m x = true.
Proof.
  intros H.
  pose proof (@StronglySorted_merge_sort _ str_le _ str_le_trans str_le_total l)
    as Hs.
  pose proof (sort_Strings_perm l) as Hp.
  unfold sort_Strings in *.
  destruct (merge_sort str_le l) as [|m' rest]; [discriminate|].
  injection H as ->. split.
  - rewrite <- Hp. apply list_elem_of_here.
  - intros x Hx. rewrite <- Hp in Hx.
    apply StronglySorted_inv in Hs as [_ Hall].
    apply elem_of_cons in Hx as [->|Hx].
    + destruct (String.leb_total m m); assumption.
    + rewrite Forall_forall in Hall. now apply Hall.
Qed.

(** The common prefix [FailoverDir/] of the paths Glob returns does not
    change how two of them compare. *)
Lemma compare_prefix (p a b : string) :
  String.compare (p +:+ a) (p +:+ b) = String.compare a b.
Proof.
  induction p as [|c p IH]; simpl; [reflexivity|].
  now rewrite ascii_compare_refl.
Qed.

Lemma string_compare_refl (s : string) : String.compare s s = Eq.
Proof.
  induction s as [|c s IH]; simpl; [reflexivity|].
  now rewrite ascii_compare_refl.
Qed.

(** Nor does a common suffix, between strings of one length. *)
Lemma compare_suffix (a : string) :
  forall b s, String.length a = String.length b ->
  String.compare (a +:+ s) (b +:+ s) = String.compare a b.
Proof.
  induction a as [|x a IH]; intros [|y b] s Hn; simpl in Hn;
    try discriminate Hn.
  - apply string_compare_refl.
  - injection Hn as Hn. rewrite !append_cons. simpl.
    now rewrite (IH b s Hn).
Qed.

(** ** Decimal names

    [%d] writes a positive count without padding.  Between two counts
    written with the same number of digits, byte order is numeric
    order. *)

Lemma decimal_value_of_uint_acc (d : Decimal.uint) :
  forall acc, Npos (Pos.of_uint_acc d acc) = decimal_value (Npos acc) d.
Proof.
  induction d as [|l IH|l IH|l IH|l IH|l IH|l IH|l IH|l IH|l IH|l IH];
    intros acc; simpl; [reflexivity|..]; rewrite IH; f_equal; lia.
Qed.

Lemma decimal_value_of_uint (d : Decimal.uint) :
  Pos.of_uint d = decimal_value 0 d.
Proof.
  induction d as [|l IH|l IH|l IH|l IH|l IH|l IH|l IH|l IH|l IH|l IH];
    simpl; [reflexivity|exact IH|..]; apply decimal_value_of_uint_acc.
Qed.

Lemma decimal_value_to_uint (p : positive) :
  decimal_value 0 (Pos.to_uint p) = Npos p.
Proof.
  rewrite <- decimal_value_of_uint. apply DecimalPos.Unsigned.of_to.
Qed.

Lemma decimal_value_split (d : Decimal.uint) :
  forall acc,
    decimal_value acc d = (acc * 10 ^ width d + decimal_value 0 d)%N.
Proof.
  unfold width.
  induction d as [|l IH|l IH|l IH|l IH|l IH|l IH|l IH|l IH|l IH|l IH];
    intros acc; cbn [decimal_value Decimal.nb_digits];
    [simpl; lia|..];
    rewrite Nat2N.inj_succ, N.pow_succ_r';
    (rewrite (IH (10 * acc + _)%N) || rewrite (IH (10 * acc)%N));
    (rewrite (IH (10 * 0 + _)%N) || rewrite (IH (10 * 0)%N)); lia.
Qed.

Lemma decimal_value_bound (d : Decimal.uint) :
  (decimal_value 0 d < 10 ^ width d)%N.
Proof.
  unfold width.
  induction d as [|l IH|l IH|l IH|l IH|l IH|l IH|l IH|l IH|l IH|l IH];
    cbn [decimal_value Decimal.nb_digits]; [simpl; lia|..];
    rewrite Nat2N.inj_succ, N.pow_succ_r'; rewrite decimal_value_split;
    unfold width; lia.
Qed.

(** Comparing two numbers digit by digit, in any base. *)
Lemma compare_digit (j k v1 v2 b : N) :
  (v1 < b)%N -> (v2 < b)%N ->
  N.compare (j * b + v1) (k * b + v2) =
  match N.compare j k with Eq => N.compare v1 v2 | c => c end.
Proof.
  intros H1 H2. destruct (N.compare_spec j k) as [->|Hjk|Hjk].
  - destruct (N.compare_spec v1 v2) as [->|H|H].
    + apply N.compare_refl.
    + apply N.compare_lt_iff. lia.
    + apply N.compare_gt_iff. lia.
  - apply N.compare_lt_iff. nia.
  - apply N.compare_gt_iff. nia.
Qed.

Lemma length_string_of_uint (d : Decimal.uint) :
  String.length (NilEmpty.string_of_uint d) = Decimal.nb_digits d.
Proof.
  induction d as [|l IH|l IH|l IH|l IH|l IH|l IH|l IH|l IH|l IH|l IH];
    simpl; congruence.
Qed.

(** Two numerals of one width compare, as strings, the way their values
    do. *)
Lemma string_of_uint_compare (d1 : Decimal.uint) :
  forall d2, Decimal.nb_digits d1 = Decimal.nb_digits d2 ->
  String.compare (NilEmpty.string_of_uint d1) (NilEmpty.string_of_uint d2) =
  N.compare (decimal_value 0 d1) (decimal_value 0 d2).
Proof.
  induction d1 as [|l1 IH|l1 IH|l1 IH|l1 IH|l1 IH|l1 IH|l1 IH|l1 IH|l1 IH|l1 IH];
    intros [|l2|l2|l2|l2|l2|l2|l2|l2|l2|l2] Hn; simpl in Hn;
    try discriminate Hn; try reflexivity;
    injection Hn as Hn;
    cbn [NilEmpty.string_of_uint String.compare decimal_value];
    rewrite (decimal_value_split l1), (decimal_value_split l2);
    unfold width; rewrite <- Hn;
    rewrite compare_digit
      by (try (rewrite Hn; apply decimal_value_bound);
          apply decimal_value_bound);
    rewrite <- (IH l2 Hn); reflexivity.
Qed.

(** [%d] of a positive count. *)
Lemma itoa_pos (p : positive) :
  itoa (Zpos p) = NilEmpty.string_of_uint (Pos.to_uint p).
Proof.
  unfold itoa. simpl.
  pose proof (DecimalPos.Unsigned.to_uint_nonnil p) as Hp.
  destruct (Pos.to_uint p); [contradiction|reflexivity..].
Qed.

Lemma itoa_compare (t1 t2 : Z) :
  (0 < t1)%Z -> (0 < t2)%Z ->
  String.length (itoa t1) = String.length (itoa t2) ->
  String.compare (itoa t1) (itoa t2) = Z.compare t1 t2.
Proof.
  destruct t1 as [|p|p]; try lia. destruct t2 as [|q|q]; try lia.
  intros _ _. rewrite !itoa_pos, !length_string_of_uint. intros Hn.
  rewrite (string_of_uint_compare _ _ Hn), !decimal_value_to_uint.
  reflexivity.
Qed.

(** The names of two records written at clock readings of one width
    compare the way the readings do: among such records, byte order is
    the order of creation. *)
Lemma batch_name_order (t1 t2 : Z) :
  (0 < t1)%Z -> (0 < t2)%Z ->
  String.length (itoa t1) = String.length (itoa t2) ->
  String.compare (batch_name t1) (batch_name t2) = Z.compare t1 t2.
Proof.
  intros H1 H2 Hn. unfold batch_name.
  rewrite compare_prefix, (compare_suffix _ _ _ Hn).
  now apply itoa_compare.
Qed.

(** ** The failover directory *)

Lemma names_length (d : gmap string node) : List.length (names d) = size d.
Proof. unfold names. now rewrite length_fmap, length_map_to_list. Qed.

Lemma elem_of_names (d : gmap string node) (n : string) :
  n ∈ names d <-> is_Some (d !! n).
Proof.
  unfold names. rewrite list_elem_of_fmap. split.
  - intros [[k x] [-> H]]. apply elem_of_map_to_list in H. now exists x.
  - intros [x H]. exists (n, x). split; [reflexivity|].
    now apply elem_of_map_to_list.
Qed.

Lemma names_insert_fresh (d : gmap string node) (n : string) (x : node) :
  d !! n = None -> names (<[n := x]> d) ≡ₚ n :: names d.
Proof. intros H. unfold names. now rewrite (map_to_list_insert d n x H). Qed.

Lemma names_delete (d : gmap string node) (n : string) (x : node) :
  d !! n = Some x -> n :: names (delete n d) ≡ₚ names d.
Proof.
  intros H. unfold names. now rewrite <- (map_to_list_delete d n x H).
Qed.

(** Replacing the bytes of an entry keeps the names. *)
Lemma names_insert_taken (d : gmap string node) (n : string) (x y : node) :
  d !! n = Some y -> names (<[n := x]> d) ≡ₚ names d.
Proof.
  intros H. rewrite <- (names_delete d n y H).
  rewrite <- (insert_delete_eq d n x).
  apply names_insert_fresh. apply lookup_delete_eq.
Qed.

Lemma ReadDir_len (w : World) (files : list string) :
  ReadDir w = Ok files -> len files = n_entries (disk w) /\ dir_fault w = None.
Proof.
  unfold ReadDir. destruct (dir_fault w); [discriminate|].
  intros [= <-]. split; [|reflexivity].
  unfold len, n_entries. f_equal.
  rewrite sort_Strings_length. apply names_length.
Qed.

Lemma n_records_le (d : gmap string node) : (n_records d <= n_entries d)%Z.
Proof.
  unfold n_records, n_entries, len. rewrite <- names_length.
  apply inj_le. apply length_filter.
Qed.

Lemma substring_all (b : string) : substring 0 (String.length b) b = b.
Proof. induction b as [|c b IH]; simpl; [reflexivity|]. now rewrite IH. Qed.

Lemma substring_skip (a b : string) :
  substring (String.length a) (String.length b) (a +:+ b) = b.
Proof.
  induction a as [|c a IH]; [apply substring_all|].
  rewrite append_cons. simpl. exact IH.
Qed.

Lemma HasSuffix_append (a b : string) : HasSuffix (a +:+ b) b = true.
Proof.
  unfold HasSuffix. cbv zeta. rewrite length_append.
  replace (String.length a + String.length b - String.length b)%nat
    with (String.length a) by lia.
  rewrite substring_skip, String.eqb_refl.
  rewrite andb_true_r. apply Nat.leb_le. lia.
Qed.

(** A name [batch-<count>.json] is a record's name. *)
Lemma batch_name_is_record (t : Z) : is_record (batch_name t) = true.
Proof.
  unfold is_record, batch_name.
  rewrite append_assoc. apply HasSuffix_append.
Qed.

(** The name [saveBatchToDisk] writes to is a record's name. *)
Lemma next_name_is_record (w : World) : is_record (next_name w) = true.
Proof. apply batch_name_is_record. Qed.

(** [saveBatchToDisk] either writes one file and returns nil, under the
    conditions listed, or returns an error and leaves the directory as it
    is. *)
Lemma saveBatchToDisk_cases (cfg : EsConfig) (entries : list LogEntry)
  (w : World) :
  (exists data,
     FailoverDir cfg <> EmptyString /\ dir_fault w = None /\
     (n_entries (disk w) < MaxFailoverFiles cfg)%Z /\
     json_Marshal_batch entries = Ok data /\
     disk w !! next_name w <> Some Dir /\
     saveBatchToDisk cfg entries w =
     (None, set_disk (<[next_name w := File data]> (disk w)) (snd (UnixNano w))))
  \/
  (exists err,
     saveBatchToDisk cfg entries w = (Some err, w) /\
     (FailoverDir cfg = EmptyString \/ dir_fault w <> None \/
      (MaxFailoverFiles cfg <= n_entries (disk w))%Z \/
      (exists msg, json_Marshal_batch entries = Err msg)))
  \/
  (exists err,
     saveBatchToDisk cfg entries w = (Some err, snd (UnixNano w)) /\
     FailoverDir cfg <> EmptyString /\ dir_fault w = None /\
     (n_entries (disk w) < MaxFailoverFiles cfg)%Z /\
     disk w !! next_name w = Some Dir).
Proof.
  unfold saveBatchToDisk.
  destruct (String.eqb (FailoverDir cfg) EmptyString) eqn:Ed.
  { right; left. eexists. split; [reflexivity|].
    left. now apply String.eqb_eq. }
  apply String.eqb_neq in Ed.
  destruct (ReadDir w) as [files|err] eqn:Er.
  2:{ right; left. eexists. split; [reflexivity|]. right; left.
      unfold ReadDir in Er. destruct (dir_fault w); discriminate. }
  apply ReadDir_len in Er as [-> Hf].
  destruct (MaxFailoverFiles cfg <=? n_entries (disk w))%Z eqn:Em.
  { right; left. eexists. split; [reflexivity|].
    right; right; left. now apply Z.leb_le. }
  apply Z.leb_gt in Em.
  destruct (json_Marshal_batch entries) as [data|msg] eqn:Ej.
  2:{ right; left. eexists. split; [reflexivity|].
      right; right; right. now exists msg. }
  unfold UnixNano, WriteFile. cbn [disk snd].
  fold (next_name w).
  destruct (disk w !! next_name w) as [[d|]|] eqn:El.
  - left. exists data. repeat split; try assumption; congruence.
  - right; right. eexists. split; [reflexivity|]. now repeat split.
  - left. exists data. repeat split; try assumption; congruence.
Qed.

Lemma n_records_insert_fresh (d : gmap string node) (n : string) (x : node) :
  d !! n = None -> is_record n = true ->
  n_records (<[n := x]> d) = (n_records d + 1)%Z.
Proof.
  intros Hn Hr. unfold n_records, len.
  rewrite (names_insert_fresh d n x Hn).
  rewrite filter_cons_True by exact Hr. simpl List.length. lia.
Qed.

Lemma n_entries_insert_fresh (d : gmap string node) (n : string) (x : node) :
  d !! n = None -> n_entries (<[n := x]> d) = (n_entries d + 1)%Z.
Proof.
  intros Hn. unfold n_entries. rewrite map_size_insert_None by exact Hn. lia.
Qed.

Lemma marshal_all_Forall2 (entries : list LogEntry) (docs : list string) :
  marshal_all entries = Ok docs ->
  Forall2 (fun e doc => json_Marshal e = Ok doc) entries docs.
Proof.
  revert docs. induction entries as [|e rest IH]; simpl; intros docs H.
  - injection H as <-. constructor.
  - destruct (json_Marshal e) as [doc|] eqn:Ee; [|discriminate].
    destruct (marshal_all rest) as [ds|]; [|discriminate].
    injection H as <-. constructor; [exact Ee|now apply IH].
Qed.

(** What a record holds: the JSON array of the batch's documents, in the
    order of the batch. *)
Lemma json_Marshal_batch_array (entries : list LogEntry) (data : string) :
  entries <> [] -> json_Marshal_batch entries = Ok data ->
  exists docs,
    Forall2 (fun e doc => json_Marshal e = Ok doc) entries docs /\
    data = "[" +:+ String.concat "," docs +:+ "]".
Proof.
  intros Hne H. unfold json_Marshal_batch in H.
  destruct entries as [|e rest]; [congruence|].
  destruct (marshal_all (e :: rest)) as [docs|] eqn:Em; [|discriminate].
  injection H as <-. exists docs. split; [|reflexivity].
  now apply marshal_all_Forall2.
Qed.

(** C2, as amended.  When the failover directory already holds at least
    [MaxFailoverFiles] records, [saveBatchToDisk] returns an error,
    creates no record and leaves the world as it is: the newest batch is
    the one dropped.  When the directory can be listed and holds strictly
    fewer than [MaxFailoverFiles] entries of any kind, the batch can be
    marshalled and the name derived from the clock is free, exactly one
    record is created: it holds the JSON array of the batch's documents
    in their order, and every other entry is untouched. *)
Theorem C2_failover_store_bound (cfg : EsConfig) (entries : list LogEntry)
  (w : World) :
  ((MaxFailoverFiles cfg <= n_records (disk w))%Z ->
   exists err, saveBatchToDisk cfg entries w = (Some err, w)) /\
  (forall data,
     FailoverDir cfg <> EmptyString -> dir_fault w = None ->
     (n_entries (disk w) < MaxFailoverFiles cfg)%Z ->
     json_Marshal_batch entries = Ok data ->
     disk w !! next_name w = None ->
     let r := saveBatchToDisk cfg entries w in
     fst r = None /\
     disk (snd r) = <[next_name w := File data]> (disk w) /\
     is_record (next_name w) = true /\
     n_records (disk (snd r)) = (n_records (disk w) + 1)%Z /\
     n_entries (disk (snd r)) = (n_entries (disk w) + 1)%Z /\
     (forall n, n <> next_name w -> disk (snd r) !! n = disk w !! n) /\
     (entries <> [] ->
      exists docs,
        Forall2 (fun e doc => json_Marshal e = Ok doc) entries docs /\
        data = "[" +:+ String.concat "," docs +:+ "]")).
Proof.
  pose proof (n_records_le (disk w)) as Hle.
  destruct (saveBatchToDisk_cases cfg entries w)
    as [(data & Hd & Hf & Hn & Hj & Hl & Hs)
       |[(err & Hs & Hc)|(err & Hs & Hd & Hf & Hn & Hl)]].
  - split; [intros Hmax; lia|].
    intros data' _ _ _ Hj' Hfree. cbv zeta. rewrite Hs.
    assert (data' = data) as -> by congruence.
    cbn [fst snd set_disk disk].
    split; [reflexivity|]. split; [reflexivity|].
    split; [apply next_name_is_record|].
    split; [apply n_records_insert_fresh;
            [exact Hfree|apply next_name_is_record]|].
    split; [now apply n_entries_insert_fresh|].
    split; [intros n Hne; now rewrite lookup_insert_ne|].
    intros Hne. now apply json_Marshal_batch_array.
  - split; [intros _; now exists err|].
    intros data Hd Hf Hn Hj Hfree. exfalso.
    destruct Hc as [Hc|[Hc|[Hc|[msg Hc]]]]; [congruence|congruence|lia|congruence].
  - split; [intros Hmax; lia|].
    intros data _ _ _ _ Hfree. congruence.
Qed.

(** ** The retry scan *)

Lemma elem_of_Glob (w : World) (n : string) :
  n ∈ Glob w <->
  dir_fault w = None /\ is_record n = true /\ is_Some (disk w !! n).
Proof.
  unfold Glob. destruct (dir_fault w) as [msg|].
  - split; [intros H; now apply elem_of_nil in H|intros [H _]; discriminate].
  - fold (names (disk w)). rewrite list_elem_of_filter, elem_of_names.
    unfold is_record. split.
    + intros [H1 H2]. split; [reflexivity|]. now split.
    + intros (_ & H1 & H2). now split.
Qed.

(** The record a cycle works on is a [*.json] entry of the directory, and
    the least of them in byte order. *)
Lemma selected_least (w : World) (file : string) :
  selected w = Some file ->
  dir_fault w = None /\ is_record file = true /\ is_Some (disk w !! file) /\
  forall n, is_Some (disk w !! n) -> is_record n = true ->
            String.leb file n = true.
Proof.
  unfold selected. intros H. apply sort_Strings_head in H as [Hin Hmin].
  pose proof Hin as Hin'. apply elem_of_Glob in Hin' as (Hf & Hr & Hs).
  repeat split; try assumption.
  intros n Hn Hrn. apply Hmin. apply elem_of_Glob. now repeat split.
Qed.

(** Among records named at clock readings of one width, the cycle works
    on the oldest: a record selected is no younger than any other at
    rest. *)
Lemma selected_oldest_same_width (w : World) (t1 t2 : Z) :
  (0 < t1)%Z -> (0 < t2)%Z ->
  String.length (itoa t1) = String.length (itoa t2) ->
  selected w = Some (batch_name t1) ->
  is_Some (disk w !! batch_name t2) ->
  (t1 <= t2)%Z.
Proof.
  intros H1 H2 Hn Hsel Hin.
  apply selected_least in Hsel as (_ & _ & _ & Hmin).
  specialize (Hmin _ Hin (batch_name_is_record t2)).
  unfold String.leb in Hmin. rewrite (batch_name_order _ _ H1 H2 Hn) in Hmin.
  destruct (Z.compare_spec t1 t2); [lia|lia|discriminate].
Qed.

(** A cycle finds nothing to work on exactly when no [*.json] entry is
    visible. *)
Lemma selected_None (w : World) : selected w = None <-> Glob w = [].
Proof.
  unfold selected. pose proof (sort_Strings_perm (Glob w)) as Hp.
  destruct (sort_Strings (Glob w)) as [|x l] eqn:E; simpl.
  - split; [intros _|reflexivity]. symmetry in Hp.
    now apply Permutation_nil_r in Hp.
  - split; [discriminate|]. intros H. rewrite H in Hp.
    apply Permutation_nil_r in Hp. discriminate.
Qed.

(** [processFailoverFiles] along its branches: what it returns, and what it
    leaves of the directory and on the wire. *)
Lemma processFailoverFiles_cases (cfg : EsConfig) (w : World) :
  FailoverDir cfg <> EmptyString ->
  let r := processFailoverFiles cfg w in
  match selected w with
  | None => r = (false, w)
  | Some file =>
      match disk w !! file with
      | Some (File data) =>
          match json_Unmarshal data with
          | Err _ =>
              fst r = false /\ disk (snd r) = delete file (disk w) /\
              wire (snd r) = wire w
          | Ok entries =>
              (delivers cfg w ->
               fst r = true /\ disk (snd r) = delete file (disk w)) /\
              (~ delivers cfg w -> fst r = false /\ disk (snd r) = disk w) /\
              (NewRequest_error (bulk_url cfg) = None ->
               wire (snd r) =
               (wire w ++
                [bulk_request cfg
                   (gzip (fst (bulk_body (ES_INDEX_NAME cfg) entries)))])%list) /\
              (NewRequest_error (bulk_url cfg) <> None -> wire (snd r) = wire w)
          end
      | _ => fst r = false /\ disk (snd r) = disk w /\ wire (snd r) = wire w
      end
  end.
Proof.
  intros Hd. cbv zeta. unfold processFailoverFiles, selected.
  apply String.eqb_neq in Hd. rewrite Hd.
  destruct (sort_Strings (Glob w)) as [|file rest]; [reflexivity|].
  cbn [head]. unfold ReadFile.
  destruct (disk w !! file) as [[data|]|] eqn:El; [|now simpl|now simpl].
  destruct (json_Unmarshal data) as [entries|err].
  2:{ cbn [fst snd Remove set_disk disk wire Println]. unfold fs_Remove.
      now rewrite El. }
  set (w1 := Println _ w).
  pose proof (send_ok_iff cfg entries w1) as Hok.
  pose proof (send_frame (Some cfg) entries w1) as Hfr. cbv zeta in Hfr.
  destruct Hfr as (Hdisk & _).
  assert (Hwire : NewRequest_error (bulk_url cfg) = None ->
            wire (snd (sendToElasticsearch (Some cfg) entries w1)) =
            (wire w ++ [bulk_request cfg
               (gzip (fst (bulk_body (ES_INDEX_NAME cfg) entries)))])%list).
  { intros Hn. now rewrite (send_wire cfg entries w1 Hn). }
  assert (Hwire' : NewRequest_error (bulk_url cfg) <> None ->
            wire (snd (sendToElasticsearch (Some cfg) entries w1)) = wire w).
  { intros Hn. pose proof (sendToElasticsearch_cases cfg entries w1) as H.
    cbv zeta in H. destruct (NewRequest_error (bulk_url cfg)); [|congruence].
    now rewrite H. }
  change (delivers cfg w1) with (delivers cfg w) in Hok.
  change (disk w1) with (disk w) in Hdisk.
  destruct (sendToElasticsearch (Some cfg) entries w1) as [[err es'] w2].
  cbn [fst snd] in *.
  destruct err as [err|].
  - cbn [fst snd Println disk wire].
    split; [intros Hdel; apply Hok in Hdel; discriminate|].
    split; [intros _; now split|]. split; assumption.
  - cbn [fst snd Remove set_disk Println disk wire]. unfold fs_Remove.
    rewrite Hdisk, El.
    split; [intros _; now split|].
    split; [intros Hnd; exfalso; apply Hnd; now apply Hok|].
    split; assumption.
Qed.

Lemma delivers_dec (cfg : EsConfig) (w : World) :
  delivers cfg w \/ ~ delivers cfg w.
Proof.
  unfold delivers.
  destruct (NewRequest_error (bulk_url cfg)) as [err|];
    [right; intros [H _]; discriminate|].
  destruct (net w (List.length (wire w))) as [resp|err].
  - destruct (Z.eq_dec (StatusCode resp) 200%Z) as [He|Hne].
    + left. split; [reflexivity|]. now exists resp.
    + right. intros [_ (resp' & [= <-] & He)]. contradiction.
  - right. intros [_ (resp' & H & _)]. discriminate.
Qed.

(** A cycle never rewrites an entry: each one is as it was, or gone. *)
Lemma processFailoverFiles_no_rewrite (cfg : EsConfig) (w : World) (n : string) :
  let r := processFailoverFiles cfg w in
  disk (snd r) !! n = disk w !! n \/
  (selected w = Some n /\ disk (snd r) !! n = None).
Proof.
  cbv zeta.
  destruct (String.eqb (FailoverDir cfg) EmptyString) eqn:Ed.
  { unfold processFailoverFiles. rewrite Ed. now left. }
  apply String.eqb_neq in Ed.
  pose proof (processFailoverFiles_cases cfg w Ed) as H. cbv zeta in H.
  destruct (selected w) as [file|]; [|rewrite H; now left].
  assert (Hdel : disk (snd (processFailoverFiles cfg w)) = delete file (disk w) ->
    disk (snd (processFailoverFiles cfg w)) !! n = disk w !! n \/
    (Some file = Some n /\ disk (snd (processFailoverFiles cfg w)) !! n = None)).
  { intros ->. destruct (decide (file = n)) as [->|Hne].
    - right. split; [reflexivity|apply lookup_delete_eq].
    - left. now apply lookup_delete_ne. }
  destruct (disk w !! file) as [[data|]|].
  - destruct (json_Unmarshal data) as [entries|err].
    + destruct H as (H1 & H2 & _).
      destruct (delivers_dec cfg w) as [Hy|Hn].
      * apply Hdel. now apply H1.
      * left. destruct (H2 Hn) as [_ ->]. reflexivity.
    + apply Hdel. now destruct H as (_ & -> & _).
  - left. now destruct H as (_ & -> & _).
  - left. now destruct H as (_ & -> & _).
Qed.

(** C5: in a retry cycle, the selected record file is deleted exactly
    when its batch was delivered or its bytes could not be unmarshalled.
    A corrupt record is deleted without any request being sent.  When
    the delivery fails the directory is left exactly as it was, and so it
    is when the selected entry cannot be read.  No entry is ever
    rewritten: every other entry is untouched, and the selected one is
    either gone or what it was. *)
Theorem C5_record_disposition (cfg : EsConfig) (w : World) (file : string) :
  FailoverDir cfg <> EmptyString ->
  selected w = Some file ->
  let r := processFailoverFiles cfg w in
  (disk (snd r) !! file = None <->
   exists data,
     disk w !! file = Some (File data) /\
     ((exists entries, json_Unmarshal data = Ok entries /\ delivers cfg w) \/
      (exists err, json_Unmarshal data = Err err))) /\
  (forall data err,
     disk w !! file = Some (File data) -> json_Unmarshal data = Err err ->
     wire (snd r) = wire w /\ fst r = false) /\
  (forall data entries,
     disk w !! file = Some (File data) -> json_Unmarshal data = Ok entries ->
     (delivers cfg w -> fst r = true) /\
     (~ delivers cfg w -> disk (snd r) = disk w /\ fst r = false)) /\
  (disk w !! file = Some Dir ->
   disk (snd r) = disk w /\ wire (snd r) = wire w /\ fst r = false) /\
  (forall n, n <> file -> disk (snd r) !! n = disk w !! n) /\
  (disk (snd r) !! file = None \/ disk (snd r) !! file = disk w !! file).
Proof.
  intros Hd Hsel. cbv zeta.
  pose proof (processFailoverFiles_cases cfg w Hd) as H. cbv zeta in H.
  rewrite Hsel in H.
  assert (Hothers : forall n, n <> file ->
            disk (snd (processFailoverFiles cfg w)) !! n = disk w !! n).
  { intros n Hne.
    destruct (processFailoverFiles_no_rewrite cfg w n) as [Hk|[Hs _]];
      [exact Hk|congruence]. }
  pose proof (selected_least w file Hsel) as (_ & _ & [x Hx] & _).
  destruct (disk w !! file) as [[data|]|] eqn:Hl; [| |discriminate].
  - destruct (json_Unmarshal data) as [entries|err] eqn:Hu.
    + destruct H as (H1 & H2 & _).
      destruct (delivers_dec cfg w) as [Hy|Hn].
      * destruct (H1 Hy) as [Hr Hdisk]. rewrite Hdisk.
        split; [|split; [|split; [|split; [|split]]]].
        -- split; [|intros _; apply lookup_delete_eq].
           intros _. exists data. split; [reflexivity|]. left. now exists entries.
        -- intros data' err [= <-] He. congruence.
        -- intros data' entries' [= <-] _. split; [intros _; exact Hr|].
           intros Hnd. contradiction.
        -- discriminate.
        -- rewrite <- Hdisk. exact Hothers.
        -- left. apply lookup_delete_eq.
      * destruct (H2 Hn) as [Hr Hdisk]. rewrite Hdisk.
        split; [|split; [|split; [|split; [|split]]]].
        -- split; [intros Hnone; congruence|].
           intros (data' & [= <-] & [(es & _ & Hy)|(err & He)]);
             [contradiction|congruence].
        -- intros data' err [= <-] He. congruence.
        -- intros data' entries' [= <-] _. split; [intros Hy; contradiction|].
           intros _. now split.
        -- discriminate.
        -- intros n _. reflexivity.
        -- right. exact Hl.
    + destruct H as (Hr & Hdisk & Hwire). rewrite Hdisk.
      split; [|split; [|split; [|split; [|split]]]].
      * split; [|intros _; apply lookup_delete_eq].
        intros _. exists data. split; [reflexivity|]. right. now exists err.
      * intros data' err' [= <-] _. now split.
      * intros data' entries' [= <-] He. congruence.
      * discriminate.
      * rewrite <- Hdisk. exact Hothers.
      * left. apply lookup_delete_eq.
  - destruct H as (Hr & Hdisk & Hwire). rewrite Hdisk.
    split; [|split; [|split; [|split; [|split]]]].
    + split; [intros Hnone; congruence|].
      intros (data' & Hf & _). congruence.
    + intros data' err Hf. congruence.
    + intros data' entries' Hf. congruence.
    + intros _. now repeat split.
    + intros n _. reflexivity.
    + right. exact Hl.
Qed.

(** ** Flushing: [sendOrSave] *)

Lemma save_outcome (cfg : EsConfig) (batch : list LogEntry) (w : World) :
  (exists data,
     can_save cfg batch w data /\
     fst (saveBatchToDisk cfg batch w) = None /\
     disk (snd (saveBatchToDisk cfg batch w)) =
       <[next_name w := File data]> (disk w) /\
     console (snd (saveBatchToDisk cfg batch w)) = console w) \/
  (exists err,
     cannot_save cfg batch w /\
     fst (saveBatchToDisk cfg batch w) = Some err /\
     disk (snd (saveBatchToDisk cfg batch w)) = disk w /\
     console (snd (saveBatchToDisk cfg batch w)) = console w).
Proof.
  unfold can_save, cannot_save.
  destruct (saveBatchToDisk_cases cfg batch w)
    as [(data & Hd & Hf & Hn & Hj & Hl & Hs)
       |[(err & Hs & Hc)|(err & Hs & Hd & Hf & Hn & Hl)]]; rewrite Hs.
  - left. exists data. now repeat split.
  - right. exists err. repeat split; try reflexivity.
    destruct Hc as [H|[H|[H|H]]];
      [left|right; left|right; right; left|right; right; right; left];
      exact H.
  - right. exists err. repeat split; try reflexivity.
    right; right; right; right. exact Hl.
Qed.

Lemma can_cannot_save (cfg : EsConfig) (batch : list LogEntry) (w : World)
  (data : string) :
  can_save cfg batch w data -> cannot_save cfg batch w -> False.
Proof.
  unfold can_save, cannot_save.
  intros (Hd & Hf & Hn & Hj & Hl) [H|[H|[H|[[msg H]|H]]]];
    [congruence|congruence|lia|congruence|congruence].
Qed.

Lemma save_frame (cfg : EsConfig) (batch : list LogEntry) (w : World) :
  let w' := snd (saveBatchToDisk cfg batch w) in
  dir_fault w' = dir_fault w /\ net w' = net w /\ wire w' = wire w /\
  console w' = console w /\ flushes w' = flushes w.
Proof.
  cbv zeta.
  destruct (saveBatchToDisk_cases cfg batch w)
    as [(data & _ & _ & _ & _ & _ & Hs)|[(err & Hs & _)|(err & Hs & _)]];
    rewrite Hs; now repeat split.
Qed.

(** The conditions only read the directory and the clock. *)
Lemma can_save_ext (cfg : EsConfig) (batch : list LogEntry) (w w' : World)
  (data : string) :
  disk w' = disk w -> dir_fault w' = dir_fault w -> clock w' = clock w ->
  clock_reads w' = clock_reads w ->
  can_save cfg batch w' data -> can_save cfg batch w data.
Proof.
  unfold can_save, next_name. intros -> -> -> -> H. exact H.
Qed.

Lemma cannot_save_ext (cfg : EsConfig) (batch : list LogEntry) (w w' : World) :
  disk w' = disk w -> dir_fault w' = dir_fault w -> clock w' = clock w ->
  clock_reads w' = clock_reads w ->
  cannot_save cfg batch w' -> cannot_save cfg batch w.
Proof.
  unfold cannot_save, next_name. intros -> -> -> -> H. exact H.
Qed.

(** [sendOrSave] along its branches. *)
Lemma sendOrSave_cases (cfg : EsConfig) (entries : list LogEntry) (w : World) :
  let batch := map (fun e => snd (Json e)) entries in
  let w' := sendOrSave cfg entries w in
  flushes w' = (flushes w ++ [entries])%list /\
  dir_fault w' = dir_fault w /\ net w' = net w /\
  (delivers cfg w -> disk w' = disk w /\ console w' = console w) /\
  (~ delivers cfg w ->
   exists err,
     fst (fst (sendToElasticsearch (Some cfg) entries (record_flush entries w)))
       = Some err /\
     ((exists data,
         can_save cfg batch w data /\
         disk w' = <[next_name w := File data]> (disk w) /\
         console w' =
           (console w ++
            ["error sending log entries to Elasticsearch, saving to disk for retry: "
               +:+ err;
             "successfully saved failed batch to disk"])%list) \/
      (exists err2,
         cannot_save cfg batch w /\
         disk w' = disk w /\
         console w' =
           (console w ++
            ["error sending log entries to Elasticsearch, saving to disk for retry: "
               +:+ err;
             "CRITICAL: Failed to save batch to disk: " +:+ err2])%list))).
Proof.
  cbv zeta. unfold sendOrSave.
  pose proof (send_ok_iff cfg entries (record_flush entries w)) as Hok.
  pose proof (send_frame (Some cfg) entries (record_flush entries w)) as Hfr.
  pose proof (send_entries cfg entries (record_flush entries w)) as Hes.
  cbv zeta in Hfr.
  change (delivers cfg (record_flush entries w)) with (delivers cfg w) in Hok.
  destruct (sendToElasticsearch (Some cfg) entries (record_flush entries w))
    as [[err es'] w1].
  cbn [fst snd record_flush disk dir_fault clock clock_reads console flushes net]
    in Hok, Hfr, Hes.
  destruct Hfr as (Hdisk & Hfault & Hclock & Hreads & Hcons & Hfl & Hnet).
  subst es'. destruct err as [err|].
  2:{ cbn [fst]. repeat split; try assumption.
      intros Hnd. exfalso. apply Hnd. now apply Hok. }
  set (w2 := Println _ w1).
  assert (E1 : disk w2 = disk w) by exact Hdisk.
  assert (E2 : dir_fault w2 = dir_fault w) by exact Hfault.
  assert (E3 : clock w2 = clock w) by exact Hclock.
  assert (E4 : clock_reads w2 = clock_reads w) by exact Hreads.
  assert (E5 : next_name w2 = next_name w).
  { unfold next_name. now rewrite E3, E4. }
  pose proof (save_frame cfg (map (fun e => snd (Json e)) entries) w2) as Hsf.
  cbv zeta in Hsf. destruct Hsf as (Sf & Sn & Sw & Sc & Sfl).
  destruct (save_outcome cfg (map (fun e => snd (Json e)) entries) w2)
    as [(data & Hcan & Hr & Hd & _)|(err2 & Hcannot & Hr & Hd & _)];
    destruct (saveBatchToDisk cfg (map (fun e => snd (Json e)) entries) w2)
      as [r w3]; cbn [fst snd] in *; subst r;
    cbn [Println flushes dir_fault net disk console].
  - rewrite Sfl, Sf, Sn, Hd, Sc, E5, E1.
    split; [exact Hfl|]. split; [exact Hfault|]. split; [exact Hnet|].
    split; [intros Hy; apply Hok in Hy; discriminate|].
    intros _. exists err. split; [reflexivity|]. left. exists data.
    split; [now apply (can_save_ext cfg _ w w2)|]. split; [reflexivity|].
    unfold w2. cbn [Println console]. rewrite Hcons.
    now rewrite <- app_assoc.
  - rewrite Sfl, Sf, Sn, Hd, Sc, E1.
    split; [exact Hfl|]. split; [exact Hfault|]. split; [exact Hnet|].
    split; [intros Hy; apply Hok in Hy; discriminate|].
    intros _. exists err. split; [reflexivity|]. right. exists err2.
    split; [now apply (cannot_save_ext cfg _ w w2)|]. split; [reflexivity|].
    unfold w2. cbn [Println console]. rewrite Hcons.
    now rewrite <- app_assoc.
Qed.

(** A retry cycle reads the environment; it changes neither the fault of
    the directory nor the network's script. *)
Lemma processFailoverFiles_frame (cfg : EsConfig) (w : World) :
  let w' := snd (processFailoverFiles cfg w) in
  dir_fault w' = dir_fault w /\ net w' = net w /\ flushes w' = flushes w /\
  clock w' = clock w /\ clock_reads w' = clock_reads w.
Proof.
  cbv zeta. unfold processFailoverFiles.
  destruct (String.eqb (FailoverDir cfg) EmptyString); [now repeat split|].
  destruct (sort_Strings (Glob w)) as [|file rest]; [now repeat split|].
  destruct (ReadFile file w) as [data|err]; [|now repeat split].
  destruct (json_Unmarshal data) as [entries|err]; [|now repeat split].
  set (w1 := Println _ w).
  pose proof (send_frame (Some cfg) entries w1) as Hfr. cbv zeta in Hfr.
  destruct (sendToElasticsearch (Some cfg) entries w1) as [[err es'] w2].
  cbn [snd] in Hfr. destruct Hfr as (_ & Hf & Hc & Hr & _ & Hfl & Hn).
  destruct err; cbn [snd Remove set_disk Println dir_fault net flushes
                     clock clock_reads]; now repeat split.
Qed.

(** ** The worker *)

Lemma sendOrSave_flushes (cfg : EsConfig) (batch : list LogEntry) (w : World) :
  flushes (sendOrSave cfg batch w) = (flushes w ++ [batch])%list.
Proof.
  pose proof (sendOrSave_cases cfg batch w) as H. cbv zeta in H. apply H.
Qed.

Lemma len_pos_iff {A : Type} (l : list A) : (0 <? len l)%Z = true <-> l <> [].
Proof.
  unfold len. destruct l; simpl; split; try congruence; try discriminate.
  - intros _. reflexivity.
Qed.

Lemma app_one_ne {A : Type} (l : list A) (x : A) : (l ++ [x])%list <> l.
Proof.
  intros H. apply (f_equal (@List.length A)) in H.
  rewrite length_app in H. simpl in H. lia.
Qed.

(** C3, as amended.  One [select] calls [sendOrSave] at most once, and it
    does so exactly when the batch reaches [EntriesToHold] with the entry
    just received, or the ticker fires while the batch is non-empty, or
    the channel is found closed while the batch is non-empty.  What is
    flushed is the whole accumulated batch.  After a size-triggered flush
    the batch is empty and the ticker has been reset to [TimeToHold]; after
    a time-triggered flush the batch is empty and the ticker is left
    alone; after the closing flush the worker returns.  Without a
    trigger nothing is flushed, the ticker is left alone and the batch
    only grows by the entry received. *)
Theorem C3_batching_triggers (cfg : EsConfig) (ev : event) (h : Handler) :
  let h' := select_case cfg ev h in
  ((exists batch, flushed cfg ev h batch) <->
   size_trigger cfg ev h \/ time_trigger ev h \/ close_trigger ev h) /\
  (forall entry,
     ev = Recv entry ->
     (EntriesToHold cfg <= len (entries h ++ [entry]))%Z ->
     flushed cfg ev h (entries h ++ [entry]) /\ entries h' = [] /\
     ticker h' = Ticker_Reset (TimeToHold cfg) (ticker h) /\
     state h' = state h) /\
  (time_trigger ev h ->
   flushed cfg ev h (entries h) /\ entries h' = [] /\
   ticker h' = ticker h /\ state h' = state h) /\
  (close_trigger ev h ->
   flushed cfg ev h (entries h) /\ state h' = Returned) /\
  (~ (size_trigger cfg ev h \/ time_trigger ev h \/ close_trigger ev h) ->
   world h' = world h /\ ticker h' = ticker h /\
   entries h' =
     match ev with
     | Recv entry => (entries h ++ [entry])%list
     | _ => entries h
     end).
Proof.
  cbv zeta. unfold flushed, size_trigger, time_trigger, close_trigger.
  destruct ev as [entry| |]; cbn [select_case].
  - destruct (EntriesToHold cfg <=? len (entries h ++ [entry]))%Z eqn:E.
    + apply Z.leb_le in E. cbn [world entries ticker state].
      rewrite sendOrSave_flushes.
      split; [|split; [|split; [|split]]].
      * split; [intros _; left; now exists entry|intros _; eauto].
      * intros entry' [= <-] _. now repeat split.
      * intros [H _]. discriminate.
      * intros [H _]. discriminate.
      * intros Hn. exfalso. apply Hn. left. now exists entry.
    + apply Z.leb_gt in E. cbn [world entries ticker state].
      split; [|split; [|split; [|split]]].
      * split.
        -- intros [batch Hb]. symmetry in Hb. now apply app_one_ne in Hb.
        -- intros [(entry' & [= <-] & Hle)|[[H _]|[H _]]];
             [lia|discriminate|discriminate].
      * intros entry' [= <-] Hle. lia.
      * intros [H _]. discriminate.
      * intros [H _]. discriminate.
      * intros _. now repeat split.
  - destruct (0 <? len (entries h))%Z eqn:E; cbn [world entries ticker state].
    + apply len_pos_iff in E. rewrite sendOrSave_flushes.
      split; [|split; [|split; [|split]]].
      * split; [intros _; right; right; now split|intros _; eauto].
      * intros entry' H. discriminate.
      * intros [H _]. discriminate.
      * intros _. now split.
      * intros Hn. exfalso. apply Hn. right; right. now split.
    + assert (Hnil : ~ entries h <> []).
      { intros Hne. apply len_pos_iff in Hne. congruence. }
      split; [|split; [|split; [|split]]].
      * split.
        -- intros [batch Hb]. symmetry in Hb. now apply app_one_ne in Hb.
        -- intros [(entry' & H & _)|[[H _]|[_ H]]];
             [discriminate|discriminate|contradiction].
      * intros entry' H. discriminate.
      * intros [H _]. discriminate.
      * intros [_ H]. contradiction.
      * intros _. now repeat split.
  - destruct (0 <? len (entries h))%Z eqn:E; cbn [world entries ticker state].
    + apply len_pos_iff in E. rewrite sendOrSave_flushes.
      split; [|split; [|split; [|split]]].
      * split; [intros _; right; left; now split|intros _; eauto].
      * intros entry' H. discriminate.
      * intros _. now repeat split.
      * intros [H _]. discriminate.
      * intros Hn. exfalso. apply Hn. right; left. now split.
    + assert (Hnil : ~ entries h <> []).
      { intros Hne. apply len_pos_iff in Hne. congruence. }
      split; [|split; [|split; [|split]]].
      * split.
        -- intros [batch Hb]. symmetry in Hb. now apply app_one_ne in Hb.
        -- intros [(entry' & H & _)|[[_ H]|[H _]]];
             [discriminate|contradiction|discriminate].
      * intros entry' H. discriminate.
      * intros [_ H]. contradiction.
      * intros [H _]. discriminate.
      * intros _. now repeat split.
Qed.

(** *** How many records the scan can see *)

Lemma Glob_ext (w w' : World) :
  disk w' = disk w -> dir_fault w' = dir_fault w -> Glob w' = Glob w.
Proof. unfold Glob. now intros -> ->. Qed.

Lemma count_delete (d : gmap string node) (n : string) (x : node) :
  d !! n = Some x ->
  (List.length (filter (fun k => is_record k = true) (names (delete n d))) +
   (if is_record n then 1 else 0))%nat =
  List.length (filter (fun k => is_record k = true) (names d)).
Proof.
  intros H. rewrite <- (names_delete d n x H).
  destruct (is_record n) eqn:E.
  - rewrite filter_cons_True by exact E. simpl. lia.
  - rewrite filter_cons_False by congruence. lia.
Qed.

Lemma count_insert (d : gmap string node) (n : string) (x : node) :
  (List.length (filter (fun k => is_record k = true) (names (<[n := x]> d))) <=
   List.length (filter (fun k => is_record k = true) (names d)) + 1)%nat.
Proof.
  destruct (d !! n) as [y|] eqn:E.
  - rewrite (names_insert_taken d n x y E). lia.
  - rewrite (names_insert_fresh d n x E).
    destruct (is_record n) eqn:Er.
    + rewrite filter_cons_True by exact Er. simpl. lia.
    + rewrite filter_cons_False by congruence. lia.
Qed.

(** What a cycle does to the directory: nothing, or it deletes the
    selected record; a cycle that returns [true] did delete it. *)
Lemma processFailoverFiles_disk (cfg : EsConfig) (w : World) :
  let r := processFailoverFiles cfg w in
  (fst r = false /\ disk (snd r) = disk w) \/
  (exists file data,
     selected w = Some file /\ disk w !! file = Some (File data) /\
     disk (snd r) = delete file (disk w)).
Proof.
  cbv zeta.
  destruct (String.eqb (FailoverDir cfg) EmptyString) eqn:Ed.
  { unfold processFailoverFiles. rewrite Ed. now left. }
  apply String.eqb_neq in Ed.
  pose proof (processFailoverFiles_cases cfg w Ed) as H. cbv zeta in H.
  destruct (selected w) as [file|] eqn:Es; [|rewrite H; now left].
  destruct (disk w !! file) as [[data|]|] eqn:El.
  - destruct (json_Unmarshal data) as [entries|err].
    + destruct H as (H1 & H2 & _).
      destruct (delivers_dec cfg w) as [Hy|Hn].
      * right. exists file, data. now destruct (H1 Hy).
      * left. now apply H2.
    + right. exists file, data. now destruct H as (_ & -> & _).
  - left. now destruct H as (-> & -> & _).
  - left. now destruct H as (-> & -> & _).
Qed.

Lemma processFailoverFiles_count (cfg : EsConfig) (w : World) :
  let r := processFailoverFiles cfg w in
  (glob_count (snd r) <= glob_count w)%nat /\
  (fst r = true -> (glob_count (snd r) < glob_count w)%nat).
Proof.
  cbv zeta.
  pose proof (processFailoverFiles_frame cfg w) as Hf. cbv zeta in Hf.
  destruct Hf as (Hf & _).
  destruct (processFailoverFiles_disk cfg w)
    as [[Hr Hd]|(file & data & Hs & Hl & Hd)].
  - unfold glob_count. rewrite (Glob_ext _ _ Hd Hf). split; [lia|congruence].
  - apply selected_least in Hs as (Hnf & Hrec & _).
    pose proof (count_delete (disk w) file _ Hl) as Hc. rewrite Hrec in Hc.
    unfold glob_count, Glob. rewrite Hf, Hd, Hnf.
    fold (names (delete file (disk w))). fold (names (disk w)).
    unfold is_record in Hc. split; [lia|intros _; lia].
Qed.

(** A flush adds at most one record. *)
Lemma sendOrSave_count (cfg : EsConfig) (batch : list LogEntry) (w : World) :
  (glob_count (sendOrSave cfg batch w) <= glob_count w + 1)%nat.
Proof.
  pose proof (sendOrSave_cases cfg batch w) as H. cbv zeta in H.
  destruct H as (_ & Hf & _ & Hy & Hn).
  destruct (delivers_dec cfg w) as [Hd|Hd].
  - destruct (Hy Hd) as [Hdisk _]. unfold glob_count.
    rewrite (Glob_ext _ _ Hdisk Hf). lia.
  - destruct (Hn Hd) as (err & _ & [(data & _ & Hdisk & _)|(err2 & _ & Hdisk & _)]).
    + unfold glob_count, Glob. rewrite Hf, Hdisk.
      destruct (dir_fault w); [simpl; lia|].
      fold (names (<[next_name w := File data]> (disk w))).
      fold (names (disk w)).
      pose proof (count_insert (disk w) (next_name w) (File data)) as Hc.
      unfold is_record in Hc. lia.
    + unfold glob_count. rewrite (Glob_ext _ _ Hdisk Hf). lia.
Qed.

Lemma select_case_count (cfg : EsConfig) (ev : event) (h : Handler) :
  (glob_count (world (select_case cfg ev h)) <= glob_count (world h) + 1)%nat.
Proof.
  pose proof (sendOrSave_count cfg) as Hs.
  destruct ev as [entry| |]; cbn [select_case].
  - destruct (EntriesToHold cfg <=? _)%Z; cbn [world]; [apply Hs|lia].
  - cbn [world]. destruct (0 <? _)%Z; [apply Hs|lia].
  - destruct (0 <? _)%Z; cbn [world]; [apply Hs|lia].
Qed.

Lemma select_case_running (cfg : EsConfig) (ev : event) (h : Handler) :
  ev <> Closed -> state h = Running -> state (select_case cfg ev h) = Running.
Proof.
  intros Hev Hst. destruct ev as [entry| |]; cbn [select_case];
    [|congruence|].
  - now destruct (EntriesToHold cfg <=? _)%Z.
  - now destruct (0 <? _)%Z.
Qed.

(** Whatever the network and the disk do, the loop goes through every
    event short of the closing of the channel, and the worker is still
    running afterwards. *)
Lemma loop_runs (cfg : EsConfig) (fuel : nat) :
  forall (evs : list event) (h : Handler),
    Closed ∉ evs -> state h = Running ->
    (2 * List.length evs + glob_count (world h) < fuel)%nat ->
    snd (loop cfg fuel evs h) = [] /\
    state (fst (loop cfg fuel evs h)) = Running.
Proof.
  induction fuel as [|fuel IH]; intros evs h Hnc Hst Hfuel; [lia|].
  cbn [loop].
  pose proof (processFailoverFiles_count cfg (world h)) as Hcnt.
  cbv zeta in Hcnt.
  destruct (processFailoverFiles cfg (world h)) as [sent w1].
  cbn [fst snd] in Hcnt. destruct Hcnt as [Hle Hlt].
  destruct sent.
  - apply IH; [exact Hnc|exact Hst|].
    cbn [set_world world]. specialize (Hlt eq_refl). lia.
  - destruct evs as [|ev evs']; [now split|].
    apply not_elem_of_cons in Hnc as [Hev Hnc].
    assert (Hrun : state (select_case cfg ev (set_world w1 h)) = Running).
    { apply select_case_running; [congruence|exact Hst]. }
    rewrite Hrun. apply IH; [exact Hnc|exact Hrun|].
    pose proof (select_case_count cfg ev (set_world w1 h)) as Hc.
    cbn [set_world world] in Hc. simpl List.length in Hfuel. lia.
Qed.

Lemma last_two {A : Type} (l : list A) (a b : A) : last (l ++ [a; b]) = Some b.
Proof.
  change [a; b] with ([a] ++ [b])%list. rewrite app_assoc. apply last_snoc.
Qed.

(** A batch that can be neither delivered nor saved leaves no trace in
    the directory. *)
Lemma sendOrSave_dropped (cfg : EsConfig) (batch : list LogEntry) (w : World) :
  ~ delivers cfg w ->
  cannot_save cfg (map (fun e => snd (Json e)) batch) w ->
  disk (sendOrSave cfg batch w) = disk w.
Proof.
  intros Hnd Hcannot.
  pose proof (sendOrSave_cases cfg batch w) as H. cbv zeta in H.
  destruct H as (_ & _ & _ & _ & H).
  destruct (H Hnd) as (err & _ & [(data & Hcan & _)|(err2 & _ & Hdisk & _)]).
  - exfalso. exact (can_cannot_save _ _ _ _ Hcan Hcannot).
  - exact Hdisk.
Qed.

(** C4: when the delivery of a batch fails, [sendOrSave] reports the
    failure on the console and hands the batch (as [Json] left its
    entries) to [saveBatchToDisk].  Either the batch can be saved, and
    it then is the record written under the next name; or it cannot
    (no directory configured, directory unreadable, cap reached, batch
    not serializable, name taken by a directory), and then the directory
    is left exactly as it was, so that no durable copy exists for a later
    cycle to retry, and a CRITICAL line carrying the error is printed.
    A worker whose flush is dropped in this way goes on with an empty
    batch.  In no case does the worker stop: a [select] that is not the
    closing of the channel leaves it running, and the loop goes through
    every event it is given, whatever the network and the disk do. *)
Theorem C4_flush_failure (cfg : EsConfig) (es : list LogEntry) (w : World) :
  ~ delivers cfg w ->
  let batch := map (fun e => snd (Json e)) es in
  let w' := sendOrSave cfg es w in
  ((exists data, can_save cfg batch w data) \/ cannot_save cfg batch w) /\
  (forall data,
     can_save cfg batch w data ->
     disk w' = <[next_name w := File data]> (disk w) /\
     last (console w') = Some "successfully saved failed batch to disk") /\
  (cannot_save cfg batch w ->
   disk w' = disk w /\
   exists err2,
     last (console w') =
     Some ("CRITICAL: Failed to save batch to disk: " +:+ err2)) /\
  (exists err,
     "error sending log entries to Elasticsearch, saving to disk for retry: "
       +:+ err ∈ console w') /\
  (forall h,
     world h = w -> entries h = es -> es <> [] ->
     cannot_save cfg batch w ->
     entries (select_case cfg Tick h) = [] /\
     disk (world (select_case cfg Tick h)) = disk w /\
     state (select_case cfg Tick h) = state h) /\
  (forall ev h,
     ev <> Closed -> state h = Running ->
     state (select_case cfg ev h) = Running) /\
  (forall fuel evs h,
     Closed ∉ evs -> state h = Running ->
     (2 * List.length evs + glob_count (world h) < fuel)%nat ->
     snd (loop cfg fuel evs h) = [] /\
     state (fst (loop cfg fuel evs h)) = Running).
Proof.
  intros Hnd. cbv zeta.
  pose proof (sendOrSave_cases cfg es w) as H. cbv zeta in H.
  destruct H as (_ & _ & _ & _ & H).
  destruct (H Hnd) as (err & _ & Hcase). clear H.
  split; [|split; [|split; [|split; [|split; [|split]]]]].
  - destruct Hcase as [(data & Hcan & _)|(err2 & Hcannot & _)];
      [left; now exists data|now right].
  - intros data Hcan.
    destruct Hcase as [(data' & Hcan' & Hdisk & Hcons)|(err2 & Hcannot & _)].
    + assert (data' = data) as ->.
      { destruct Hcan as (_ & _ & _ & Hj & _).
        destruct Hcan' as (_ & _ & _ & Hj' & _). congruence. }
      split; [exact Hdisk|]. rewrite Hcons. apply last_two.
    + exfalso. exact (can_cannot_save _ _ _ _ Hcan Hcannot).
  - intros Hcannot.
    destruct Hcase as [(data & Hcan & _)|(err2 & _ & Hdisk & Hcons)].
    + exfalso. exact (can_cannot_save _ _ _ _ Hcan Hcannot).
    + split; [exact Hdisk|]. exists err2. rewrite Hcons. apply last_two.
  - exists err.
    destruct Hcase as [(data & _ & _ & Hcons)|(err2 & _ & _ & Hcons)];
      rewrite Hcons; apply elem_of_app; right; apply list_elem_of_here.
  - intros h Hw He Hne Hcannot. cbn [select_case].
    assert (Hpos : (0 <? len (entries h))%Z = true).
    { apply len_pos_iff. congruence. }
    rewrite Hpos. cbn [entries world state]. rewrite Hw, He.
    split; [reflexivity|]. split; [|reflexivity].
    now apply sendOrSave_dropped.
  - intros ev h. apply select_case_running.
  - intros fuel evs h. apply loop_runs.
Qed.

(** ** Entries of the directory that are no records *)

(** Neither a save nor a retry cycle touches an entry whose name does not
    end in [.json]. *)
Lemma saveBatchToDisk_others (cfg : EsConfig) (batch : list LogEntry)
  (w : World) (n : string) :
  is_record n = false ->
  disk (snd (saveBatchToDisk cfg batch w)) !! n = disk w !! n.
Proof.
  intros Hn.
  destruct (saveBatchToDisk_cases cfg batch w)
    as [(data & _ & _ & _ & _ & _ & Hs)|[(err & Hs & _)|(err & Hs & _)]];
    rewrite Hs; cbn [snd set_disk disk UnixNano]; try reflexivity.
  apply lookup_insert_ne. intros Heq.
  pose proof (next_name_is_record w) as Hr. congruence.
Qed.

Lemma processFailoverFiles_others (cfg : EsConfig) (w : World) (n : string) :
  is_record n = false ->
  disk (snd (processFailoverFiles cfg w)) !! n = disk w !! n.
Proof.
  intros Hn.
  destruct (processFailoverFiles_no_rewrite cfg w n) as [H|[Hs _]];
    [exact H|].
  apply selected_least in Hs as (_ & Hr & _). congruence.
Qed.

Lemma sendOrSave_others (cfg : EsConfig) (batch : list LogEntry) (w : World)
  (n : string) :
  is_record n = false -> disk (sendOrSave cfg batch w) !! n = disk w !! n.
Proof.
  intros Hn.
  pose proof (sendOrSave_cases cfg batch w) as H. cbv zeta in H.
  destruct H as (_ & _ & _ & Hy & Hnd).
  destruct (delivers_dec cfg w) as [Hd|Hd].
  - destruct (Hy Hd) as [-> _]. reflexivity.
  - destruct (Hnd Hd) as (err & _ & [(data & _ & -> & _)|(err2 & _ & -> & _)]);
      [|reflexivity].
    apply lookup_insert_ne. intros Heq.
    pose proof (next_name_is_record w) as Hr. congruence.
Qed.

Lemma select_case_others (cfg : EsConfig) (ev : event) (h : Handler)
  (n : string) :
  is_record n = false ->
  disk (world (select_case cfg ev h)) !! n = disk (world h) !! n.
Proof.
  intros Hn. pose proof (fun b w => sendOrSave_others cfg b w n Hn) as Hs.
  destruct ev as [entry| |]; cbn [select_case].
  - destruct (EntriesToHold cfg <=? _)%Z; cbn [world]; [apply Hs|reflexivity].
  - cbn [world]. destruct (0 <? _)%Z; [apply Hs|reflexivity].
  - destruct (0 <? _)%Z; cbn [world]; [apply Hs|reflexivity].
Qed.

(** However long the worker runs, such an entry stays as it is. *)
Lemma loop_others (cfg : EsConfig) (n : string) (fuel : nat) :
  forall (evs : list event) (h : Handler),
    is_record n = false ->
    disk (world (fst (loop cfg fuel evs h))) !! n = disk (world h) !! n.
Proof.
  induction fuel as [|fuel IH]; intros evs h Hn; [reflexivity|].
  cbn [loop].
  pose proof (processFailoverFiles_others cfg (world h) n Hn) as Hp.
  destruct (processFailoverFiles cfg (world h)) as [sent w1].
  cbn [snd] in Hp. destruct sent.
  - rewrite IH by exact Hn. exact Hp.
  - destruct evs as [|ev evs']; [exact Hp|].
    pose proof (select_case_others cfg ev (set_world w1 h) n Hn) as Hsel.
    cbn [set_world world] in Hsel.
    destruct (state (select_case cfg ev (set_world w1 h))).
    + rewrite IH by exact Hn. congruence.
    + cbn [fst]. congruence.
Qed.

Lemma filter_split_length (l : list string) :
  (List.length (filter (fun n => is_record n = true) l) +
   List.length (filter (fun n => is_record n = false) l))%nat = List.length l.
Proof.
  induction l as [|x l IH]; [reflexivity|].
  destruct (is_record x) eqn:E.
  - rewrite filter_cons_True by exact E.
    rewrite filter_cons_False by congruence. simpl. lia.
  - rewrite filter_cons_False by congruence.
    rewrite filter_cons_True by exact E. simpl. lia.
Qed.

Lemma n_records_others (d : gmap string node) :
  (n_records d + n_others d = n_entries d)%Z.
Proof.
  unfold n_records, n_others, n_entries, len.
  rewrite <- names_length, <- (filter_split_length (names d)). lia.
Qed.

Lemma n_others_pos (d : gmap string node) (n : string) (x : node) :
  is_record n = false -> d !! n = Some x -> (1 <= n_others d)%Z.
Proof.
  intros Hn Hl. unfold n_others, len.
  assert (Hin : n ∈ filter (fun k => is_record k = false) (names d)).
  { apply list_elem_of_filter. split; [exact Hn|].
    apply elem_of_names. now exists x. }
  destruct (filter _ (names d)) as [|y l]; [inversion Hin|]. simpl. lia.
Qed.

Lemma save_ok_room (cfg : EsConfig) (batch : list LogEntry) (w : World) :
  fst (saveBatchToDisk cfg batch w) = None ->
  (n_entries (disk w) < MaxFailoverFiles cfg)%Z.
Proof.
  destruct (saveBatchToDisk_cases cfg batch w)
    as [(data & _ & _ & Hn & _)|[(err & Hs & _)|(err & Hs & _)]];
    [intros _; exact Hn|rewrite Hs; discriminate|rewrite Hs; discriminate].
Qed.

(** C10: [saveBatchToDisk] writes a record only when the number of
    entries of any kind that [os.ReadDir] lists, records or not, is
    strictly below [MaxFailoverFiles]; the retry scan only ever selects,
    and a cycle only ever changes, entries named [*.json].  So an entry
    under another name, file or subdirectory, counts against the cap, is
    never selected for a retry, is left in place by every save, every
    cycle and every run of the worker, and lowers the number of records
    the store can hold for good. *)
Theorem C10_capacity_any_entry (cfg : EsConfig) (batch : list LogEntry)
  (w : World) :
  (fst (saveBatchToDisk cfg batch w) = None ->
   (n_records (disk w) + n_others (disk w) < MaxFailoverFiles cfg)%Z) /\
  (forall files,
     ReadDir w = Ok files ->
     len files = (n_records (disk w) + n_others (disk w))%Z /\
     forall n, n ∈ files <-> is_Some (disk w !! n)) /\
  (forall file, selected w = Some file -> is_record file = true) /\
  (forall n,
     disk (snd (processFailoverFiles cfg w)) !! n <> disk w !! n ->
     is_record n = true) /\
  (forall n x,
     is_record n = false -> disk w !! n = Some x ->
     (1 <= n_others (disk w))%Z /\
     selected w <> Some n /\
     disk (snd (saveBatchToDisk cfg batch w)) !! n = Some x /\
     disk (snd (processFailoverFiles cfg w)) !! n = Some x /\
     (forall fuel evs h,
        world h = w ->
        disk (world (fst (loop cfg fuel evs h))) !! n = Some x) /\
     (fst (saveBatchToDisk cfg batch w) = None ->
      (n_records (disk w) < MaxFailoverFiles cfg - 1)%Z)).
Proof.
  pose proof (n_records_others (disk w)) as Hsum.
  split; [|split; [|split; [|split]]].
  - intros Hok. apply save_ok_room in Hok. lia.
  - intros files Hr. pose proof (ReadDir_len w files Hr) as [Hlen _].
    split; [lia|].
    unfold ReadDir in Hr. destruct (dir_fault w); [discriminate|].
    injection Hr as <-. intros n. fold (names (disk w)).
    rewrite sort_Strings_perm. apply elem_of_names.
  - intros file Hs. now apply selected_least in Hs.
  - intros n Hne. destruct (is_record n) eqn:E; [reflexivity|].
    exfalso. apply Hne. now apply processFailoverFiles_others.
  - intros n x Hn Hl.
    pose proof (n_others_pos (disk w) n x Hn Hl) as Hpos.
    split; [exact Hpos|]. split; [|split; [|split; [|split]]].
    + intros Hs. apply selected_least in Hs as (_ & Hr & _). congruence.
    + now rewrite saveBatchToDisk_others.
    + now rewrite processFailoverFiles_others.
    + intros fuel evs h <-. now rewrite loop_others.
    + intros Hok. apply save_ok_room in Hok. lia.
Qed.

(** ** The file sink: rotation and compression *)

(** [newLogfile] either switches to a freshly opened file, scheduling the
    compression of the one it replaces, or returns an error and leaves
    the sink and the timers as they were.  It closes nothing itself. *)
Lemma newLogfile_cases (s : file) (w : FWorld) :
  let r := newLogfile s w in
  closes (snd r) = closes w /\
  ((fst (fst r) = None /\
    (exists h', f (snd (fst r)) = Some h' /\ closed h' = false) /\
    fCreatedAt (snd (fst r)) = now w (now_reads w) /\
    timers (snd r) =
      (timers w ++ match f s with Some old => [Name old] | None => [] end)%list)
   \/
   (exists err,
      fst (fst r) = Some err /\ snd (fst r) = s /\ timers (snd r) = timers w)).
Proof.
  cbv zeta. unfold newLogfile, time_Now, MkdirAll, OpenFile.
  cbn [fs mkdir_fault].
  repeat case_match; simplify_eq; cbn;
    (split; [reflexivity|]);
    try (right; eexists; repeat split; reflexivity);
    try (left; repeat split; try reflexivity; eauto using app_nil_r).
Qed.

Lemma gz_name_ne (name : string) : name +:+ ".gz" <> name.
Proof.
  intros H. apply (f_equal String.length) in H.
  rewrite length_append in H. simpl in H. lia.
Qed.

(** What [compressFile] does to a regular file. *)
Lemma compressFile_file (name data : string) (w : FWorld) :
  fs w !! name = Some (File data) ->
  let r := compressFile name w in
  (fst r = None <-> fs w !! (name +:+ ".gz") <> Some Dir /\ copy_fault w = None) /\
  (fst r = None -> fs (snd r) = <[name +:+ ".gz" := File (gzip data)]> (fs w)) /\
  fs (snd r) !! name = Some (File data) /\
  (forall p, p <> name +:+ ".gz" -> fs (snd r) !! p = fs w !! p).
Proof.
  intros Hl. cbv zeta. unfold compressFile, Create. rewrite Hl.
  pose proof (gz_name_ne name) as Hne.
  assert (Hins : forall x y p, p <> name +:+ ".gz" ->
            (<[name +:+ ".gz" := x]> (<[name +:+ ".gz" := y]> (fs w))) !! p
            = fs w !! p).
  { intros x y p Hp. now rewrite !lookup_insert_ne by congruence. }
  destruct (fs w !! (name +:+ ".gz")) as [[old|]|] eqn:Eg;
    cbn [fst snd fs set_fs copy_fault].
  - destruct (copy_fault w) as [[msg bytes]|]; cbn [fst snd fs set_fs].
    + split; [split; [discriminate|intros [_ H]; discriminate]|].
      split; [discriminate|].
      split; [rewrite Hins by congruence; exact Hl|].
      intros p Hp. now apply Hins.
    + split; [split; [intros _; split; [discriminate|reflexivity]|reflexivity]|].
      split; [intros _; apply insert_insert_eq|].
      split; [rewrite Hins by congruence; exact Hl|].
      intros p Hp. now apply Hins.
  - split; [split; [discriminate|intros [H _]; congruence]|].
    split; [discriminate|]. split; [exact Hl|reflexivity].
  - destruct (copy_fault w) as [[msg bytes]|]; cbn [fst snd fs set_fs].
    + split; [split; [discriminate|intros [_ H]; discriminate]|].
      split; [discriminate|].
      split; [rewrite Hins by congruence; exact Hl|].
      intros p Hp. now apply Hins.
    + split; [split; [intros _; split; [discriminate|reflexivity]|reflexivity]|].
      split; [intros _; apply insert_insert_eq|].
      split; [rewrite Hins by congruence; exact Hl|].
      intros p Hp. now apply Hins.
Qed.

(** The worker's step for an entry, when the active file is due for
    rotation, and when it is not. *)
Lemma file_entry_rotate (entry : LogEntry) (s : file) (w : FWorld) (h : osFile) :
  f s = Some h ->
  (0 < CreateNewAfter (Config s))%Z ->
  (CreateNewAfter (Config s) < now w (now_reads w) - fCreatedAt s)%Z ->
  file_entry entry s w =
  let '(err, s2, w2) :=
    newLogfile
      {| Config := Config s; AppShort := AppShort s;
         f := Some {| Name := Name h; closed := true |};
         fCreatedAt := fCreatedAt s |}
      (snd (Close h (snd (time_Now w)))) in
  match err with
  | Some _ => (s2, w2)
  | None =>
      match f s2 with
      | Some h2 => (s2, Write h2 (fst (String_ entry) +:+ NL) w2)
      | None => (s2, w2)
      end
  end.
Proof.
  intros Hf Hpos Hage. unfold file_entry. rewrite Hf.
  apply Z.ltb_lt in Hpos. rewrite Hpos.
  unfold time_Now. cbn [now now_reads snd fst].
  apply Z.ltb_lt in Hage. rewrite Hage. reflexivity.
Qed.

Lemma file_entry_keep (entry : LogEntry) (s : file) (w : FWorld) (h : osFile) :
  f s = Some h ->
  (CreateNewAfter (Config s) <= 0 \/
   now w (now_reads w) - fCreatedAt s <= CreateNewAfter (Config s))%Z ->
  file_entry entry s w =
  (s, Write h (fst (String_ entry) +:+ NL)
        (if (0 <? CreateNewAfter (Config s))%Z then snd (time_Now w) else w)).
Proof.
  intros Hf Hdue. unfold file_entry. rewrite Hf.
  destruct (0 <? CreateNewAfter (Config s))%Z eqn:Ep.
  - apply Z.ltb_lt in Ep. unfold time_Now. cbn [now now_reads snd fst].
    assert (Hno : (CreateNewAfter (Config s) <?
                   now w (now_reads w) - fCreatedAt s)%Z = false).
    { apply Z.ltb_ge. lia. }
    rewrite Hno, Hf. reflexivity.
  - rewrite Hf. reflexivity.
Qed.

(** The compression task leaves the clock alone. *)
Lemma fire_now (w : FWorld) :
  now (fire w) = now w /\ now_reads (fire w) = now_reads w.
Proof.
  unfold fire. destruct (timers w) as [|nm rest]; [now split|].
  unfold compress_and_remove.
  assert (Hcf : now (snd (compressFile nm (set_timers rest w))) = now w /\
                now_reads (snd (compressFile nm (set_timers rest w))) = now_reads w).
  { unfold compressFile, Create. repeat case_match; simplify_eq; now cbn. }
  destruct (compressFile nm (set_timers rest w)) as [e w1].
  cbn [snd] in *. now cbn.
Qed.

(** C9: when the worker finds the active file older than
    [CreateNewAfter], it closes that file; when the new file could be
    opened, the sink switches to it and one compression task is scheduled
    for the old one (when it could not, nothing is scheduled and the sink
    keeps the closed handle).  When the task runs on a file, the file is
    removed, whether or not the compression succeeded; when it
    succeeded, which it does unless the [.gz] path is a directory or the
    copy fails, the sibling [.gz] holds the gzip of the file's bytes; no
    other path is touched.  The task does not touch the worker's state,
    and after it, failed or not, the next entry is appended to the active
    file as usual. *)
Theorem C9_rotation_compression (s : file) (w : FWorld) (h : osFile)
  (entry : LogEntry) (name data : string) :
  (f s = Some h ->
   (0 < CreateNewAfter (Config s))%Z ->
   (CreateNewAfter (Config s) < now w (now_reads w) - fCreatedAt s)%Z ->
   let r := file_entry entry s w in
   closes (snd r) = (closes w ++ [Name h])%list /\
   ((exists h', f (fst r) = Some h' /\ closed h' = false) ->
    timers (snd r) = (timers w ++ [Name h])%list) /\
   (timers (snd r) = (timers w ++ [Name h])%list \/
    (timers (snd r) = timers w /\
     f (fst r) = Some {| Name := Name h; closed := true |}))) /\
  (fs w !! name = Some (File data) ->
   let w' := compress_and_remove name w in
   fs w' !! name = None /\
   (fst (compressFile name w) = None <->
    fs w !! (name +:+ ".gz") <> Some Dir /\ copy_fault w = None) /\
   (fst (compressFile name w) = None ->
    fs w' !! (name +:+ ".gz") = Some (File (gzip data))) /\
   (forall p, p <> name -> p <> name +:+ ".gz" -> fs w' !! p = fs w !! p)) /\
  fst (file_event FTimer s w) = s /\
  (forall rest,
     timers w = name :: rest ->
     snd (file_event FTimer s w) = compress_and_remove name (set_timers rest w)) /\
  (forall old,
     f s = Some h -> closed h = false ->
     (CreateNewAfter (Config s) <= 0 \/
      now w (now_reads w) - fCreatedAt s <= CreateNewAfter (Config s))%Z ->
     fs (fire w) !! Name h = Some (File old) ->
     let r := file_entry entry s (fire w) in
     fst r = s /\
     fs (snd r) !! Name h = Some (File (old +:+ fst (String_ entry) +:+ NL))).
Proof.
  split; [|split; [|split; [|split]]].
  - intros Hf Hpos Hage. cbv zeta.
    rewrite (file_entry_rotate entry s w h Hf Hpos Hage).
    set (s1 := {| Config := Config s; AppShort := AppShort s;
                  f := Some {| Name := Name h; closed := true |};
                  fCreatedAt := fCreatedAt s |}).
    set (w1 := snd (Close h (snd (time_Now w)))).
    pose proof (newLogfile_cases s1 w1) as Hn. cbv zeta in Hn.
    destruct (newLogfile s1 w1) as [[err s2] w2]. cbn [fst snd] in Hn.
    change (closes w1) with (closes w ++ [Name h])%list in Hn.
    change (timers w1) with (timers w) in Hn.
    destruct Hn as [Hcl [(He & (h' & Hh' & Hop) & _ & Ht)|(e & He & Hs & Ht)]];
      subst err.
    + rewrite Hh'. cbn [fst snd]. unfold Write. rewrite Hop.
      cbn [f s1 Name] in Ht.
      destruct (fs w2 !! Name h') as [[old|]|]; cbn [closes timers set_fs];
        (split; [exact Hcl|]); (split; [intros _; exact Ht|now left]).
    + cbn [fst snd]. subst s2. cbn [f s1].
      split; [exact Hcl|]. split.
      * intros (h' & [= <-] & Hop). discriminate.
      * right. split; [exact Ht|reflexivity].
  - intros Hl. cbv zeta. unfold compress_and_remove.
    pose proof (compressFile_file name data w Hl) as Hc. cbv zeta in Hc.
    destruct (compressFile name w) as [err w1]. cbn [fst snd] in Hc.
    destruct Hc as (Hiff & Hok & Hkeep & Hoth).
    cbn [fs set_fs fst]. unfold fs_Remove. rewrite Hkeep.
    split; [apply lookup_delete_eq|]. split; [exact Hiff|]. split.
    + intros He. rewrite lookup_delete_ne by (symmetry; apply gz_name_ne).
      rewrite (Hok He). apply lookup_insert_eq.
    + intros p Hp Hpg. rewrite lookup_delete_ne by congruence. now apply Hoth.
  - reflexivity.
  - intros rest Ht. cbn [file_event snd]. unfold fire. now rewrite Ht.
  - intros old Hf Hop Hdue Hl. cbv zeta.
    destruct (fire_now w) as [Hn1 Hn2].
    rewrite (file_entry_keep entry s (fire w) h Hf)
      by (rewrite Hn1, Hn2; exact Hdue).
    cbn [fst snd]. split; [reflexivity|].
    unfold Write. rewrite Hop.
    destruct (0 <? CreateNewAfter (Config s))%Z;
      cbn [time_Now snd fs]; rewrite Hl; cbn [fs set_fs];
      apply lookup_insert_eq.
Qed.

End Facts.

(** ** Retry order *)

(** C1, on the code: the batch saved first gets the name
    [batch-999999999.json], the batch saved second the name
    [batch-1000000000.json].  [sort.Strings] puts the second name first,
    so every cycle selects and attempts the newer record, and the older
    one is never attempted while the newer one fails: three iterations
    of the worker's loop put three requests on the wire, each carrying
    the newer batch. *)
Example C1_newer_record_retried_first :
  names
    (disk (run_sendOrSave [Sample.e_old]
             (Sample.world 999999999 1000000000 (fun _ => Sample.refused)))) =
    ["batch-999999999.json"] /\
  disk two_records !! "batch-999999999.json" =
    Some (File (Sample.data_of [Sample.e_old])) /\
  disk two_records !! "batch-1000000000.json" =
    Some (File (Sample.data_of [Sample.e_new])) /\
  String.ltb "batch-1000000000.json" "batch-999999999.json" = true /\
  selected two_records = Some "batch-1000000000.json" /\
  fst (run_cycle two_records) = false /\
  disk (snd (run_cycle two_records)) = disk two_records /\
  wire (snd (run_cycle two_records)) =
    (wire two_records ++ [request_of [Sample.e_new]])%list /\
  wire (world (fst (run_loop 3 [Tick; Tick; Tick]
                      {| entries := []; ticker := NewTicker 0;
                         state := Running; world := two_records |}))) =
    (wire two_records ++
     [request_of [Sample.e_new]; request_of [Sample.e_new];
      request_of [Sample.e_new]])%list.
Proof. vm_compute. repeat split; reflexivity. Qed.

(** ** Closed instances *)

(** C8 as stated fails: an entry built by [log.Info("boot\n")] has the
    message [boot] followed by a newline; after [Json] its message is
    [boot], so the entry is no longer what it was. *)
Lemma C8_counterexample :
  Message Sample.e_nl = "boot" +:+ NL /\
  Message (snd (run_Json Sample.e_nl)) = "boot" /\
  snd (run_Json Sample.e_nl) <> Sample.e_nl.
Proof.
  split; [reflexivity|]. split; [reflexivity|].
  intros H. apply (f_equal Message) in H. vm_compute in H. discriminate.
Qed.

(** C2 as stated fails, twice.  With no record at rest and a cap of one,
    a directory that holds one subdirectory is full: the batch is dropped
    although the number of records, zero, is strictly below the cap.  And
    with an empty directory and a cap of ten, a batch that cannot be
    serialized is dropped as well. *)
Lemma C2_counterexample :
  n_records (disk stray_dir) = 0%Z /\
  MaxFailoverFiles cfg_cap1 = 1%Z /\
  run_save cfg_cap1 [Sample.e_old] stray_dir =
    (Some "max failover files limit (1) reached, discarding batch", stray_dir) /\
  n_records (disk busy) = 0%Z /\
  MaxFailoverFiles Sample.cfg = 10%Z /\
  run_save Sample.cfg [Sample.e_func] busy =
    (Some "failed to marshal batch for disk save: json: unsupported type: func()",
     busy).
Proof. vm_compute. repeat split; reflexivity. Qed.

(** C3 as stated fails: with one entry held and a threshold of two, the
    closing of the channel flushes the batch, although the size has not
    reached the threshold and no tick was received. *)
Lemma C3_counterexample :
  entries one_held = [Sample.e_old] /\
  EntriesToHold Sample.cfg = 2%Z /\
  flushes (world one_held) = [] /\
  flushes (world (run_select Closed one_held)) = [[Sample.e_old]] /\
  flushes
    (world (fst (run_entryHandler 3 [Recv Sample.e_old; Closed]
                   (world one_held)))) = [[Sample.e_old]] /\
  ~ size_trigger Sample.cfg Closed one_held /\
  ~ time_trigger Closed one_held.
Proof.
  split; [reflexivity|]. split; [reflexivity|]. split; [reflexivity|].
  split; [vm_compute; reflexivity|]. split; [vm_compute; reflexivity|].
  split.
  - intros (entry & H & _). discriminate.
  - intros [H _]. discriminate.
Qed.

(** C2 at work: the first failed batch of the sample run becomes the one
    record of the directory. *)
Lemma C2_witness :
  n_entries (disk (Sample.world 999999999 1000000000 (fun _ => Sample.refused)))
    = 0%Z /\
  fst (run_save Sample.cfg [Sample.e_old]
         (Sample.world 999999999 1000000000 (fun _ => Sample.refused))) = None /\
  n_records
    (disk (snd (run_save Sample.cfg [Sample.e_old]
                  (Sample.world 999999999 1000000000 (fun _ => Sample.refused)))))
    = 1%Z.
Proof.
  split; [reflexivity|].
  assert (H1 : FailoverDir Sample.cfg <> EmptyString) by discriminate.
  assert (H2 : dir_fault (Sample.world 999999999 1000000000
                            (fun _ => Sample.refused)) = None) by reflexivity.
  assert (H3 : (n_entries (disk (Sample.world 999999999 1000000000
                                   (fun _ => Sample.refused)))
                < MaxFailoverFiles Sample.cfg)%Z) by (vm_compute; reflexivity).
  assert (H4 : @json_Marshal_batch Sample.lib [Sample.e_old] =
               Ok (Sample.data_of [Sample.e_old])) by reflexivity.
  assert (H5 : disk (Sample.world 999999999 1000000000 (fun _ => Sample.refused))
               !! next_name (Sample.world 999999999 1000000000
                               (fun _ => Sample.refused)) = None)
    by (vm_compute; reflexivity).
  destruct (C2_failover_store_bound (L := Sample.lib) Sample.cfg [Sample.e_old]
              (Sample.world 999999999 1000000000 (fun _ => Sample.refused)))
    as [_ H].
  destruct (H _ H1 H2 H3 H4 H5) as (Ha & _ & _ & Hb & _).
  split; [exact Ha|]. unfold run_save. rewrite Hb. reflexivity.
Defined.

(** C4 at work: the delivery fails and the directory cannot be listed;
    the batch is dropped and the console says so. *)
Lemma C4_witness :
  ~ @delivers Sample.lib Sample.cfg unreadable /\
  @cannot_save Sample.lib Sample.cfg
    (map (fun e => snd (run_Json e)) [Sample.e_nl]) unreadable /\
  disk (run_sendOrSave [Sample.e_nl] unreadable) = disk unreadable /\
  exists err2,
    last (console (run_sendOrSave [Sample.e_nl] unreadable)) =
    Some ("CRITICAL: Failed to save batch to disk: " +:+ err2).
Proof.
  assert (H1 : ~ @delivers Sample.lib Sample.cfg unreadable).
  { intros [_ (resp & H & _)]. vm_compute in H. discriminate. }
  assert (H2 : @cannot_save Sample.lib Sample.cfg
                 (map (fun e => snd (run_Json e)) [Sample.e_nl])
                 unreadable).
  { right; left. discriminate. }
  split; [exact H1|]. split; [exact H2|].
  destruct (C4_flush_failure (L := Sample.lib) Sample.cfg [Sample.e_nl] unreadable H1)
    as (_ & _ & H & _).
  exact (H H2).
Defined.

(** C5 at work: in the sample run the selected record fails delivery and
    is left on disk with its bytes. *)
Lemma C5_witness :
  selected two_records = Some "batch-1000000000.json" /\
  ~ @delivers Sample.lib Sample.cfg two_records /\
  disk (snd (run_cycle two_records)) = disk two_records /\
  fst (run_cycle two_records) = false.
Proof.
  assert (H1 : FailoverDir Sample.cfg <> EmptyString) by discriminate.
  assert (H2 : selected two_records = Some "batch-1000000000.json")
    by (vm_compute; reflexivity).
  assert (H3 : disk two_records !! "batch-1000000000.json" =
               Some (File (Sample.data_of [Sample.e_new])))
    by (vm_compute; reflexivity).
  assert (H4 : @json_Unmarshal Sample.lib (Sample.data_of [Sample.e_new]) =
               Ok [Sample.e_new]) by (vm_compute; reflexivity).
  assert (H5 : ~ @delivers Sample.lib Sample.cfg two_records).
  { intros [_ (resp & H & _)]. vm_compute in H. discriminate. }
  split; [exact H2|]. split; [exact H5|].
  destruct (C5_record_disposition (L := Sample.lib) Sample.cfg two_records
              _ H1 H2)
    as (_ & _ & H & _).
  exact (proj2 (H _ _ H3 H4) H5).
Defined.



(** C9 at work: the entry that finds the file a minute old closes it and
    schedules its compression; the compression fails on the full disk,
    and the file is removed all the same. *)
Lemma C9_witness :
  closes (snd (run_file_entry Sample.e_old sink0 disk_full)) = [old_log] /\
  timers (snd (run_file_entry Sample.e_old sink0 disk_full)) = [old_log] /\
  fst (@compressFile Sample.lib old_log disk_full) <> None /\
  fs (@compress_and_remove Sample.lib old_log disk_full) !! old_log = None.
Proof.
  assert (H1 : f sink0 = Some {| Name := old_log; closed := false |})
    by reflexivity.
  assert (H2 : (0 < CreateNewAfter (Config sink0))%Z) by reflexivity.
  assert (H3 : (CreateNewAfter (Config sink0) <
                now disk_full (now_reads disk_full) - fCreatedAt sink0)%Z)
    by reflexivity.
  assert (H4 : fs disk_full !! old_log = Some (File "first line"))
    by (vm_compute; reflexivity).
  destruct (C9_rotation_compression (L := Sample.lib) sink0 disk_full
              {| Name := old_log; closed := false |} Sample.e_old old_log
              "first line")
    as (Hrot & Htask & _).
  destruct (Hrot H1 H2 H3) as (Hc & Ht & _).
  destruct (Htask H4) as (Hgone & Hiff & _).
  split; [exact Hc|]. split.
  - apply Ht. eexists. split; vm_compute; reflexivity.
  - split; [|exact Hgone].
    intros Hnone. apply Hiff in Hnone as [_ Hcf]. discriminate.
Defined.

(** C3 at work: the second entry fills the batch of two; it is flushed
    whole, the batch is empty again and the ticker has been reset. *)
Lemma C3_witness :
  flushes (world (run_select (Recv Sample.e_new) one_held)) =
    [[Sample.e_old; Sample.e_new]] /\
  entries (run_select (Recv Sample.e_new) one_held) = [] /\
  ticker (run_select (Recv Sample.e_new) one_held) =
    Ticker_Reset (TimeToHold Sample.cfg) (ticker one_held).
Proof.
  assert (H1 : (EntriesToHold Sample.cfg <=
                len (entries one_held ++ [Sample.e_new]))%Z)
    by (vm_compute; discriminate).
  destruct (C3_batching_triggers (L := Sample.lib) Sample.cfg
              (Recv Sample.e_new) one_held) as (_ & H & _).
  destruct (H Sample.e_new eq_refl H1) as (Hf & He & Ht & _).
  split; [exact Hf|]. split; [exact He|exact Ht].
Defined.

(** C6 at work: a 503 answer comes back as one error that carries the
    status line and the body. *)
Lemma C6_witness :
  fst (fst (@sendToElasticsearch Sample.lib (Some Sample.cfg) [Sample.e_old] busy))
  = Some ("Error Response Status: 503 Service Unavailable" +:+ NL +:+
          "Response Body: busy").
Proof.
  destruct (C6_delivery_result (L := Sample.lib) (Some Sample.cfg)
              [Sample.e_old] busy) as (_ & _ & H & _).
  apply (H Sample.cfg
           {| StatusCode := 503; Status := "503 Service Unavailable";
              Body := Ok "busy" |});
    [reflexivity|reflexivity|reflexivity|discriminate].
Defined.

(** C10 at work: the stray subdirectory is still there after the worker
    has run, and it is never the selected record. *)
Lemma C10_witness :
  disk (world (fst (@loop Sample.lib cfg_cap1 9
                      [Recv Sample.e_old; Recv Sample.e_new; Tick]
                      {| entries := []; ticker := NewTicker 0;
                         state := Running; world := stray_dir |})))
    !! "lost+found" = Some Dir /\
  selected stray_dir <> Some "lost+found".
Proof.
  assert (H1 : is_record "lost+found" = false) by reflexivity.
  assert (H2 : disk stray_dir !! "lost+found" = Some Dir)
    by (vm_compute; reflexivity).
  destruct (C10_capacity_any_entry (L := Sample.lib) cfg_cap1 [Sample.e_old]
              stray_dir) as (_ & _ & _ & _ & H).
  destruct (H _ _ H1 H2) as (_ & Hsel & _ & _ & Hloop & _).
  split; [|exact Hsel]. now apply Hloop.
Defined.

(** * Part III: the package beyond the claims *)

(** ** The Elasticsearch worker over a whole run *)

Section Worker.

Context `{L : Lib}.

Set Default Proof Using "Type".

Lemma select_case_conserves (cfg : EsConfig) (ev : event) (h : Handler) :
  state h = Running ->
  (concat (flushes (world (select_case cfg ev h))) ++ pending (select_case cfg ev h)
   = concat (flushes (world h)) ++ entries h ++ received [ev])%list.
Proof.
  intros Hst. unfold pending. destruct ev as [entry| |]; cbn [select_case received omap].
  - destruct (EntriesToHold cfg <=? _)%Z; cbn [world entries state]; rewrite ?Hst.
    + rewrite sendOrSave_flushes, concat_app. cbn [concat].
      now rewrite !app_nil_r.
    + reflexivity.
  - cbn [state world]. rewrite !app_nil_r.
    destruct (0 <? len (entries h))%Z eqn:E.
    + rewrite sendOrSave_flushes, concat_app. cbn [concat].
      now rewrite !app_nil_r.
    + destruct (entries h) as [|x l] eqn:El; [now rewrite app_nil_r|].
      unfold len in E. simpl in E. apply Z.ltb_ge in E. lia.
  - rewrite !app_nil_r. destruct (0 <? len (entries h))%Z eqn:E.
    + cbn [world entries state]. rewrite Hst.
      rewrite sendOrSave_flushes, concat_app. cbn [concat].
      now rewrite !app_nil_r.
    + now rewrite Hst.
Qed.

Lemma received_cons (ev : event) (evs : list event) :
  received (ev :: evs) = (received [ev] ++ received evs)%list.
Proof. unfold received. simpl. now destruct ev. Qed.

Lemma loop_conserves (cfg : EsConfig) (fuel : nat) :
  forall (evs : list event) (h : Handler),
    state h = Running ->
    exists consumed,
      evs = (consumed ++ snd (loop cfg fuel evs h))%list /\
      (concat (flushes (world (fst (loop cfg fuel evs h))))
         ++ pending (fst (loop cfg fuel evs h))
       = concat (flushes (world h)) ++ entries h ++ received consumed)%list.
Proof.
  induction fuel as [|fuel IH]; intros evs h Hst.
  - exists []. cbn [loop fst snd received omap]. unfold pending. rewrite Hst.
    now rewrite app_nil_r.
  - cbn [loop].
    pose proof (processFailoverFiles_frame cfg (world h)) as Hf. cbv zeta in Hf.
    destruct (processFailoverFiles cfg (world h)) as [sent w1].
    cbn [snd] in Hf. destruct Hf as (_ & _ & Hfl & _).
    destruct sent.
    + destruct (IH evs (set_world w1 h) Hst) as (c & Hc & Heq).
      exists c. split; [exact Hc|]. rewrite Heq. cbn [set_world world entries].
      now rewrite Hfl.
    + destruct evs as [|ev evs'].
      * exists []. cbn [fst snd set_world world]. unfold pending.
        cbn [set_world state entries]. rewrite Hst, Hfl.
        split; [reflexivity|]. cbn [received omap]. now rewrite app_nil_r.
      * pose proof (select_case_conserves cfg ev (set_world w1 h) Hst) as Hs.
        cbn [set_world world entries] in Hs. rewrite Hfl in Hs.
        destruct (state (select_case cfg ev (set_world w1 h))) eqn:Est.
        -- destruct (IH evs' _ Est) as (c & Hc & Heq).
           exists (ev :: c). split; [simpl; now rewrite <- Hc|].
           rewrite Heq, received_cons.
           unfold pending in Hs. rewrite Est in Hs.
           rewrite app_assoc, Hs. now rewrite <- !app_assoc.
        -- exists [ev]. cbn [fst snd]. split; [reflexivity|]. exact Hs.
Qed.

(** X1: whatever the network and the disk do, the worker hands every entry
    it received to [sendOrSave] exactly once and in the order received: the
    batches flushed so far, laid end to end, followed by the entries still
    held, are the entries taken from the channel. Once the worker has
    returned it holds nothing back. *)
Theorem entryHandler_conserves (cfg : EsConfig) (fuel : nat) (evs : list event)
  (w : World) :
  let r := entryHandler cfg fuel evs w in
  exists consumed,
    evs = (consumed ++ snd r)%list /\
    (concat (flushes (world (fst r))) ++ pending (fst r)
     = concat (flushes w) ++ received consumed)%list /\
    (state (fst r) = Returned ->
     concat (flushes (world (fst r))) =
     (concat (flushes w) ++ received consumed)%list).
Proof.
  cbv zeta. unfold entryHandler.
  set (h0 := {| entries := []; ticker := NewTicker (TimeToHold cfg);
                state := Running; world := w |}).
  destruct (loop_conserves cfg fuel evs h0 eq_refl) as (c & Hc & Heq).
  exists c. split; [exact Hc|]. split; [exact Heq|].
  intros Hr. unfold pending in Heq. rewrite Hr, app_nil_r in Heq. exact Heq.
Qed.


(** *** The worker returns once its channel is closed *)

Lemma loop_returns (cfg : EsConfig) (fuel : nat) :
  forall (pre post : list event) (h : Handler),
    Closed ∉ pre -> state h = Running ->
    (2 * List.length pre + glob_count (world h) < fuel)%nat ->
    state (fst (loop cfg fuel (pre ++ Closed :: post) h)) = Returned /\
    snd (loop cfg fuel (pre ++ Closed :: post) h) = post.
Proof.
  induction fuel as [|fuel IH]; intros pre post h Hnc Hst Hfuel; [lia|].
  cbn [loop].
  pose proof (processFailoverFiles_count cfg (world h)) as Hcnt.
  cbv zeta in Hcnt.
  destruct (processFailoverFiles cfg (world h)) as [sent w1].
  cbn [fst snd] in Hcnt. destruct Hcnt as [Hle Hlt].
  destruct sent.
  - apply IH; [exact Hnc|exact Hst|].
    cbn [set_world world]. specialize (Hlt eq_refl). lia.
  - destruct pre as [|ev pre']; cbn [app].
    + cbn [select_case state]. now split.
    + apply not_elem_of_cons in Hnc as [Hev Hnc].
      assert (Hrun : state (select_case cfg ev (set_world w1 h)) = Running).
      { apply select_case_running; [congruence|exact Hst]. }
      rewrite Hrun. apply IH; [exact Hnc|exact Hrun|].
      pose proof (select_case_count cfg ev (set_world w1 h)) as Hc.
      cbn [set_world world] in Hc. simpl List.length in Hfuel. lia.
Qed.

Lemma received_app (a b : list event) :
  received (a ++ b) = (received a ++ received b)%list.
Proof. unfold received. apply omap_app. Qed.

Lemma time_NewTicker_positive (d : Z) :
  (0 < d)%Z -> time_NewTicker d = Some (NewTicker d).
Proof.
  intros H. unfold time_NewTicker. apply Z.ltb_lt in H. now rewrite H.
Qed.

(** With a [TimeToHold] that is not positive the worker panics before it
    reads anything: nothing is received, flushed or shut down. *)
Lemma entryHandler_panics (cfg : EsConfig) (fuel : nat) (evs : list event)
  (w : World) :
  (TimeToHold cfg <= 0)%Z -> entryHandler_started cfg fuel evs w = None.
Proof.
  intros H. unfold entryHandler_started, time_NewTicker.
  destruct (0 <? TimeToHold cfg)%Z eqn:E; [|reflexivity].
  apply Z.ltb_lt in E. lia.
Qed.

(** X2: with a positive [TimeToHold], so that [time.NewTicker] returns,
    and on the file system of the model, where a record that was
    delivered is removed: when the channel is closed after the events
    [pre], the worker, given two iterations an event and one per record
    at rest, returns; it leaves the events after the closing unread, and
    every entry of [pre] has been flushed, in order. *)
Theorem entryHandler_shutdown (cfg : EsConfig) (fuel : nat)
  (pre post : list event) (w : World) :
  (0 < TimeToHold cfg)%Z ->
  Closed ∉ pre ->
  (2 * List.length pre + glob_count w < fuel)%nat ->
  exists r,
    entryHandler_started cfg fuel (pre ++ Closed :: post) w = Some r /\
    state (fst r) = Returned /\ snd r = post /\
    concat (flushes (world (fst r))) = (concat (flushes w) ++ received pre)%list.
Proof.
  intros Hpos Hnc Hfuel. unfold entryHandler_started.
  rewrite (time_NewTicker_positive _ Hpos).
  set (h0 := {| entries := []; ticker := NewTicker (TimeToHold cfg);
                state := Running; world := w |}).
  eexists. split; [reflexivity|].
  destruct (loop_returns cfg fuel pre post h0 Hnc eq_refl Hfuel) as [Hr Hp].
  split; [exact Hr|]. split; [exact Hp|].
  destruct (loop_conserves cfg fuel (pre ++ Closed :: post) h0 eq_refl)
    as (c & Hc & Heq).
  rewrite Hp in Hc.
  change (pre ++ Closed :: post)%list with (pre ++ [Closed] ++ post)%list in Hc.
  rewrite app_assoc in Hc. apply app_inv_tail in Hc. subst c.
  unfold pending in Heq. rewrite Hr, app_nil_r in Heq. rewrite Heq.
  rewrite received_app. cbn [h0 world entries received omap].
  now rewrite app_nil_r.
Qed.

(** *** The size of the batches *)


Lemma len_app_one {A : Type} (l : list A) (x : A) :
  len (l ++ [x]) = (len l + 1)%Z.
Proof. unfold len. rewrite length_app. simpl. lia. Qed.

Lemma select_case_batches (cfg : EsConfig) (ev : event) (h : Handler) :
  (len (entries h) < batch_cap cfg)%Z ->
  exists new,
    flushes (world (select_case cfg ev h)) = (flushes (world h) ++ new)%list /\
    Forall (batch_ok cfg) new /\
    (len (entries (select_case cfg ev h)) < batch_cap cfg)%Z.
Proof.
  unfold batch_ok, batch_cap. intros Hlt.
  assert (H0 : (len (@nil LogEntry) < Z.max 1 (EntriesToHold cfg))%Z)
    by (unfold len; simpl; lia).
  destruct ev as [entry| |]; cbn [select_case].
  - destruct (EntriesToHold cfg <=? _)%Z eqn:E; cbn [world entries].
    + exists [(entries h ++ [entry])%list]. rewrite sendOrSave_flushes.
      split; [reflexivity|]. split; [|exact H0].
      apply Forall_singleton. split; [now destruct (entries h)|].
      rewrite len_app_one. lia.
    + exists []. rewrite app_nil_r. split; [reflexivity|].
      split; [constructor|]. apply Z.leb_gt in E. lia.
  - cbn [world entries]. destruct (0 <? len (entries h))%Z eqn:E.
    + exists [entries h]. rewrite sendOrSave_flushes.
      split; [reflexivity|]. split; [|exact Hlt].
      apply Forall_singleton. split; [now apply len_pos_iff|lia].
    + exists []. rewrite app_nil_r. split; [reflexivity|].
      split; [constructor|exact Hlt].
  - destruct (0 <? len (entries h))%Z eqn:E; cbn [world entries].
    + exists [entries h]. rewrite sendOrSave_flushes.
      split; [reflexivity|]. split; [|exact H0].
      apply Forall_singleton. split; [now apply len_pos_iff|lia].
    + exists []. rewrite app_nil_r. split; [reflexivity|].
      split; [constructor|exact Hlt].
Qed.

Lemma loop_batches (cfg : EsConfig) (fuel : nat) :
  forall (evs : list event) (h : Handler),
    (len (entries h) < batch_cap cfg)%Z ->
    exists new,
      flushes (world (fst (loop cfg fuel evs h))) = (flushes (world h) ++ new)%list /\
      Forall (batch_ok cfg) new /\
      (len (entries (fst (loop cfg fuel evs h))) < batch_cap cfg)%Z.
Proof.
  induction fuel as [|fuel IH]; intros evs h Hlt.
  - exists []. cbn [loop fst]. rewrite app_nil_r.
    split; [reflexivity|]. split; [constructor|exact Hlt].
  - cbn [loop].
    pose proof (processFailoverFiles_frame cfg (world h)) as Hf. cbv zeta in Hf.
    destruct (processFailoverFiles cfg (world h)) as [sent w1].
    cbn [snd] in Hf. destruct Hf as (_ & _ & Hfl & _).
    destruct sent.
    + destruct (IH evs (set_world w1 h) Hlt) as (new & Hn & Hall & Hlt').
      exists new. cbn [set_world world] in Hn. rewrite Hfl in Hn. now split.
    + destruct evs as [|ev evs'].
      * exists []. cbn [fst set_world world entries]. rewrite app_nil_r, Hfl.
        split; [reflexivity|]. split; [constructor|exact Hlt].
      * destruct (select_case_batches cfg ev (set_world w1 h) Hlt)
          as (new & Hn & Hall & Hlt').
        cbn [set_world world] in Hn. rewrite Hfl in Hn.
        destruct (state (select_case cfg ev (set_world w1 h))).
        -- destruct (IH evs' _ Hlt') as (new2 & Hn2 & Hall2 & Hlt2).
           exists (new ++ new2)%list. rewrite Hn2, Hn, app_assoc.
           split; [reflexivity|]. split; [now apply Forall_app|exact Hlt2].
        -- exists new. cbn [fst]. now split.
Qed.

(** X3: no batch the worker flushes is empty, and none holds more than
    [EntriesToHold] entries (more than one, if [EntriesToHold] is below
    one); the batch it holds stays strictly below that size. *)
Theorem entryHandler_batches (cfg : EsConfig) (fuel : nat) (evs : list event)
  (w : World) :
  let r := entryHandler cfg fuel evs w in
  exists new,
    flushes (world (fst r)) = (flushes w ++ new)%list /\
    Forall (fun b => b <> [] /\ (len b <= Z.max 1 (EntriesToHold cfg))%Z) new /\
    (len (entries (fst r)) < Z.max 1 (EntriesToHold cfg))%Z.
Proof.
  cbv zeta. unfold entryHandler. apply loop_batches.
  unfold batch_cap, len. simpl. lia.
Qed.

(** *** The size of the failover directory *)

Lemma n_entries_insert_le (d : gmap string node) (n : string) (x : node) :
  (n_entries (<[n := x]> d) <= n_entries d + 1)%Z.
Proof.
  unfold n_entries. destruct (d !! n) as [y|] eqn:E.
  - rewrite map_size_insert_Some by (rewrite E; eauto). lia.
  - rewrite map_size_insert_None by exact E. lia.
Qed.

Lemma sendOrSave_bound (cfg : EsConfig) (batch : list LogEntry) (w : World) :
  (n_entries (disk (sendOrSave cfg batch w)) <=
   Z.max (n_entries (disk w)) (MaxFailoverFiles cfg))%Z.
Proof.
  pose proof (sendOrSave_cases cfg batch w) as H. cbv zeta in H.
  destruct H as (_ & _ & _ & Hy & Hn).
  destruct (delivers_dec cfg w) as [Hd|Hd].
  - destruct (Hy Hd) as [-> _]. lia.
  - destruct (Hn Hd) as (err & _ & [(data & Hcan & -> & _)|(err2 & _ & -> & _)]);
      [|lia].
    destruct Hcan as (_ & _ & Hroom & _).
    pose proof (n_entries_insert_le (disk w) (next_name w) (File data)). lia.
Qed.

Lemma processFailoverFiles_bound (cfg : EsConfig) (w : World) :
  (n_entries (disk (snd (processFailoverFiles cfg w))) <= n_entries (disk w))%Z.
Proof.
  destruct (processFailoverFiles_disk cfg w)
    as [[_ ->]|(file & data & _ & Hl & ->)]; [lia|].
  unfold n_entries. pose proof (map_size_delete file (disk w)) as Hs.
  rewrite Hl in Hs. lia.
Qed.

Lemma select_case_bound (cfg : EsConfig) (ev : event) (h : Handler) :
  (n_entries (disk (world (select_case cfg ev h))) <=
   Z.max (n_entries (disk (world h))) (MaxFailoverFiles cfg))%Z.
Proof.
  pose proof (sendOrSave_bound cfg) as Hs.
  destruct ev as [entry| |]; cbn [select_case].
  - destruct (EntriesToHold cfg <=? _)%Z; cbn [world]; [apply Hs|lia].
  - cbn [world]. destruct (0 <? _)%Z; [apply Hs|lia].
  - destruct (0 <? _)%Z; cbn [world]; [apply Hs|lia].
Qed.

(** X4: the worker never makes the failover directory larger than the cap:
    after any number of iterations it holds at most [MaxFailoverFiles]
    entries, or as many as it held at the start if that was more. *)
Theorem loop_directory_bound (cfg : EsConfig) (fuel : nat) :
  forall (evs : list event) (h : Handler),
    (n_entries (disk (world (fst (loop cfg fuel evs h)))) <=
     Z.max (n_entries (disk (world h))) (MaxFailoverFiles cfg))%Z.
Proof.
  induction fuel as [|fuel IH]; intros evs h; cbn [loop]; [cbn [fst]; lia|].
  pose proof (processFailoverFiles_bound cfg (world h)) as Hp.
  destruct (processFailoverFiles cfg (world h)) as [sent w1]. cbn [snd] in Hp.
  destruct sent.
  - specialize (IH evs (set_world w1 h)). cbn [set_world world] in IH. lia.
  - destruct evs as [|ev evs']; [cbn [fst set_world world]; lia|].
    pose proof (select_case_bound cfg ev (set_world w1 h)) as Hs.
    cbn [set_world world] in Hs.
    destruct (state (select_case cfg ev (set_world w1 h))).
    + specialize (IH evs' (select_case cfg ev (set_world w1 h))). lia.
    + cbn [fst]. lia.
Qed.

(** *** From a failed flush to the retry that delivers it *)

(** Serializing an entry [Json] has trimmed gives the same document. *)
Lemma Json_again (entry : LogEntry) :
  Json (snd (Json entry)) = (fst (Json entry), snd (Json entry)).
Proof.
  rewrite Json_snd. unfold Json. cbn [set_Message Message].
  rewrite Trim_idem.
  change (set_Message (Trim (Message entry))
            (set_Message (Trim (Message entry)) entry))
    with (set_Message (Trim (Message entry)) entry).
  now destruct (json_Marshal _).
Qed.

Lemma bulk_body_again (index : string) (entrys : list LogEntry) :
  fst (bulk_body index (map (fun e => snd (Json e)) entrys)) =
  fst (bulk_body index entrys).
Proof.
  rewrite !bulk_body_fst.
  induction entrys as [|e rest IH]; [reflexivity|].
  cbn [map fold_right]. now rewrite IH, Json_again.
Qed.

Lemma sendOrSave_wire (cfg : EsConfig) (batch : list LogEntry) (w : World) :
  NewRequest_error (bulk_url cfg) = None ->
  wire (sendOrSave cfg batch w) =
  (wire w ++
   [bulk_request cfg (gzip (fst (bulk_body (ES_INDEX_NAME cfg) batch)))])%list.
Proof.
  intros Hn. unfold sendOrSave.
  pose proof (send_wire cfg batch (record_flush batch w) Hn) as Hw.
  destruct (sendToElasticsearch (Some cfg) batch (record_flush batch w))
    as [[err es'] w1].
  cbn [snd record_flush wire] in Hw.
  destruct err as [err|]; [|exact Hw].
  set (w2 := Println _ w1).
  pose proof (save_frame cfg es' w2) as Hsf. cbv zeta in Hsf.
  destruct Hsf as (_ & _ & Sw & _).
  destruct (saveBatchToDisk cfg es' w2) as [r w3]. cbn [snd] in Sw.
  destruct r; cbn [Println wire]; rewrite Sw; exact Hw.
Qed.

(** X5: a batch whose delivery failed and that was saved under a free name
    is, once the decoder reads the record back and the cycle selects it
    while the server accepts requests, sent again with the very payload of
    the failed attempt, and the record is removed: the directory is what it
    was before the failure. *)
Theorem failover_roundtrip (cfg : EsConfig) (es : list LogEntry) (w : World)
  (data : string) :
  let batch := map (fun e => snd (Json e)) es in
  let req :=
    bulk_request cfg (gzip (fst (bulk_body (ES_INDEX_NAME cfg) es))) in
  let w1 := sendOrSave cfg es w in
  ~ delivers cfg w ->
  can_save cfg batch w data ->
  disk w !! next_name w = None ->
  json_Unmarshal data = Ok batch ->
  selected w1 = Some (next_name w) ->
  delivers cfg w1 ->
  disk w1 !! next_name w = Some (File data) /\
  fst (processFailoverFiles cfg w1) = true /\
  disk (snd (processFailoverFiles cfg w1)) = disk w /\
  wire (snd (processFailoverFiles cfg w1)) = (wire w ++ [req; req])%list.
Proof.
  cbv zeta. intros Hnd Hcan Hfree Hun Hsel Hdel.
  pose proof (sendOrSave_cases cfg es w) as H. cbv zeta in H.
  destruct H as (_ & _ & _ & _ & H).
  destruct (H Hnd) as (err & _ & [(data' & Hcan' & Hdisk & _)|(e2 & Hno & _)]);
    [|exfalso; exact (can_cannot_save _ _ _ _ Hcan Hno)].
  assert (data' = data) as ->.
  { destruct Hcan as (_ & _ & _ & Hj & _).
    destruct Hcan' as (_ & _ & _ & Hj' & _). congruence. }
  assert (Hl : disk (sendOrSave cfg es w) !! next_name w = Some (File data)).
  { rewrite Hdisk. apply lookup_insert_eq. }
  split; [exact Hl|].
  assert (Hd : FailoverDir cfg <> EmptyString) by (now destruct Hcan).
  pose proof (processFailoverFiles_cases cfg (sendOrSave cfg es w) Hd) as Hp.
  cbv zeta in Hp. rewrite Hsel, Hl, Hun in Hp.
  destruct Hp as (Hy & _ & Hw & _).
  destruct (Hy Hdel) as [Ht Hdisk'].
  assert (Hreq : NewRequest_error (bulk_url cfg) = None) by (now destruct Hdel).
  split; [exact Ht|]. split.
  - rewrite Hdisk', Hdisk. rewrite delete_insert_eq. now apply delete_id.
  - rewrite (Hw Hreq), (sendOrSave_wire cfg es w Hreq), bulk_body_again.
    now rewrite <- app_assoc.
Qed.

(** *** Draining the backlog *)


Lemma Glob_delete (w w' : World) (file : string) (x : node) :
  dir_fault w = None -> dir_fault w' = None ->
  disk w' = delete file (disk w) ->
  disk w !! file = Some x -> is_record file = true ->
  (forall n, n ∈ Glob w' -> n ∈ Glob w /\ disk w' !! n = disk w !! n) /\
  (glob_count w' + 1 = glob_count w)%nat.
Proof.
  intros Hf Hf' Hd Hl Hr. split.
  - intros n Hn. apply elem_of_Glob in Hn as (Hnf & Hrec & Hs).
    rewrite Hd in Hs. destruct (decide (n = file)) as [->|Hne].
    + rewrite lookup_delete_eq in Hs. now destruct Hs.
    + rewrite lookup_delete_ne in Hs by congruence. split.
      * apply elem_of_Glob. now repeat split.
      * rewrite Hd. now rewrite lookup_delete_ne by congruence.
  - pose proof (count_delete (disk w) file x Hl) as Hc. rewrite Hr in Hc.
    unfold glob_count, Glob. rewrite Hf, Hf', Hd.
    fold (names (delete file (disk w))). fold (names (disk w)).
    unfold is_record in Hc. lia.
Qed.

Lemma always_ok_delivers (cfg : EsConfig) (w : World) :
  NewRequest_error (bulk_url cfg) = None -> always_ok w -> delivers cfg w.
Proof. intros Hn Hok. split; [exact Hn|]. apply Hok. Qed.

Lemma set_world_id (h : Handler) : set_world (world h) h = h.
Proof. now destruct h. Qed.

Lemma loop_drains (cfg : EsConfig) (k : nat) :
  forall (h : Handler) (evs : list event) (n : nat),
    FailoverDir cfg <> EmptyString ->
    NewRequest_error (bulk_url cfg) = None ->
    always_ok (world h) -> all_valid (world h) ->
    glob_count (world h) = k ->
    exists w',
      loop cfg (k + n) evs h = loop cfg n evs (set_world w' h) /\
      Glob w' = [] /\
      List.length (wire w') = (List.length (wire (world h)) + k)%nat /\
      flushes w' = flushes (world h).
Proof.
  induction k as [|k IH]; intros h evs n Hd Hn Hok Hval Hk.
  - exists (world h). rewrite set_world_id. split; [reflexivity|].
    split; [now apply length_zero_iff_nil|]. split; [lia|reflexivity].
  - cbn [Nat.add loop].
    pose proof (processFailoverFiles_cases cfg (world h) Hd) as Hc.
    pose proof (processFailoverFiles_frame cfg (world h)) as Hfr.
    cbv zeta in Hc, Hfr.
    destruct (selected (world h)) as [file|] eqn:Es.
    2:{ apply selected_None in Es. unfold glob_count in Hk.
        rewrite Es in Hk. discriminate. }
    pose proof Es as Hsel.
    apply selected_least in Hsel as (Hnf & Hrec & Hsome & _).
    assert (Hin : file ∈ Glob (world h)) by (apply elem_of_Glob; now repeat split).
    destruct (Hval file Hin) as (data & es & Hl & Hu).
    rewrite Hl, Hu in Hc. destruct Hc as (Hy & _ & Hw & _).
    destruct (Hy (always_ok_delivers cfg _ Hn Hok)) as [Ht Hdisk].
    specialize (Hw Hn).
    destruct (processFailoverFiles cfg (world h)) as [sent w1].
    cbn [fst snd] in *. subst sent.
    destruct Hfr as (Hf1 & Hnet & Hfl & _).
    assert (Hf1' : dir_fault w1 = None) by congruence.
    destruct (Glob_delete (world h) w1 file _ Hnf Hf1' Hdisk Hl Hrec)
      as [Hsub Hcnt].
    destruct (IH (set_world w1 h) evs n) as (w' & I1 & I2 & I3 & I4);
      [exact Hd|exact Hn| | |cbn [set_world world]; lia|].
    + intros j. cbn [set_world world]. rewrite Hnet. apply Hok.
    + intros m Hm. cbn [set_world world] in *.
      destruct (Hsub m Hm) as [Hin' Heq]. rewrite Heq. now apply Hval.
    + exists w'. split; [exact I1|]. split; [exact I2|].
      cbn [set_world world] in I3, I4. split; [|congruence].
      rewrite I3, Hw, length_app. simpl. lia.
Qed.

(** X6: when every request is accepted and every record at rest is a regular
    file that can be read back, the first iterations of the loop, as many as
    there are records, deliver and delete one record each and read no event:
    the loop goes on from a directory without records, with one request on
    the wire for each, and nothing flushed meanwhile. *)
Theorem backlog_drains (cfg : EsConfig) (h : Handler) (evs : list event)
  (n : nat) :
  FailoverDir cfg <> EmptyString ->
  NewRequest_error (bulk_url cfg) = None ->
  always_ok (world h) -> all_valid (world h) ->
  exists w',
    loop cfg (glob_count (world h) + n) evs h = loop cfg n evs (set_world w' h) /\
    Glob w' = [] /\
    List.length (wire w') =
      (List.length (wire (world h)) + glob_count (world h))%nat /\
    flushes w' = flushes (world h).
Proof.
  intros Hd Hn Hok Hval.
  exact (loop_drains cfg (glob_count (world h)) h evs n Hd Hn Hok Hval eq_refl).
Qed.

(** *** Retry order on a real clock *)


(** A numeral without a leading zero is at least the power of ten of its
    width less one. *)
Lemma decimal_value_low (d : Decimal.uint) :
  d <> Decimal.Nil -> leading_zero d = false ->
  (10 ^ (width d - 1) <= decimal_value 0 d)%N.
Proof.
  intros Hnil Hz.
  destruct d as [|l|l|l|l|l|l|l|l|l|l]; try congruence; try discriminate;
    cbn [decimal_value]; rewrite decimal_value_split;
    unfold width; cbn [Decimal.nb_digits]; rewrite Nat2N.inj_succ;
    replace (N.succ (N.of_nat (Decimal.nb_digits l)) - 1)%N
      with (N.of_nat (Decimal.nb_digits l)) by lia;
    nia.
Qed.

Lemma to_uint_no_leading_zero (p : positive) :
  leading_zero (Pos.to_uint p) = false.
Proof.
  pose proof (DecimalPos.Unsigned.to_of (Pos.to_uint p)) as H.
  rewrite DecimalPos.Unsigned.of_to in H. cbn [N.to_uint] in H.
  pose proof (DecimalPos.Unsigned.to_uint_nonzero p) as Hnz.
  destruct (Pos.to_uint p) as [|l|l|l|l|l|l|l|l|l|l] eqn:E; try reflexivity.
  exfalso.
  destruct (Decimal.uint_eq_dec l Decimal.Nil) as [->|Hl].
  - apply Hnz. reflexivity.
  - pose proof (DecimalFacts.nb_digits_unorm l Hl) as Hle.
    change (Decimal.unorm (Decimal.D0 l)) with (Decimal.unorm l) in H.
    rewrite <- H in Hle. cbn [Decimal.nb_digits] in Hle. lia.
Qed.

(** The nanosecond counts of the years 2001 to 2262 are written with 19
    digits. *)
Lemma itoa_19_digits (t : Z) :
  (10 ^ 18 <= t < 10 ^ 19)%Z -> String.length (itoa t) = 19%nat.
Proof.
  intros [Hlo Hhi]. destruct t as [|p|p]; try lia.
  rewrite itoa_pos, length_string_of_uint.
  pose proof (decimal_value_bound (Pos.to_uint p)) as Hb.
  pose proof (decimal_value_low (Pos.to_uint p)
                (DecimalPos.Unsigned.to_uint_nonnil p)
                (to_uint_no_leading_zero p)) as Hl.
  rewrite decimal_value_to_uint in Hb, Hl. unfold width in *.
  set (n := Decimal.nb_digits (Pos.to_uint p)) in *.
  assert (H18 : (N.pos p < 10 ^ 19)%N) by lia.
  assert (H19 : (10 ^ 18 <= N.pos p)%N) by lia.
  assert (Hn1 : (18 < N.of_nat n)%N).
  { apply (N.pow_lt_mono_r_iff 10); lia. }
  assert (Hn2 : (N.of_nat n - 1 < 19)%N).
  { apply (N.pow_lt_mono_r_iff 10); lia. }
  lia.
Qed.

(** X7: for clock readings between 10^18 and 10^19 nanoseconds (the years
    2001 to 2262), which [%d] writes with 19 digits, the record a cycle
    selects is the oldest: no record at rest was written at an earlier
    reading. *)
Theorem retry_oldest_first (w : World) (t1 t2 : Z) :
  (10 ^ 18 <= t1 < 10 ^ 19)%Z -> (10 ^ 18 <= t2 < 10 ^ 19)%Z ->
  selected w = Some (batch_name t1) ->
  is_Some (disk w !! batch_name t2) ->
  (t1 <= t2)%Z.
Proof.
  intros H1 H2 Hsel Hin.
  apply (selected_oldest_same_width w t1 t2); try assumption; try lia.
  now rewrite !itoa_19_digits.
Qed.

(** *** One entry, two sinks *)

(** X8: the line [String] renders for an entry is the same before and after
    [Json] trimmed its message in place, and [Json] returns the same
    document when called again; so the lines of a batch are the same after a
    delivery attempt as before. The two sinks share each entry, and the file
    sink's output does not depend on which of them sees it first. *)
Theorem String_blind_to_Json (entry : LogEntry) (cfg : EsConfig)
  (entrys : list LogEntry) (w : World) :
  fst (String_ (snd (Json entry))) = fst (String_ entry) /\
  fst (Json (snd (Json entry))) = fst (Json entry) /\
  map (fun e => fst (String_ e))
      (snd (fst (sendToElasticsearch (Some cfg) entrys w))) =
  map (fun e => fst (String_ e)) entrys.
Proof.
  assert (H : forall e, fst (String_ (snd (Json e))) = fst (String_ e)).
  { intros e. rewrite Json_snd. unfold String_.
    cbn [fst set_Message Fields Level Timestamp Message].
    now rewrite Trim_idem. }
  split; [apply H|]. split; [now rewrite Json_again|].
  rewrite send_entries, map_map. apply map_ext. intros e. apply H.
Qed.

End Worker.

(** ** The front end *)

Section FrontFacts.

Context `{L : Lib} `{F : Fmt}.

Set Default Proof Using "Type".


Lemma take_snoc {A : Type} (l : list A) (x : A) :
  take (List.length (l ++ [x]) - 1) (l ++ [x]) = l.
Proof.
  rewrite length_app. simpl.
  replace (List.length l + 1 - 1)%nat with (List.length l) by lia.
  now rewrite take_app_length.
Qed.

(** X9: [getFields] looks at the last operand only. Of no operands it
    returns none and nil fields; a last operand that is a map (typed
    [map[string]any] or [Fields], nil or not) is taken off and returned as
    the fields; any other last operand leaves the operands as they are, with
    nil fields, whatever maps precede it. What it returns is always the
    operands less at most their last one. *)
Theorem getFields_last_only (v : list operand) :
  (v = [] -> getFields v = ([], None)) /\
  (forall init x m,
     v = (init ++ [x])%list -> as_map x = Some m -> getFields v = (init, m)) /\
  (forall init x,
     v = (init ++ [x])%list -> as_map x = None -> getFields v = (v, None)) /\
  (exists rest, v = (fst (getFields v) ++ rest)%list /\
                (List.length rest <= 1)%nat).
Proof.
  split; [intros ->; reflexivity|]. split; [|split].
  - intros init x m -> Hx. unfold getFields. rewrite last_snoc.
    destruct x as [a|m'|m']; simplify_eq/=; now rewrite take_snoc.
  - intros init x -> Hx. unfold getFields. rewrite last_snoc.
    destruct x as [a|m'|m']; simplify_eq/=; reflexivity.
  - destruct (decide (v = [])) as [->|Hne].
    + exists []. split; [reflexivity|simpl; lia].
    + destruct (exists_last Hne) as (init & x & ->).
      unfold getFields. rewrite last_snoc.
      destruct x as [a|m'|m']; cbn [fst];
        [exists []; rewrite app_nil_r; simpl; split; [reflexivity|lia]
        |rewrite take_snoc; exists [MapArg m']; simpl; split; [reflexivity|lia]
        |rewrite take_snoc; exists [FieldsArg m']; simpl; split; [reflexivity|lia]].
Qed.

(** *** Building an entry *)

Lemma entry_run (level : LogLevel) (v : list operand) (g : Front) :
  Frontend.entry level v g =
  Done {| AppType := appType g; Timestamp := stamp g (stamps_read g);
          Level := level; Message := Sprint (fst (getFields v));
          Fields := snd (getFields v) |}
       (final (now_stamp g)).
Proof.
  unfold Frontend.entry. destruct (getFields v) as [vout fields]. reflexivity.
Qed.

(** X10: given that [fmt.Sprint] of one string is that string, [entryf]
    builds the entry whose message is [Sprintf] of the format and the
    operands less a trailing map, whose fields are that map (nil without
    one), stamped with the application type and one reading of the clock.
    The fields it passes on to [entry] never reach the message, not even
    when they are nil. *)
Theorem entryf_builds (level : LogLevel) (format : string) (v : list operand)
  (g : Front) :
  (forall s, Sprint [Plain (AnyString s)] = s) ->
  Frontend.entryf level format v g =
  Done {| AppType := appType g; Timestamp := stamp g (stamps_read g);
          Level := level; Message := Sprintf format (fst (getFields v));
          Fields := snd (getFields v) |}
       (final (now_stamp g)).
Proof.
  intros Hs. unfold Frontend.entryf.
  destruct (getFields v) as [vout fields]. rewrite entry_run.
  assert (Hg : getFields [Plain (AnyString (Sprintf format vout)); FieldsArg fields]
               = ([Plain (AnyString (Sprintf format vout))], fields))
    by reflexivity.
  rewrite Hg. cbn [fst snd]. now rewrite Hs.
Qed.

(** *** Sending an entry to the sinks *)

Lemma Contains_level_elem (levels : list LogLevel) (level : LogLevel) :
  Contains_level levels level = true <-> level ∈ levels.
Proof.
  unfold Contains_level. rewrite existsb_exists. split.
  - intros (x & Hin & He). apply String.eqb_eq in He. subst x.
    now apply list_elem_of_In.
  - intros Hin. exists level. split; [now apply list_elem_of_In|].
    apply String.eqb_refl.
Qed.

(** X11: an entry whose level is in [filterLevels] goes nowhere: [send]
    returns at once and leaves the state as it is, printing nothing and
    touching no channel, even a closed or full one. *)
Theorem send_filtered (e : LogEntry) (g : Front) (levels : list LogLevel) :
  filterLevels (loggers g) = Some levels ->
  Level e ∈ levels ->
  Frontend.send e g = Done tt g.
Proof.
  intros Hf Hin. unfold Frontend.send, bind, gets. rewrite Hf.
  apply Contains_level_elem in Hin. now rewrite Hin.
Qed.


Lemma passes_filter (e : LogEntry) (g : Front) :
  passes e g ->
  match filterLevels (loggers g) with
  | Some levels => Contains_level levels (Level e)
  | None => false
  end = false.
Proof.
  intros Hp. destruct (filterLevels (loggers g)) as [levels|] eqn:E;
    [|reflexivity].
  destruct (Contains_level levels (Level e)) eqn:Ec; [|reflexivity].
  apply Contains_level_elem in Ec. now apply Hp in Ec.
Qed.

Lemma chan_send_room (e : LogEntry) (c : option chan) :
  has_room c ->
  exists ch', chan_send e c = inl (Some ch') /\
              buf ch' = (queued c ++ [e])%list /\ chan_closed ch' = false /\
              (exists ch, c = Some ch /\ cap ch' = cap ch).
Proof.
  intros (ch & -> & Hc & Hr). unfold chan_send. rewrite Hc.
  apply Z.ltb_lt in Hr. rewrite Hr. eexists. split; [reflexivity|].
  cbn. repeat split. now exists ch.
Qed.

(** An entry that passes the filter reaches every sink in use, when the
    channels have room. *)
Lemma send_room (e : LogEntry) (g : Front) :
  passes e g ->
  (useEsLogger (loggers g) = true -> has_room (esEntryChannel (loggers g))) ->
  (useFailLogger (loggers g) = true -> has_room (fileEntryChannel (loggers g))) ->
  exists g',
    Frontend.send e g = Done tt g' /\
    stdout g' =
      (stdout g ++
       if useStdoutLogger (loggers g) then [fst (String_ e)] else [])%list /\
    queued (esEntryChannel (loggers g')) =
      (queued (esEntryChannel (loggers g)) ++
       if useEsLogger (loggers g) then [e] else [])%list /\
    queued (fileEntryChannel (loggers g')) =
      (queued (fileEntryChannel (loggers g)) ++
       if useFailLogger (loggers g) then [e] else [])%list /\
    useStdoutLogger (loggers g') = useStdoutLogger (loggers g) /\
    useEsLogger (loggers g') = useEsLogger (loggers g) /\
    useFailLogger (loggers g') = useFailLogger (loggers g) /\
    filterLevels (loggers g') = filterLevels (loggers g) /\
    stamps_read g' = stamps_read g.
Proof.
  intros Hp Hes Hfile. unfold Frontend.send, bind, gets.
  rewrite (passes_filter e g Hp).
  destruct (useStdoutLogger (loggers g)) eqn:Eo;
    destruct (useEsLogger (loggers g)) eqn:Ee;
    destruct (useFailLogger (loggers g)) eqn:Ef;
    cbn [when modify ret];
    unfold Frontend.send_es, Frontend.send_file; cbn [loggers print set_loggers];
    try (destruct (chan_send_room e _ (Hes eq_refl)) as (c1 & -> & Hb1 & _));
    cbn [loggers print set_loggers set_esEntryChannel fileEntryChannel
           esEntryChannel];
    try (destruct (chan_send_room e _ (Hfile eq_refl)) as (c2 & -> & Hb2 & _));
    eexists; (split; [reflexivity|]);
    cbn [stdout loggers print set_loggers set_esEntryChannel
           set_fileEntryChannel esEntryChannel fileEntryChannel queued
           useStdoutLogger useEsLogger useFailLogger filterLevels stamps_read];
    rewrite ?app_nil_r, ?Eo, ?Ee, ?Ef; repeat split; try assumption;
    try reflexivity.
Qed.


(** X12: an entry whose level passes the filter is printed on stdout when
    the stdout logger is on, and appended to the channel of every sink in
    use, given that these have room; the channels of the sinks not in use
    are left alone. When the Elasticsearch sink is in use and its channel is
    full, the caller is parked after the line was printed and before
    anything was queued. *)
Theorem send_reaches_sinks (e : LogEntry) (g : Front) :
  passes e g ->
  ((useEsLogger (loggers g) = true -> has_room (esEntryChannel (loggers g))) ->
   (useFailLogger (loggers g) = true -> has_room (fileEntryChannel (loggers g))) ->
   exists g',
     Frontend.send e g = Done tt g' /\
     stdout g' =
       (stdout g ++
        if useStdoutLogger (loggers g) then [fst (String_ e)] else [])%list /\
     queued (esEntryChannel (loggers g')) =
       (queued (esEntryChannel (loggers g)) ++
        if useEsLogger (loggers g) then [e] else [])%list /\
     queued (fileEntryChannel (loggers g')) =
       (queued (fileEntryChannel (loggers g)) ++
        if useFailLogger (loggers g) then [e] else [])%list) /\
  (useEsLogger (loggers g) = true -> is_full (esEntryChannel (loggers g)) ->
   exists g',
     Frontend.send e g = Blocked g' /\
     stdout g' =
       (stdout g ++
        if useStdoutLogger (loggers g) then [fst (String_ e)] else [])%list /\
     loggers g' = loggers g).
Proof.
  intros Hp. split.
  - intros Hes Hfile.
    destruct (send_room e g Hp Hes Hfile) as (g' & H1 & H2 & H3 & H4 & _).
    exists g'. now repeat split.
  - intros Huse (ch & Hch & Hopen & Hfull).
    unfold Frontend.send, bind, gets. rewrite (passes_filter e g Hp), Huse.
    assert (Hs : chan_send e (Some ch) = inr None).
    { unfold chan_send. rewrite Hopen.
      destruct (len (buf ch) <? cap ch)%Z eqn:E; [|reflexivity].
      apply Z.ltb_lt in E. lia. }
    destruct (useStdoutLogger (loggers g)); cbn [when modify ret];
      unfold Frontend.send_es; cbn [loggers print]; rewrite Hch, Hs;
      eexists; (split; [reflexivity|]); cbn [stdout print loggers];
      rewrite ?app_nil_r; now split.
Qed.

(** *** After [CLose] *)

Lemma chan_close_closed (c c' : option chan) :
  chan_close c = inl c' ->
  chan_close c' = inr "close of closed channel" /\
  forall e, chan_send e c' = inr (Some "send on closed channel").
Proof.
  unfold chan_close. destruct c as [ch|]; [|discriminate].
  destruct (chan_closed ch); [discriminate|]. intros [= <-]. now cbn.
Qed.

(** X13: [CLose] closes the channels but leaves the sinks in use. After a
    [CLose] that returned, with a sink in use, a second [CLose] panics on
    the closed channel, and [send] of an entry that passes the filter panics
    too, after it printed the line when the stdout logger is on. *)
Theorem use_after_CLose (e : LogEntry) (g g1 : Front) :
  Frontend.CLose g = Done tt g1 ->
  useEsLogger (loggers g) = true \/ useFailLogger (loggers g) = true ->
  passes e g ->
  Frontend.CLose g1 = Panicked "close of closed channel" g1 /\
  Frontend.send e g1 =
    Panicked "send on closed channel"
      (if useStdoutLogger (loggers g) then print (fst (String_ e)) g1 else g1).
Proof.
  intros Hc Huse Hp.
  assert (Hpass : match filterLevels (loggers g1) with
                  | Some levels => Contains_level levels (Level e)
                  | None => false
                  end = false /\
                  useStdoutLogger (loggers g1) = useStdoutLogger (loggers g) /\
                  useEsLogger (loggers g1) = useEsLogger (loggers g) /\
                  useFailLogger (loggers g1) = useFailLogger (loggers g) /\
                  (useEsLogger (loggers g) = true ->
                   exists c, chan_close (esEntryChannel (loggers g)) = inl c /\
                             esEntryChannel (loggers g1) = c) /\
                  (useFailLogger (loggers g) = true ->
                   exists c, chan_close (fileEntryChannel (loggers g)) = inl c /\
                             fileEntryChannel (loggers g1) = c)).
  { pose proof (passes_filter e g Hp) as Hpf.
    unfold Frontend.CLose, bind, gets in Hc.
    destruct (useEsLogger (loggers g)) eqn:Ee; cbn [when ret] in Hc.
    - unfold Frontend.es_close in Hc.
      destruct (chan_close (esEntryChannel (loggers g))) as [c|msg] eqn:E1;
        [|discriminate].
      cbn [loggers set_loggers set_esEntryChannel useFailLogger] in Hc.
      destruct (useFailLogger (loggers g)) eqn:Ef; cbn [when ret] in Hc.
      + unfold Frontend.file_close in Hc.
        cbn [loggers set_loggers set_esEntryChannel fileEntryChannel] in Hc.
        destruct (chan_close (fileEntryChannel (loggers g))) as [c2|msg] eqn:E2;
          [|discriminate].
        injection Hc as <-. cbn. rewrite Ee, Ef.
        repeat split; try assumption; intros _; eauto.
      + injection Hc as <-. cbn. rewrite Ee, Ef.
        repeat split; try assumption; try discriminate; intros _; eauto.
    - destruct (useFailLogger (loggers g)) eqn:Ef; cbn [when ret] in Hc.
      + unfold Frontend.file_close in Hc.
        destruct (chan_close (fileEntryChannel (loggers g))) as [c2|msg] eqn:E2;
          [|discriminate].
        injection Hc as <-. cbn. rewrite Ee, Ef.
        repeat split; try assumption; try discriminate; intros _; eauto.
      + destruct Huse; discriminate. }
  destruct Hpass as (Hpf & Ho & He & Hf & Hec & Hfc).
  split.
  - unfold Frontend.CLose, bind, gets. rewrite He.
    destruct (useEsLogger (loggers g)) eqn:Ee; cbn [when ret].
    + destruct (Hec eq_refl) as (c & Hc1 & Hc2).
      apply chan_close_closed in Hc1 as [Hcl _].
      unfold Frontend.es_close. now rewrite Hc2, Hcl.
    + rewrite Hf. destruct Huse as [Hu|Hu]; [discriminate|]. rewrite Hu.
      cbn [when]. destruct (Hfc Hu) as (c & Hc1 & Hc2).
      apply chan_close_closed in Hc1 as [Hcl _].
      unfold Frontend.file_close. now rewrite Hc2, Hcl.
  - unfold Frontend.send, bind, gets. rewrite Hpf, Ho, He, Hf.
    destruct (useEsLogger (loggers g)) eqn:Ee.
    + destruct (Hec eq_refl) as (c & Hc1 & Hc2).
      apply chan_close_closed in Hc1 as [_ Hs].
      destruct (useStdoutLogger (loggers g)); cbn [when modify ret];
        unfold Frontend.send_es; cbn [loggers print]; now rewrite Hc2, Hs.
    + destruct Huse as [Hu|Hu]; [discriminate|]. rewrite Hu.
      destruct (Hfc Hu) as (c & Hc1 & Hc2).
      apply chan_close_closed in Hc1 as [_ Hs].
      destruct (useStdoutLogger (loggers g)); cbn [when modify ret];
        unfold Frontend.send_file; cbn [loggers print]; now rewrite Hc2, Hs.
Qed.

(** *** [strings.Index] and slicing *)

Lemma strlen_cons (c : ascii) (s : string) : strlen (String c s) = (strlen s + 1)%Z.
Proof. unfold strlen. simpl. lia. Qed.

Lemma strlen_app (a b : string) : strlen (a +:+ b) = (strlen a + strlen b)%Z.
Proof. unfold strlen. rewrite length_append. lia. Qed.

Lemma strlen_nonneg (s : string) : (0 <= strlen s)%Z.
Proof. unfold strlen. lia. Qed.

Lemma HasPrefix_strlen (s prefix : string) :
  HasPrefix s prefix = true -> (strlen prefix <= strlen s)%Z.
Proof.
  revert s. induction prefix as [|a p IH]; intros s H.
  - apply strlen_nonneg.
  - destruct s as [|b s]; [discriminate|]. simpl in H.
    apply andb_true_iff in H as [_ H]. apply IH in H.
    rewrite !strlen_cons. lia.
Qed.

Lemma Index_zero_iff (s substr : string) :
  Index s substr = 0%Z <-> HasPrefix s substr = true.
Proof.
  destruct s as [|c s]; cbn [Index].
  - destruct (HasPrefix EmptyString substr); split; intros H;
      try reflexivity; discriminate H.
  - destruct (HasPrefix (String c s) substr); [now split|].
    split; [|discriminate].
    destruct (Index s substr <? 0)%Z eqn:E; [discriminate|].
    apply Z.ltb_ge in E. lia.
Qed.

(** An occurrence found lies inside the string. *)
Lemma Index_range (s substr : string) :
  (-1 <= Index s substr)%Z /\
  ((0 <= Index s substr)%Z -> (Index s substr + strlen substr <= strlen s)%Z).
Proof.
  induction s as [|c s IH]; cbn [Index].
  - destruct (HasPrefix EmptyString substr) eqn:E.
    + split; [lia|]. intros _. apply HasPrefix_strlen in E. lia.
    + split; lia.
  - destruct (HasPrefix (String c s) substr) eqn:E.
    + split; [lia|]. intros _. apply HasPrefix_strlen in E. lia.
    + destruct (Index s substr <? 0)%Z eqn:E2; [split; lia|].
      apply Z.ltb_ge in E2. rewrite strlen_cons. split; [lia|].
      intros _. destruct IH as [_ IH]. specialize (IH E2). lia.
Qed.

Lemma length_substring_le (s : string) :
  forall n m, (String.length (substring n m s) <= m)%nat.
Proof.
  induction s as [|c s IH]; intros [|n] [|m]; simpl; try lia.
  - specialize (IH 0%nat m). lia.
  - apply (IH n 0%nat).
  - apply (IH n (S m)).
Qed.

(** Cutting a string behind the first occurrence of a separator never
    leaves its bounds. *)
Lemma slice_behind (p sep : string) :
  (strlen sep = 1)%Z ->
  exists rest, slice p (Index p sep + 1) (strlen p) = Some rest /\
               (strlen rest <= strlen p)%Z.
Proof.
  intros Hsep. destruct (Index_range p sep) as [Hlo Hhi].
  unfold slice.
  assert (H1 : (0 <=? Index p sep + 1)%Z = true) by (apply Z.leb_le; lia).
  assert (H2 : (Index p sep + 1 <=? strlen p)%Z = true).
  { apply Z.leb_le. destruct (Z.eq_dec (Index p sep) (-1)%Z) as [->|Hne].
    - pose proof (strlen_nonneg p). lia.
    - assert (0 <= Index p sep)%Z by lia. specialize (Hhi H). lia. }
  rewrite H1, H2, Z.leb_refl. cbn [andb]. eexists. split; [reflexivity|].
  unfold strlen in *.
  pose proof (length_substring_le p (Z.to_nat (Index p sep + 1))
                (Z.to_nat (Z.of_nat (String.length p) - (Index p sep + 1)))).
  lia.
Qed.

Lemma HasPrefix_char (a b : ascii) (s : string) :
  HasPrefix (String b s) (String a EmptyString) = Ascii.eqb a b.
Proof. cbn [HasPrefix]. destruct s; cbn [HasPrefix]; apply andb_true_r. Qed.

Lemma slice_level (p : string) :
  HasPrefix p "[" = true -> Contains p "]" = true ->
  exists level, slice p (Index p "[" + 1) (Index p "]") = Some level.
Proof.
  intros Hp Hc. unfold Contains in Hc. apply Z.leb_le in Hc.
  assert (H0 : Index p "[" = 0%Z) by (now apply Index_zero_iff).
  assert (H1 : Index p "]" <> 0%Z).
  { intros H. apply Index_zero_iff in H.
    destruct p as [|b p]; [discriminate|].
    rewrite HasPrefix_char in Hp, H.
    apply Ascii.eqb_eq in Hp, H. congruence. }
  destruct (Index_range p "]") as [_ Hhi]. specialize (Hhi Hc).
  change (strlen "]") with 1%Z in Hhi.
  unfold slice. rewrite H0.
  assert (E1 : (0 + 1 <=? Index p "]")%Z = true) by (apply Z.leb_le; lia).
  assert (E2 : (Index p "]" <=? strlen p)%Z = true) by (apply Z.leb_le; lia).
  rewrite E1, E2. cbn [Z.leb andb]. eauto.
Qed.

(** What [Write] does once the default level is not [LevelNone]: it
    builds one entry from what it cut out of the line, sends it, and
    returns the length of what was left of the line. *)
Lemma Write_run (p : string) (g : Front) :
  String.eqb (LevelDefault g) LevelNone = false ->
  exists level rest,
    (strlen rest <= strlen p)%Z /\
    Frontend.Write p g =
    bind (Frontend.entry level [Plain (AnyString (TrimSpace rest))])
      (fun e => bind (Frontend.send e) (fun _ => ret (strlen rest))) g.
Proof.
  intros Hd. unfold Frontend.Write.
  unfold bind at 1. unfold gets at 1. rewrite Hd.
  destruct (slice_behind p " " eq_refl) as (p1 & E1 & L1).
  destruct (slice_behind p1 " " eq_refl) as (p2 & E2 & L2).
  unfold sliced. unfold bind at 1. rewrite E1. unfold ret at 1.
  unfold bind at 1. rewrite E2. unfold ret at 1.
  destruct (HasPrefix p2 "[" && Contains p2 "]") eqn:Eb.
  - apply andb_true_iff in Eb as [Hp Hc].
    destruct (slice_level p2 Hp Hc) as (level & E3).
    destruct (slice_behind p2 "]" eq_refl) as (p3 & E4 & L4).
    exists level, p3. split; [lia|].
    unfold bind at 1. unfold bind at 1. rewrite E3. unfold ret at 1.
    unfold bind at 1. rewrite E4. unfold ret at 1. reflexivity.
  - exists (LevelDefault g), p2. split; [lia|]. reflexivity.
Qed.

Lemma chan_send_panics (e : LogEntry) (c : option chan) (msg : string) :
  chan_send e c = inr (Some msg) -> msg = "send on closed channel".
Proof.
  unfold chan_send. destruct c as [ch|]; [|discriminate].
  destruct (chan_closed ch); [congruence|].
  destruct (len (buf ch) <? cap ch)%Z; discriminate.
Qed.

Lemma send_es_panics (e : LogEntry) (g g' : Front) (msg : string) :
  Frontend.send_es e g = Panicked msg g' -> msg = "send on closed channel".
Proof.
  unfold Frontend.send_es.
  destruct (chan_send e _) as [c|[m|]] eqn:E; try discriminate.
  intros [= <- <-]. now apply chan_send_panics in E.
Qed.

Lemma send_file_panics (e : LogEntry) (g g' : Front) (msg : string) :
  Frontend.send_file e g = Panicked msg g' -> msg = "send on closed channel".
Proof.
  unfold Frontend.send_file.
  destruct (chan_send e _) as [c|[m|]] eqn:E; try discriminate.
  intros [= <- <-]. now apply chan_send_panics in E.
Qed.

Lemma send_panics (e : LogEntry) (g g' : Front) (msg : string) :
  Frontend.send e g = Panicked msg g' -> msg = "send on closed channel".
Proof.
  unfold Frontend.send. unfold bind at 1. unfold gets at 1.
  destruct (match filterLevels (loggers g) with
            | Some levels => Contains_level levels (Level e)
            | None => false
            end); [discriminate|].
  unfold bind at 1.
  destruct (when (useStdoutLogger (loggers g)) _ g) as [[] g1|g1|m g1] eqn:E1.
  2,3: destruct (useStdoutLogger (loggers g)); discriminate E1.
  unfold bind.
  destruct (when (useEsLogger (loggers g)) _ g1) as [[] g2|g2|m g2] eqn:E2.
  - destruct (useFailLogger (loggers g)); cbn [when ret]; [|discriminate].
    apply send_file_panics.
  - discriminate.
  - intros [= <- <-].
    destruct (useEsLogger (loggers g)); cbn [when ret] in E2; [|discriminate].
    now apply send_es_panics in E2.
Qed.

(** X14: [Write] never slices out of bounds: the only panic it can end in is
    that of a send on a closed channel. The count it returns is the length
    of what was left of the line after the cuts, between 0 and the length of
    the line; with the default level [LevelNone] it returns the length of
    the line and does nothing. *)
Theorem Write_in_bounds (p : string) (g : Front) :
  (forall msg g', Frontend.Write p g = Panicked msg g' ->
                  msg = "send on closed channel") /\
  (forall n g', Frontend.Write p g = Done n g' -> (0 <= n <= strlen p)%Z) /\
  (LevelDefault g = LevelNone -> Frontend.Write p g = Done (strlen p) g).
Proof.
  destruct (String.eqb (LevelDefault g) LevelNone) eqn:Hd.
  - assert (Hw : Frontend.Write p g = Done (strlen p) g).
    { unfold Frontend.Write, bind, gets. now rewrite Hd. }
    rewrite Hw. split; [discriminate|]. split; [|reflexivity].
    intros n g' [= <- <-]. pose proof (strlen_nonneg p). lia.
  - destruct (Write_run p g Hd) as (level & rest & Hle & ->).
    unfold bind. rewrite entry_run.
    split; [|split].
    + intros msg g'. destruct (Frontend.send _ _) as [[]|?|?] eqn:Es;
        [discriminate|discriminate|].
      intros [= <- <-]. now apply send_panics in Es.
    + intros n g'. destruct (Frontend.send _ _) as [[]|?|?];
        [|discriminate..].
      intros [= <- <-]. pose proof (strlen_nonneg rest). lia.
    + intros Hn. rewrite Hn in Hd. discriminate.
Qed.

(** *** What [Write] reads out of a line *)

Lemma Index_cons_char (x c : ascii) (a : string) :
  Index (String x a) (String c EmptyString) =
  if Ascii.eqb c x then 0%Z
  else if (Index a (String c EmptyString) <? 0)%Z then (-1)%Z
       else (Index a (String c EmptyString) + 1)%Z.
Proof. cbn [Index]. now rewrite HasPrefix_char. Qed.

Lemma Contains_cons_char (x c : ascii) (a : string) :
  Contains (String x a) (String c EmptyString) = false <->
  Ascii.eqb c x = false /\ Contains a (String c EmptyString) = false.
Proof.
  unfold Contains. rewrite Index_cons_char.
  destruct (Ascii.eqb c x); [split; [discriminate|intros [H _]; discriminate]|].
  destruct (Index a (String c EmptyString) <? 0)%Z eqn:E.
  - apply Z.ltb_lt in E. split; [intros _; split; [reflexivity|]|reflexivity].
    apply Z.leb_gt. lia.
  - apply Z.ltb_ge in E. split.
    + intros H. apply Z.leb_gt in H. lia.
    + intros [_ H]. apply Z.leb_gt in H. lia.
Qed.

(** The first occurrence of a byte the text before it does not hold. *)
Lemma Index_skip (a b : string) (c : ascii) :
  Contains a (String c EmptyString) = false ->
  Index (a +:+ String c b) (String c EmptyString) = strlen a.
Proof.
  induction a as [|x a IH]; intros H.
  - change (EmptyString +:+ String c b) with (String c b).
    apply Index_zero_iff. rewrite HasPrefix_char. apply Ascii.eqb_refl.
  - apply Contains_cons_char in H as [Hx Ha].
    rewrite append_cons, Index_cons_char, Hx, (IH Ha), strlen_cons.
    pose proof (strlen_nonneg a).
    destruct (strlen a <? 0)%Z eqn:E; [apply Z.ltb_lt in E; lia|reflexivity].
Qed.

Lemma slice_tail (a b : string) :
  slice (a +:+ b) (strlen a) (strlen (a +:+ b)) = Some b.
Proof.
  unfold slice. rewrite strlen_app.
  pose proof (strlen_nonneg a). pose proof (strlen_nonneg b).
  assert (E1 : (0 <=? strlen a)%Z = true) by (apply Z.leb_le; lia).
  assert (E2 : (strlen a <=? strlen a + strlen b)%Z = true)
    by (apply Z.leb_le; lia).
  rewrite E1, E2, Z.leb_refl. cbn [andb]. f_equal.
  unfold strlen.
  replace (Z.to_nat (Z.of_nat (String.length a))) with (String.length a) by lia.
  replace (Z.to_nat (Z.of_nat (String.length a) + Z.of_nat (String.length b)
                     - Z.of_nat (String.length a)))
    with (String.length b) by lia.
  apply substring_skip.
Qed.

(** Cutting behind the first occurrence of a byte leaves what follows
    it. *)
Lemma slice_cut (a b : string) (c : ascii) :
  Contains a (String c EmptyString) = false ->
  slice (a +:+ String c b)
        (Index (a +:+ String c b) (String c EmptyString) + 1)
        (strlen (a +:+ String c b)) = Some b.
Proof.
  intros H. rewrite (Index_skip a b c H).
  change (String c b) with (String c EmptyString +:+ b).
  rewrite append_assoc.
  replace (strlen a + 1)%Z with (strlen (a +:+ String c EmptyString))
    by (rewrite strlen_app; reflexivity).
  apply slice_tail.
Qed.

Lemma substring_prefix (a b : string) :
  substring 0 (String.length a) (a +:+ b) = a.
Proof.
  induction a as [|x a IH]; [now destruct b|].
  rewrite append_cons. simpl. now rewrite IH.
Qed.

(** The level tag in front of a remainder, if it has one. *)
Lemma Write_head (date time rest : string) (g : Front) :
  String.eqb (LevelDefault g) LevelNone = false ->
  Contains date " " = false -> Contains time " " = false ->
  Frontend.Write (date +:+ " " +:+ time +:+ " " +:+ rest) g =
  bind
    (if HasPrefix rest "[" && Contains rest "]" then
       bind (sliced rest (Index rest "[" + 1) (Index rest "]"))
         (fun level =>
            bind (sliced rest (Index rest "]" + 1) (strlen rest))
              (fun p => ret (level, p)))
     else ret (LevelDefault g, rest))
    (fun lp =>
       bind (Frontend.entry (fst lp)
               [Plain (AnyString (TrimSpace (snd lp)))])
         (fun e => bind (Frontend.send e)
                     (fun _ => ret (strlen (snd lp))))) g.
Proof.
  intros Hd Hdate Htime. unfold Frontend.Write.
  unfold bind at 1. unfold gets at 1. rewrite Hd.
  change (" " +:+ time +:+ " " +:+ rest)
    with (String " " (time +:+ String " " rest)).
  unfold sliced at 1. unfold bind at 1.
  rewrite (slice_cut date _ " " Hdate). unfold ret at 1.
  unfold sliced at 1. unfold bind at 1.
  rewrite (slice_cut time _ " " Htime). unfold ret at 1. reflexivity.
Qed.

Lemma Write_plain (date time msg : string) (g : Front) :
  String.eqb (LevelDefault g) LevelNone = false ->
  Contains date " " = false -> Contains time " " = false ->
  HasPrefix msg "[" = false ->
  Frontend.Write (date +:+ " " +:+ time +:+ " " +:+ msg) g =
  bind (Frontend.entry (LevelDefault g) [Plain (AnyString (TrimSpace msg))])
    (fun e => bind (Frontend.send e) (fun _ => ret (strlen msg))) g.
Proof.
  intros Hd Hdate Htime Hno.
  rewrite (Write_head date time msg g Hd Hdate Htime), Hno. reflexivity.
Qed.

(** X15: of a line [date time [LEVEL]msg], where neither [date] nor [time]
    holds a space and [LEVEL] holds no closing bracket, [Write] sends one
    entry with the level [LEVEL] and the message [msg] trimmed, and returns
    the length of [msg]; of a line [date time msg], where [msg] does not
    start with a bracket, it sends [msg] trimmed with the default level. *)
Theorem Write_parses (date time level msg : string) (g : Front) :
  LevelDefault g <> LevelNone ->
  Contains date " " = false -> Contains time " " = false ->
  Contains level "]" = false ->
  Frontend.Write (date +:+ " " +:+ time +:+ " [" +:+ level +:+ "]" +:+ msg) g =
    bind (Frontend.entry level [Plain (AnyString (TrimSpace msg))])
      (fun e => bind (Frontend.send e) (fun _ => ret (strlen msg))) g /\
  (HasPrefix msg "[" = false ->
   Frontend.Write (date +:+ " " +:+ time +:+ " " +:+ msg) g =
     bind (Frontend.entry (LevelDefault g) [Plain (AnyString (TrimSpace msg))])
       (fun e => bind (Frontend.send e) (fun _ => ret (strlen msg))) g).
Proof.
  intros Hd Hdate Htime Hlevel.
  apply String.eqb_neq in Hd.
  split; [|now apply Write_plain].
  change (" [" +:+ level +:+ "]" +:+ msg)
    with (" " +:+ String "[" (level +:+ String "]" msg)).
  rewrite (Write_head date time _ g Hd Hdate Htime).
  set (p := String "[" (level +:+ String "]" msg)).
  assert (Hp : HasPrefix p "[" = true) by (unfold p; now rewrite HasPrefix_char).
  assert (Hc : Contains (String "[" level) "]" = false).
  { apply Contains_cons_char. now split. }
  assert (Hi : Index p "]" = (strlen level + 1)%Z).
  { unfold p. change (String "[" (level +:+ String "]" msg))
      with (String "[" level +:+ String "]" msg).
    rewrite (Index_skip _ _ _ Hc). apply strlen_cons. }
  assert (Hcp : Contains p "]" = true).
  { unfold Contains. rewrite Hi. apply Z.leb_le.
    pose proof (strlen_nonneg level). lia. }
  assert (H0 : Index p "[" = 0%Z) by (now apply Index_zero_iff).
  assert (Hl : slice p (Index p "[" + 1) (Index p "]") = Some level).
  { rewrite H0, Hi. unfold slice, p. rewrite strlen_cons, strlen_app, strlen_cons.
    pose proof (strlen_nonneg level). pose proof (strlen_nonneg msg).
    assert (E1 : (0 + 1 <=? strlen level + 1)%Z = true) by (apply Z.leb_le; lia).
    assert (E2 : (strlen level + 1 <=? strlen level + (strlen msg + 1) + 1)%Z = true)
      by (apply Z.leb_le; lia).
    rewrite E1, E2. cbn [Z.leb andb]. f_equal.
    replace (Z.to_nat (0 + 1)) with 1%nat by lia.
    replace (Z.to_nat (strlen level + 1 - (0 + 1))) with (String.length level)
      by (unfold strlen; lia).
    cbn [substring]. apply substring_prefix. }
  assert (Hm : slice p (Index p "]" + 1) (strlen p) = Some msg).
  { unfold p. change (String "[" (level +:+ String "]" msg))
      with (String "[" level +:+ String "]" msg).
    apply (slice_cut _ _ _ Hc). }
  rewrite Hp, Hcp. cbn [andb].
  unfold bind at 1. unfold bind at 1. unfold sliced at 1. rewrite Hl.
  unfold ret at 1. unfold bind at 1. unfold sliced at 1. rewrite Hm.
  reflexivity.
Qed.

(** *** The configuration [init] leaves *)

(** X16: the configuration [init] leaves has no zero field: an empty
    [FailoverDir] becomes [TempDir/appShort/failover], a zero [TimeToHold]
    ten seconds, a zero [EntriesToHold] 1000, a zero [MaxFailoverFiles] 10;
    every other value, negative ones included, is kept; and applying the
    defaults again changes nothing. *)
Theorem es_defaults_complete (appShort : string) (c : EsConfig) :
  let c' := Frontend.es_defaults appShort c in
  (FailoverDir c' <> EmptyString /\ TimeToHold c' <> 0%Z /\
   EntriesToHold c' <> 0%Z /\ MaxFailoverFiles c' <> 0%Z) /\
  (FailoverDir c' = FailoverDir c \/
   FailoverDir c = EmptyString /\
   FailoverDir c' = TempDir +:+ "/" +:+ appShort +:+ "/failover") /\
  (TimeToHold c' = TimeToHold c \/
   TimeToHold c = 0%Z /\ TimeToHold c' = 10000000000%Z) /\
  (EntriesToHold c' = EntriesToHold c \/
   EntriesToHold c = 0%Z /\ EntriesToHold c' = 1000%Z) /\
  (MaxFailoverFiles c' = MaxFailoverFiles c \/
   MaxFailoverFiles c = 0%Z /\ MaxFailoverFiles c' = 10%Z) /\
  Frontend.es_defaults appShort c' = c'.
Proof.
  cbv zeta. unfold Frontend.es_defaults.
  cbn [FailoverDir TimeToHold EntriesToHold MaxFailoverFiles ES_URL ES_API_KEY
         ES_INDEX_NAME].
  assert (Hne : TempDir +:+ "/" +:+ appShort +:+ "/failover" <> EmptyString).
  { intros H. apply (f_equal String.length) in H.
    rewrite !length_append in H. simpl in H. lia. }
  destruct (String.eqb (FailoverDir c) EmptyString) eqn:Ef;
    destruct (TimeToHold c =? 0)%Z eqn:Et;
    destruct (EntriesToHold c =? 0)%Z eqn:Ee;
    destruct (MaxFailoverFiles c =? 0)%Z eqn:Em;
    rewrite ?String.eqb_eq, ?String.eqb_neq, ?Z.eqb_eq, ?Z.eqb_neq in *;
    cbn [Z.eqb Z.mul Second Pos.mul];
    repeat match goal with
           | |- context [String.eqb ?a EmptyString] =>
               let E := fresh "E" in
               destruct (String.eqb a EmptyString) eqn:E;
               [apply String.eqb_eq in E; congruence|]
           | |- context [Z.eqb ?a 0] =>
               let E := fresh "E" in
               destruct (Z.eqb a 0) eqn:E;
               [apply Z.eqb_eq in E; congruence|]
           end;
    (split; [repeat split; (assumption || discriminate)|]);
    repeat split; auto.
Qed.

(** *** [Init] *)

Ltac front_simpl :=
  cbv beta iota zeta delta
    [set_loggers set_useFailLogger set_useEsLogger set_fileEntryChannel
     set_esEntryChannel set_file set_esConfig set_flags go os_MkdirAll
     std_SetOutput_custom set_appType print
     appType LevelDefault loggers std_custom custom_set std_prefix stderr
     stdout stamp stamps_read mkdirs started
     useStdoutLogger useEsLogger useFailLogger filterLevels esConfig
     esEntryChannel fileConfig fileAppShort fileEntryChannel
     buf cap chan_closed final now_stamp queued fst snd].

Lemma custom_SetOutput_all (l : list nat) :
  forall g,
    fold_left (fun g c => custom_SetOutput c g) l g =
    {| appType := appType g; LevelDefault := LevelDefault g;
       loggers := loggers g; std_custom := std_custom g;
       custom_set := (custom_set g ++ l)%list;
       std_prefix := std_prefix g; stderr := stderr g; stdout := stdout g;
       stamp := stamp g; stamps_read := stamps_read g; mkdirs := mkdirs g;
       started := started g |}.
Proof.
  induction l as [|c l IH]; intros g; cbn [fold_left].
  - rewrite app_nil_r. now destruct g.
  - rewrite IH. cbn. now rewrite <- app_assoc.
Qed.

Lemma EntriesToHold_defaults (appShort : string) (c : EsConfig) :
  (0 <= EntriesToHold c)%Z ->
  (1 <= EntriesToHold (Frontend.es_defaults appShort c))%Z.
Proof.
  intros H. unfold Frontend.es_defaults. cbn [EntriesToHold].
  destruct (EntriesToHold c =? 0)%Z eqn:E; [lia|]. apply Z.eqb_neq in E. lia.
Qed.

Lemma Init_run (config : Frontend.Config) (c : EsConfig) (fc : FileConfig) (g : Front) :
  Frontend.cfg_EsConfig config = Some c -> Frontend.cfg_FileConfig config = Some fc ->
  (0 <= EntriesToHold c)%Z ->
  Frontend.Init config g =
  when (negb (Frontend.DoesNotShowInitMessage config))
    (Frontend.std_Println "logger initialized")
    (Frontend.sinks_on config c fc g).
Proof.
  intros Hes Hfile Hpos.
  pose proof (EntriesToHold_defaults (Frontend.cfg_AppShort config) c Hpos) as Hcap.
  unfold Frontend.Init, Frontend.es_init, Frontend.file_init, bind, modify.
  rewrite Hes, Hfile, custom_SetOutput_all. unfold make_chan.
  destruct (EntriesToHold (Frontend.es_defaults (Frontend.cfg_AppShort config) c) <? 0)%Z
    eqn:E; [apply Z.ltb_lt in E; lia|].
  f_equal. unfold Frontend.sinks_on. front_simpl. f_equal.
  now rewrite <- app_assoc.
Qed.

(** X18: [Init] with both sinks configured and its message switched off:
    when [EntriesToHold] is not negative it returns with both sinks in use,
    the Elasticsearch channel open, empty and of capacity [EntriesToHold]
    (1000 if unset), the file channel open, empty and of capacity 100, the
    flags and the filter of the configuration, the defaults written into the
    Elasticsearch configuration, the standard logger redirected, the two
    workers started and nothing printed. When [EntriesToHold] is negative it
    panics in [make], before any worker is started and without the sink
    being marked in use. *)
Theorem Init_sets_up (config : Frontend.Config) (c : EsConfig) (fc : FileConfig)
  (g : Front) :
  Frontend.cfg_EsConfig config = Some c -> Frontend.cfg_FileConfig config = Some fc ->
  Frontend.DoesNotShowInitMessage config = true ->
  ((0 <= EntriesToHold c)%Z ->
   exists g',
     Frontend.Init config g = Done tt g' /\
     esEntryChannel (loggers g') =
       Some {| buf := [];
               cap := if (EntriesToHold c =? 0)%Z then 1000 else EntriesToHold c;
               chan_closed := false |} /\
     fileEntryChannel (loggers g') =
       Some {| buf := []; cap := 100; chan_closed := false |} /\
     useEsLogger (loggers g') = true /\ useFailLogger (loggers g') = true /\
     useStdoutLogger (loggers g') = Frontend.UseStdout config /\
     filterLevels (loggers g') = Frontend.FilterLevels config /\
     esConfig (loggers g') =
       Some (Frontend.es_defaults (Frontend.cfg_AppShort config) c) /\
     appType g' = Frontend.cfg_AppType config /\ std_custom g' = true /\
     started g' = (started g ++ ["es.entryHandler"; "file.entryHandler"])%list /\
     stdout g' = stdout g) /\
  ((EntriesToHold c < 0)%Z ->
   exists g',
     Frontend.Init config g = Panicked "makechan: size out of range" g' /\
     esEntryChannel (loggers g') = esEntryChannel (loggers g) /\
     useEsLogger (loggers g') = useEsLogger (loggers g) /\
     started g' = started g).
Proof.
  intros Hes Hfile Hquiet. split.
  - intros Hpos. rewrite (Init_run config c fc g Hes Hfile Hpos), Hquiet.
    cbn [negb when ret]. eexists. split; [reflexivity|].
    cbn. repeat split.
  - intros Hneg.
    unfold Frontend.Init, Frontend.es_init, bind, modify.
    rewrite Hes, custom_SetOutput_all. unfold make_chan.
    assert (E : (EntriesToHold (Frontend.es_defaults (Frontend.cfg_AppShort config) c)
                 <? 0)%Z = true).
    { unfold Frontend.es_defaults. cbn [EntriesToHold].
      destruct (EntriesToHold c =? 0)%Z eqn:E0;
        [apply Z.eqb_eq in E0; lia|]. now apply Z.ltb_lt. }
    rewrite E. unfold panic. eexists. split; [reflexivity|]. cbn.
    repeat split.
Qed.

(** X19: when [Init] prints its message, the message goes through the sinks
    it has just set up: with the standard logger's prefix [date time ], a
    default level other than [LevelNone] and not filtered, the entry [logger
    initialized], at the default level, is the first entry in the channel of
    each sink, and its line is printed when stdout is on. *)
Theorem Init_logs_itself (config : Frontend.Config) (c : EsConfig) (fc : FileConfig)
  (g : Front) (date time : string) :
  Frontend.cfg_EsConfig config = Some c -> Frontend.cfg_FileConfig config = Some fc ->
  (0 <= EntriesToHold c)%Z ->
  Frontend.DoesNotShowInitMessage config = false ->
  LevelDefault g <> LevelNone ->
  std_prefix g = date +:+ " " +:+ time +:+ " " ->
  Contains date " " = false -> Contains time " " = false ->
  (forall levels, Frontend.FilterLevels config = Some levels -> LevelDefault g ∉ levels) ->
  let e :=
    {| AppType := Frontend.cfg_AppType config; Timestamp := stamp g (stamps_read g);
       Level := LevelDefault g;
       Message :=
         Sprint [Plain (AnyString (TrimSpace ("logger initialized" +:+ NL)))];
       Fields := None |} in
  exists g',
    Frontend.Init config g = Done tt g' /\
    queued (esEntryChannel (loggers g')) = [e] /\
    queued (fileEntryChannel (loggers g')) = [e] /\
    stdout g' =
      (stdout g ++ if Frontend.UseStdout config then [fst (String_ e)] else [])%list.
Proof.
  intros Hes Hfile Hpos Hshow Hd Hprefix Hdate Htime Hpass. cbv zeta.
  pose proof (EntriesToHold_defaults (Frontend.cfg_AppShort config) c Hpos) as Hcap.
  rewrite (Init_run config c fc g Hes Hfile Hpos), Hshow.
  change (negb false) with true. unfold when.
  set (g0 := Frontend.sinks_on config c fc g).
  assert (Hp0 : std_prefix g0 = date +:+ " " +:+ time +:+ " ") by exact Hprefix.
  assert (Hd0 : String.eqb (LevelDefault g0) LevelNone = false)
    by (now apply String.eqb_neq).
  unfold Frontend.std_Println.
  unfold bind at 1. unfold gets at 1.
  change (std_custom g0) with true.
  unfold bind at 1. unfold gets at 1. rewrite Hp0.
  replace ((date +:+ " " +:+ time +:+ " ") +:+ "logger initialized" +:+ NL)
    with (date +:+ " " +:+ time +:+ " " +:+ "logger initialized" +:+ NL)
    by (rewrite !append_assoc; reflexivity).
  unfold bind at 1.
  rewrite (Write_plain date time ("logger initialized" +:+ NL) g0
             Hd0 Hdate Htime eq_refl).
  unfold bind at 1. rewrite entry_run.
  change (getFields [Plain (AnyString
            (TrimSpace ("logger initialized" +:+ NL)))])
    with ([Plain (AnyString (TrimSpace ("logger initialized" +:+ NL)))],
          @None (gmap string any)).
  cbn [fst snd].
  change (appType g0) with (Frontend.cfg_AppType config).
  change (stamp g0 (stamps_read g0)) with (stamp g (stamps_read g)).
  change (LevelDefault g0) with (LevelDefault g).
  set (e := {| AppType := Frontend.cfg_AppType config;
               Timestamp := stamp g (stamps_read g);
               Level := LevelDefault g;
               Message :=
                 Sprint [Plain (AnyString
                                  (TrimSpace ("logger initialized" +:+ NL)))];
               Fields := None |}).
  set (g1 := final (now_stamp g0)).
  assert (Hroom1 : has_room (esEntryChannel (loggers g1))).
  { eexists. split; [reflexivity|]. split; [reflexivity|].
    unfold len. cbn [buf cap List.length]. lia. }
  assert (Hroom2 : has_room (fileEntryChannel (loggers g1))).
  { eexists. split; [reflexivity|]. split; [reflexivity|].
    unfold len. cbn [buf cap List.length]. lia. }
  destruct (send_room e g1) as (g' & Hs & Hstd & Hq1 & Hq2 & _);
    [exact Hpass|intros _; exact Hroom1|intros _; exact Hroom2|].
  unfold bind. rewrite Hs. exists g'. split; [reflexivity|].
  split; [exact Hq1|]. split; [exact Hq2|exact Hstd].
Qed.

(** *** Printing *)

(** X20: with the stdout logger on, a level that passes the filter and room
    in the channels in use, the line [PrintLevel] prints is the string
    [Sentry] returns for the same level and operands in the same state; each
    reads the clock once. *)
Theorem PrintLevel_prints (level : LogLevel) (v : list operand) (g : Front) :
  (forall levels, filterLevels (loggers g) = Some levels -> level ∉ levels) ->
  useStdoutLogger (loggers g) = true ->
  (useEsLogger (loggers g) = true -> has_room (esEntryChannel (loggers g))) ->
  (useFailLogger (loggers g) = true -> has_room (fileEntryChannel (loggers g))) ->
  exists line g1 g2,
    Frontend.Sentry level v g = Done line g1 /\
    Frontend.PrintLevel level v g = Done tt g2 /\
    stdout g2 = (stdout g ++ [line])%list /\
    stamps_read g1 = S (stamps_read g) /\ stamps_read g2 = S (stamps_read g).
Proof.
  intros Hpass Hout Hes Hfile.
  unfold Frontend.Sentry, Frontend.PrintLevel, bind. rewrite entry_run.
  set (e := {| AppType := appType g; Timestamp := stamp g (stamps_read g);
               Level := level; Message := Sprint (getFields v).1;
               Fields := (getFields v).2 |}).
  set (g1 := final (now_stamp g)).
  destruct (send_room e g1) as (g2 & Hs & Hstd & _ & _ & _ & _ & _ & _ & Hr);
    [exact Hpass|exact Hes|exact Hfile|].
  exists (fst (String_ e)), g1, g2. split; [reflexivity|].
  split; [exact Hs|]. split; [|split; [reflexivity|exact Hr]].
  rewrite Hstd. change (useStdoutLogger (loggers g1)) with (useStdoutLogger (loggers g)).
  now rewrite Hout.
Qed.

(** *** A negative cap *)

(** X17: a negative [MaxFailoverFiles] is kept by [init], and under it
    [saveBatchToDisk] saves no batch: whatever the directory holds, it
    returns an error and leaves the world as it is. *)
Theorem negative_cap_saves_nothing (appShort : string) (c : EsConfig)
  (batch : list LogEntry) (w : World) :
  (MaxFailoverFiles c < 0)%Z ->
  let c' := Frontend.es_defaults appShort c in
  MaxFailoverFiles c' = MaxFailoverFiles c /\
  exists err, saveBatchToDisk c' batch w = (Some err, w).
Proof.
  intros Hneg. cbv zeta.
  assert (Hm : MaxFailoverFiles (Frontend.es_defaults appShort c)
               = MaxFailoverFiles c).
  { unfold Frontend.es_defaults. cbn [MaxFailoverFiles].
    destruct (MaxFailoverFiles c =? 0)%Z eqn:E; [|reflexivity].
    apply Z.eqb_eq in E. lia. }
  split; [exact Hm|].
  unfold saveBatchToDisk.
  destruct (String.eqb (FailoverDir _) EmptyString); [eauto|].
  destruct (ReadDir w) as [files|err]; [|eauto].
  assert (E : (MaxFailoverFiles (Frontend.es_defaults appShort c)
               <=? len files)%Z = true).
  { apply Z.leb_le. rewrite Hm. unfold len. lia. }
  rewrite E. eauto.
Qed.

End FrontFacts.

(** ** The file sink over a run of entries *)

Section FileFacts.

Context `{L : Lib}.

Set Default Proof Using "Type".

Lemma Write_open (h : osFile) (data old : string) (w : FWorld) :
  closed h = false -> fs w !! Name h = Some (File old) ->
  Write h data w = set_fs (<[Name h := File (old +:+ data)]> (fs w)) w.
Proof. intros Hc Hl. unfold Write. now rewrite Hc, Hl. Qed.

(** X21: while the active file is not due for rotation (rotation switched
    off, or the clock never past [CreateNewAfter]), the file sink appends
    one line to it for each entry, in the order received, and does nothing
    else: no timer, no close, no notice; it reads the clock once an entry
    when rotation is on and never when it is off. *)
Theorem file_appends_in_order (es : list LogEntry) (s : file) (h : osFile) :
  forall (w : FWorld) (old : string),
    f s = Some h -> closed h = false ->
    fs w !! Name h = Some (File old) ->
    (CreateNewAfter (Config s) <= 0 \/
     forall k, now w k - fCreatedAt s <= CreateNewAfter (Config s))%Z ->
    let r := file_entryHandler (map FRecv es) s w in
    fst r = s /\
    fs (snd r) = <[Name h := File (old +:+ log_lines es)]> (fs w) /\
    timers (snd r) = timers w /\ closes (snd r) = closes w /\
    notices (snd r) = notices w /\
    now_reads (snd r) =
      (now_reads w +
       if (0 <? CreateNewAfter (Config s))%Z then List.length es else 0)%nat.
Proof.
  induction es as [|e es IH]; intros w old Hf Hc Hl Hdue; cbv zeta.
  - cbn [map file_entryHandler fst snd log_lines fold_right].
    rewrite app_empty_r. rewrite insert_id by exact Hl.
    repeat split. destruct (0 <? _)%Z; simpl; lia.
  - cbn [map file_entryHandler file_event].
    rewrite (file_entry_keep e s w h Hf)
      by (destruct Hdue as [H|H]; [now left|right; apply H]).
    set (w0 := if (0 <? CreateNewAfter (Config s))%Z then snd (time_Now w) else w).
    assert (Hfs0 : fs w0 = fs w) by (unfold w0; now destruct (0 <? _)%Z).
    assert (Hl0 : fs w0 !! Name h = Some (File old)) by (now rewrite Hfs0).
    rewrite (Write_open h _ old w0 Hc Hl0).
    set (w1 := set_fs _ w0).
    assert (Hl1 : fs w1 !! Name h =
                  Some (File (old +:+ fst (String_ e) +:+ NL))).
    { unfold w1. cbn [fs set_fs]. apply lookup_insert_eq. }
    assert (Hdue1 : (CreateNewAfter (Config s) <= 0 \/
                     forall k, now w1 k - fCreatedAt s <= CreateNewAfter (Config s))%Z).
    { destruct Hdue as [H|H]; [now left|right]. intros k.
      unfold w1, w0. destruct (0 <? _)%Z; cbn; apply H. }
    specialize (IH w1 _ Hf Hc Hl1 Hdue1). cbv zeta in IH.
    destruct IH as (I1 & I2 & I3 & I4 & I5 & I6).
    split; [exact I1|]. split.
    + rewrite I2. unfold w1. cbn [fs set_fs]. rewrite Hfs0.
      rewrite insert_insert_eq. cbn [log_lines fold_right].
      now rewrite !append_assoc.
    + rewrite I3, I4, I5, I6. unfold w1, w0.
      destruct (0 <? CreateNewAfter (Config s))%Z; cbn; repeat split; lia.
Qed.

(** X23: while the folder is missing and cannot be created, every entry is
    dropped: the sink stays without a file, the file system and the notices
    are left as they are, and each entry costs one reading of the clock for
    the attempt it triggers. *)
Theorem entries_dropped_without_folder (es : list LogEntry) (s : file)
  (msg : string) :
  forall w : FWorld,
    f s = None -> fs w !! log_folder s = None -> mkdir_fault w = Some msg ->
    let r := file_entryHandler (map FRecv es) s w in
    fst r = s /\ fs (snd r) = fs w /\ notices (snd r) = notices w /\
    timers (snd r) = timers w /\
    now_reads (snd r) = (now_reads w + List.length es)%nat.
Proof.
  induction es as [|e es IH]; intros w Hf Hd Hm; cbv zeta.
  - cbn. repeat split. lia.
  - cbn [map file_entryHandler file_event].
    assert (Hstep : file_entry e s w = (s, snd (time_Now w))).
    { unfold file_entry. rewrite Hf. unfold newLogfile, time_Now.
      cbn [fs now now_reads]. fold (log_folder s). rewrite Hd.
      unfold MkdirAll. cbn [mkdir_fault]. now rewrite Hm. }
    rewrite Hstep.
    specialize (IH (snd (time_Now w)) Hf Hd Hm). cbv zeta in IH.
    destruct IH as (I1 & I2 & I3 & I4 & I5).
    rewrite I1, I2, I3, I4, I5. cbn. repeat split. lia.
Qed.

End FileFacts.

(** ** The file sink and the standard logger *)

Section WiredFacts.

Context `{L : Lib} `{F : Fmt}.

Set Default Proof Using "Type".

(** With the default level [LevelNone] the standard logger's lines are
    dropped by [customWriter.Write]. *)
Lemma std_Println_quiet (line : string) (g : Front) :
  std_custom g = true -> LevelDefault g = LevelNone ->
  Frontend.std_Println line g = Done tt g.
Proof.
  intros Hc Hd. unfold Frontend.std_Println, bind, gets. rewrite Hc.
  unfold Frontend.Write, bind, gets. rewrite Hd. reflexivity.
Qed.

(** A line without a level, behind the prefix [date time ], is sent as
    one entry at the default level. *)
Lemma std_Println_sends (line date time : string) (g : Front) :
  std_custom g = true -> LevelDefault g <> LevelNone ->
  std_prefix g = date +:+ " " +:+ time +:+ " " ->
  Contains date " " = false -> Contains time " " = false ->
  HasPrefix line "[" = false ->
  Frontend.std_Println line g =
  bind (Frontend.send (logged line g)) (fun _ => ret tt) (final (now_stamp g)).
Proof.
  intros Hc Hd Hp Hdate Htime Hno.
  assert (Hd0 : String.eqb (LevelDefault g) LevelNone = false)
    by (now apply String.eqb_neq).
  unfold Frontend.std_Println.
  unfold bind at 1. unfold gets at 1. rewrite Hc.
  unfold bind at 1. unfold gets at 1. rewrite Hp.
  replace ((date +:+ " " +:+ time +:+ " ") +:+ line +:+ NL)
    with (date +:+ " " +:+ time +:+ " " +:+ line +:+ NL)
    by (rewrite !append_assoc; reflexivity).
  unfold bind at 1.
  assert (Hno' : HasPrefix (line +:+ NL) "[" = false).
  { destruct line as [|c line]; [reflexivity|].
    change (String c line +:+ NL) with (String c (line +:+ NL)).
    change "[" with (String "[" EmptyString) in Hno |- *.
    rewrite HasPrefix_char in Hno |- *. exact Hno. }
  rewrite (Write_plain date time (line +:+ NL) g Hd0 Hdate Htime Hno').
  unfold bind at 1. rewrite entry_run.
  change (getFields [Plain (AnyString (TrimSpace (line +:+ NL)))])
    with ([Plain (AnyString (TrimSpace (line +:+ NL)))],
          @None (gmap string any)).
  cbn [fst snd]. fold (logged line g).
  unfold bind. destruct (Frontend.send (logged line g) (final (now_stamp g)));
    reflexivity.
Qed.

(** The file sink in use, its channel full, and no wait on the other
    sink: [send] parks its caller on the file sink's channel. *)
Lemma send_file_full (e : LogEntry) (g : Front) :
  passes e g ->
  useEsLogger (loggers g) = false ->
  useFailLogger (loggers g) = true ->
  is_full (fileEntryChannel (loggers g)) ->
  exists g', Frontend.send e g = Blocked g' /\
             fileEntryChannel (loggers g') = fileEntryChannel (loggers g).
Proof.
  intros Hp He Hf (ch & Hch & Hopen & Hfull).
  unfold Frontend.send, bind, gets. rewrite (passes_filter e g Hp), He, Hf.
  assert (Hs : chan_send e (Some ch) = inr None).
  { unfold chan_send. rewrite Hopen.
    destruct (len (buf ch) <? cap ch)%Z eqn:E; [|reflexivity].
    apply Z.ltb_lt in E. lia. }
  destruct (useStdoutLogger (loggers g)); cbn [when modify ret];
    unfold Frontend.send_file; cbn [loggers print]; rewrite Hch, Hs;
    eexists; (split; [reflexivity|]); cbn [loggers print]; exact Hch.
Qed.

Lemma log_line_plain (name : string) :
  HasPrefix ("create new log file: " +:+ name) "[" = false.
Proof.
  change ("create new log file: " +:+ name)
    with (String "c" ("reate new log file: " +:+ name)).
  change "[" with (String "[" EmptyString). now rewrite HasPrefix_char.
Qed.

Lemma log_name_ne_folder (s : file) (t : Z) : log_name s t <> log_folder s.
Proof.
  unfold log_name. intros H. apply (f_equal String.length) in H.
  rewrite !length_append in H. simpl in H. lia.
Qed.

(** [newLogfile] where the folder is there, or can be made, and the name
    is free or that of a regular file. *)
Lemma newLogfile_opens (s : file) (w : FWorld) (old : string) :
  let t := now w (now_reads w) in
  (fs w !! log_folder s = Some Dir \/
   fs w !! log_folder s = None /\ mkdir_fault w = None) ->
  (fs w !! log_name s t = None /\ old = EmptyString \/
   fs w !! log_name s t = Some (File old)) ->
  exists w',
    newLogfile s w =
      (None,
       {| Config := Config s; AppShort := AppShort s;
          f := Some {| Name := log_name s t; closed := false |};
          fCreatedAt := t |}, w') /\
    fs w' = <[log_name s t := File old]> (<[log_folder s := Dir]> (fs w)) /\
    timers w' =
      (timers w ++ match f s with Some h => [Name h] | None => [] end)%list /\
    closes w' = closes w /\
    notices w' = (notices w ++ ["create new log file: " +:+ log_name s t])%list /\
    mkdir_fault w' = mkdir_fault w /\ copy_fault w' = copy_fault w /\
    now w' = now w /\ now_reads w' = S (now_reads w).
Proof.
  cbv zeta. intros Hfolder Hname.
  pose proof (log_name_ne_folder s (now w (now_reads w))) as Hne.
  unfold newLogfile, time_Now. cbn [fs now now_reads].
  fold (log_folder s). fold (log_name s (now w (now_reads w))).
  destruct Hfolder as [Hd|[Hd Hm]]; rewrite Hd.
  - unfold OpenFile. cbn [fs]. rewrite Hd.
    destruct Hname as [[Hn ->]|Hn]; rewrite Hn; eexists;
      (split; [reflexivity|]);
      destruct (f s); cbn [notice AfterFunc set_timers set_fs fs timers closes
                             notices mkdir_fault copy_fault now now_reads Name];
      rewrite ?app_nil_r, ?(insert_id (fs w) _ _ Hd);
      rewrite ?(insert_id (fs w) _ _ Hn); now repeat split.
  - unfold MkdirAll. cbn [mkdir_fault fs]. rewrite Hm, Hd.
    unfold OpenFile. cbn [fs set_fs]. rewrite lookup_insert_eq.
    rewrite lookup_insert_ne by congruence.
    destruct Hname as [[Hn ->]|Hn]; rewrite Hn; eexists;
      (split; [reflexivity|]);
      destruct (f s); cbn [notice AfterFunc set_timers set_fs fs timers closes
                             notices mkdir_fault copy_fault now now_reads Name];
      rewrite ?app_nil_r;
      rewrite ?(insert_id (<[log_folder s:=Dir]> (fs w)) (log_name s _) (File old))
        by (rewrite lookup_insert_ne by congruence; exact Hn);
      now repeat split.
Qed.


(** A step of the wired worker that finds no file open. *)
Lemma wired_opens (e : LogEntry) (s : file) (w : FWorld) (g : Front)
  (old : string) :
  let t := now w (now_reads w) in
  let call := Frontend.std_Println ("create new log file: " +:+ log_name s t) g in
  (fs w !! log_folder s = Some Dir \/
   fs w !! log_folder s = None /\ mkdir_fault w = None) ->
  (fs w !! log_name s t = None /\ old = EmptyString \/
   fs w !! log_name s t = Some (File old)) ->
  let r :=
    let '(err, s, w, r) := Wired.newLogfile s w g in
    match r with
    | Done _ _ =>
        match err with
        | Some _ => (s, w, r)
        | None =>
            match f s with
            | Some h => (s, Write h (fst (String_ e) +:+ NL) w, r)
            | None => (s, w, r)
            end
        end
    | _ => (s, w, r)
    end in
  snd r = call /\
  fst (fst r) =
    {| Config := Config s; AppShort := AppShort s;
       f := Some {| Name := log_name s t; closed := false |};
       fCreatedAt := t |} /\
  fs (snd (fst r)) =
    <[log_name s t :=
        File (if returned call then old +:+ fst (String_ e) +:+ NL else old)]>
      (<[log_folder s := Dir]> (fs w)) /\
  timers (snd (fst r)) =
    (timers w ++ match f s with Some h => [Name h] | None => [] end)%list /\
  closes (snd (fst r)) = closes w /\
  notices (snd (fst r)) =
    (notices w ++ ["create new log file: " +:+ log_name s t])%list /\
  copy_fault (snd (fst r)) = copy_fault w.
Proof.
  cbv zeta. intros Hfolder Hname.
  destruct (newLogfile_opens s w old Hfolder Hname)
    as (w' & Hnew & Hfs & Ht & Hc & Hn & _ & Hcf & _).
  unfold Wired.newLogfile. rewrite Hnew. cbn [f Name].
  assert (Hl : fs w' !! log_name s (now w (now_reads w)) = Some (File old)).
  { rewrite Hfs. apply lookup_insert_eq. }
  destruct (Frontend.std_Println _ g) as [[] g'|g'|msg g'];
    cbn [f fst snd returned].
  - rewrite (Write_open {| Name := log_name s (now w (now_reads w));
                            closed := false |} _ old w' eq_refl Hl).
    cbn [fs set_fs timers closes notices copy_fault Name].
    rewrite Hfs, insert_insert_eq. now repeat split.
  - now repeat split.
  - now repeat split.
Qed.

(** X22: the first entry makes the sink open its file, and the worker log
    that through the standard logger.  When the folder exists or can be
    created, and the name [folder/app_<time>.log] is free or that of a
    regular file, the sink switches to that file, created at the reading
    of the clock, nothing is scheduled or closed, and [log.Println] is
    called with the creation message.  The entry's line is appended to
    what the file held if that call returns, and is not written if the
    call parks the worker or panics.  The call returns at once when the
    default level is [LevelNone].  Else, the line being sent on at the
    default level: with room in the channels in use it returns, the
    message now waiting in the worker's own channel behind what was
    there; with the file sink alone in use and its channel full, the
    worker is parked on its own channel. *)
Theorem first_entry_opens_file (e : LogEntry) (s : file) (w : FWorld)
  (g : Front) (old : string) :
  let t := now w (now_reads w) in
  let call := Frontend.std_Println ("create new log file: " +:+ log_name s t) g in
  let m := logged ("create new log file: " +:+ log_name s t) g in
  f s = None ->
  (fs w !! log_folder s = Some Dir \/
   fs w !! log_folder s = None /\ mkdir_fault w = None) ->
  (fs w !! log_name s t = None /\ old = EmptyString \/
   fs w !! log_name s t = Some (File old)) ->
  let r := Wired.file_entry e s w g in
  snd r = call /\
  f (fst (fst r)) = Some {| Name := log_name s t; closed := false |} /\
  fCreatedAt (fst (fst r)) = t /\
  fs (snd (fst r)) =
    <[log_name s t :=
        File (if returned call then old +:+ fst (String_ e) +:+ NL else old)]>
      (<[log_folder s := Dir]> (fs w)) /\
  timers (snd (fst r)) = timers w /\ closes (snd (fst r)) = closes w /\
  notices (snd (fst r)) =
    (notices w ++ ["create new log file: " +:+ log_name s t])%list /\
  (std_custom g = true -> LevelDefault g = LevelNone -> call = Done tt g) /\
  (forall date time,
     std_custom g = true -> LevelDefault g <> LevelNone ->
     std_prefix g = date +:+ " " +:+ time +:+ " " ->
     Contains date " " = false -> Contains time " " = false ->
     (forall levels,
        filterLevels (loggers g) = Some levels -> LevelDefault g ∉ levels) ->
     ((useEsLogger (loggers g) = true -> has_room (esEntryChannel (loggers g))) ->
      (useFailLogger (loggers g) = true ->
       has_room (fileEntryChannel (loggers g))) ->
      exists g',
        call = Done tt g' /\
        queued (fileEntryChannel (loggers g')) =
          (queued (fileEntryChannel (loggers g)) ++
           if useFailLogger (loggers g) then [m] else [])%list) /\
     (useEsLogger (loggers g) = false -> useFailLogger (loggers g) = true ->
      is_full (fileEntryChannel (loggers g)) ->
      exists g', call = Blocked g')).
Proof.
  cbv zeta. intros Hf Hfolder Hname.
  destruct (wired_opens e s w g old Hfolder Hname)
    as (R1 & R2 & R3 & R4 & R5 & R6 & _).
  unfold Wired.file_entry. rewrite Hf. rewrite Hf, app_nil_r in R4.
  split; [exact R1|]. split; [now rewrite R2|]. split; [now rewrite R2|].
  split; [exact R3|]. split; [exact R4|]. split; [exact R5|].
  split; [exact R6|]. split; [apply std_Println_quiet|].
  intros date time Hc Hd Hp Hdate Htime Hpass.
  set (line := "create new log file: " +:+ log_name s (now w (now_reads w))).
  rewrite (std_Println_sends line date time g Hc Hd Hp Hdate Htime
             (log_line_plain _)).
  set (g1 := final (now_stamp g)).
  assert (Hpass1 : passes (logged line g) g1) by exact Hpass.
  split.
  - intros Hes Hfile.
    destruct (send_room (logged line g) g1 Hpass1 Hes Hfile)
      as (g' & Hs & _ & _ & Hq & _).
    exists g'. unfold bind. rewrite Hs. split; [reflexivity|exact Hq].
  - intros He Hu Hfull.
    destruct (send_file_full (logged line g) g1 Hpass1 He Hu Hfull)
      as (g' & Hs & _).
    exists g'. unfold bind. now rewrite Hs.
Qed.

(** A step of the wired worker that finds its file due for rotation. *)
Lemma wired_rotates (e : LogEntry) (s : file) (w : FWorld) (g : Front)
  (h : osFile) (old : string) :
  let t := now w (S (now_reads w)) in
  let call := Frontend.std_Println ("create new log file: " +:+ log_name s t) g in
  f s = Some h ->
  (0 < CreateNewAfter (Config s))%Z ->
  (CreateNewAfter (Config s) < now w (now_reads w) - fCreatedAt s)%Z ->
  fs w !! log_folder s = Some Dir ->
  fs w !! log_name s t = Some (File old) ->
  let r := Wired.file_entry e s w g in
  snd r = call /\
  f (fst (fst r)) = Some {| Name := log_name s t; closed := false |} /\
  fs (snd (fst r)) =
    <[log_name s t :=
        File (if returned call then old +:+ fst (String_ e) +:+ NL else old)]>
      (fs w) /\
  timers (snd (fst r)) = (timers w ++ [Name h])%list /\
  closes (snd (fst r)) = (closes w ++ [Name h])%list /\
  copy_fault (snd (fst r)) = copy_fault w.
Proof.
  cbv zeta. intros Hf Hpos Hage Hd Hn.
  unfold Wired.file_entry. rewrite Hf.
  apply Z.ltb_lt in Hpos. rewrite Hpos.
  unfold time_Now. cbn [now now_reads]. apply Z.ltb_lt in Hage. rewrite Hage.
  unfold Close.
  set (sc := {| Config := Config s; AppShort := AppShort s;
                f := Some {| Name := Name h; closed := true |};
                fCreatedAt := fCreatedAt s |}).
  set (wc := {| fs := fs w; mkdir_fault := mkdir_fault w;
                copy_fault := copy_fault w; now := now w;
                now_reads := S (now_reads w); timers := timers w;
                closes := (closes w ++ [Name h])%list; notices := notices w |}).
  destruct (wired_opens e sc wc g old (or_introl Hd) (or_intror Hn))
    as (R1 & R2 & R3 & R4 & R5 & _ & R7).
  split; [exact R1|]. split; [exact (f_equal f R2)|]. split.
  - etransitivity; [exact R3|]. cbn [fs wc].
    change (log_folder sc) with (log_folder s).
    now rewrite (insert_id (fs w) _ _ Hd).
  - split; [exact R4|]. split; [exact R5|exact R7].
Qed.

(** X24: a rotation whose new name is the name of the active file (two
    rotations within the second the layout of the name resolves) closes
    the file, reopens it and schedules its compression, then logs the
    creation; the entry's line is appended if that call returns.  Once
    the scheduled task has run, the file is gone while the sink still
    holds its handle, and the bytes the file held then are in the
    [.gz]. *)
Theorem rotation_onto_active_name (e : LogEntry) (s : file) (w : FWorld)
  (g : Front) (h : osFile) (old : string) :
  let call := Frontend.std_Println ("create new log file: " +:+ Name h) g in
  let r := Wired.file_entry e s w g in
  let w2 := fire (snd (fst r)) in
  let written :=
    if returned call then old +:+ fst (String_ e) +:+ NL else old in
  f s = Some h ->
  (0 < CreateNewAfter (Config s))%Z ->
  (CreateNewAfter (Config s) < now w (now_reads w) - fCreatedAt s)%Z ->
  Name h = log_name s (now w (S (now_reads w))) ->
  fs w !! log_folder s = Some Dir ->
  fs w !! Name h = Some (File old) ->
  timers w = [] -> copy_fault w = None ->
  fs w !! (Name h +:+ ".gz") <> Some Dir ->
  snd r = call /\
  f (fst (fst r)) = Some {| Name := Name h; closed := false |} /\
  closes (snd (fst r)) = (closes w ++ [Name h])%list /\
  timers (snd (fst r)) = [Name h] /\
  fs (snd (fst r)) !! Name h = Some (File written) /\
  fs w2 !! Name h = None /\
  fs w2 !! (Name h +:+ ".gz") = Some (File (gzip written)).
Proof.
  cbv zeta. intros Hf Hpos Hage Hname Hd Hl Ht Hcf Hgz.
  rewrite Hname in Hl, Hgz.
  destruct (wired_rotates e s w g h old Hf Hpos Hage Hd Hl)
    as (R1 & R2 & R3 & R4 & R5 & R6).
  rewrite <- Hname in *.
  destruct (Wired.file_entry e s w g) as [[s1 w1] r1]. cbn [fst snd] in *.
  subst r1. rewrite Ht in R4. cbn [app] in R4.
  set (written := if returned _ then _ else old) in *.
  assert (Hl1 : fs w1 !! Name h = Some (File written)).
  { rewrite R3. apply lookup_insert_eq. }
  split; [reflexivity|]. split; [exact R2|]. split; [exact R5|].
  split; [exact R4|]. split; [exact Hl1|].
  assert (Hfire : fire w1 = compress_and_remove (Name h) (set_timers [] w1)).
  { unfold fire. now rewrite R4. }
  set (w1' := set_timers [] w1) in *.
  assert (Hl1' : fs w1' !! Name h = Some (File written)) by exact Hl1.
  pose proof (compressFile_file (Name h) _ w1' Hl1') as Hc. cbv zeta in Hc.
  destruct Hc as (Hiff & Hok & Hkeep & Hoth).
  assert (Hnone : fst (compressFile (Name h) w1') = None).
  { apply Hiff. split.
    - change (fs w1') with (fs w1). rewrite R3.
      rewrite lookup_insert_ne by (symmetry; apply gz_name_ne). exact Hgz.
    - change (copy_fault w1') with (copy_fault w1). now rewrite R6. }
  specialize (Hok Hnone).
  assert (Hfs2 : fs (fire w1) =
                 delete (Name h) (fs (snd (compressFile (Name h) w1')))).
  { rewrite Hfire. unfold compress_and_remove.
    destruct (compressFile (Name h) w1') as [err w3]. cbn [snd fs set_fs] in *.
    unfold fs_Remove. now rewrite Hkeep. }
  split; [rewrite Hfs2; apply lookup_delete_eq|].
  rewrite Hfs2, lookup_delete_ne by (symmetry; apply gz_name_ne).
  rewrite Hok. apply lookup_insert_eq.
Qed.

End WiredFacts.

(** ** Closed instances of Part III *)

(** X2 at work: one entry, then the closing of the channel, then a tick
    the worker never reads. *)
Lemma entryHandler_shutdown_witness :
  exists r,
    run_started 10 [Recv Sample.e_old; Closed; Tick] recovering = Some r /\
    state (fst r) = Returned /\ snd r = [Tick] /\
    concat (flushes (world (fst r))) = [Sample.e_old].
Proof.
  assert (H0 : (0 < TimeToHold Sample.cfg)%Z) by reflexivity.
  assert (H1 : Closed ∉ [Recv Sample.e_old]).
  { apply not_elem_of_cons. split; [discriminate|apply not_elem_of_nil]. }
  assert (H2 : (2 * List.length [Recv Sample.e_old] + glob_count recovering
                < 10)%nat) by (vm_compute; lia).
  exact (entryHandler_shutdown (L := Sample.lib) Sample.cfg 10
           [Recv Sample.e_old] [Tick] recovering H0 H1 H2).
Defined.

(** X5 at work: the first request is refused and the batch saved; the
    next cycle delivers it and removes the record. *)
Lemma failover_roundtrip_witness :
  fst (run_cycle (run_sendOrSave [Sample.e_old] recovering)) = true /\
  disk (snd (run_cycle (run_sendOrSave [Sample.e_old] recovering)))
    = disk recovering /\
  wire (snd (run_cycle (run_sendOrSave [Sample.e_old] recovering))) =
    [request_of [Sample.e_old]; request_of [Sample.e_old]].
Proof.
  assert (H1 : ~ @delivers Sample.lib Sample.cfg recovering).
  { intros [_ (resp & H & _)]. vm_compute in H. discriminate. }
  assert (H2 : @can_save Sample.lib Sample.cfg
                 (map (fun e => snd (run_Json e)) [Sample.e_old]) recovering
                 (Sample.data_of [Sample.e_old])).
  { split; [discriminate|]. split; [reflexivity|].
    split; [vm_compute; reflexivity|]. split; [vm_compute; reflexivity|].
    vm_compute. discriminate. }
  assert (H3 : disk recovering !! @next_name recovering = None)
    by (vm_compute; reflexivity).
  assert (H4 : @json_Unmarshal Sample.lib (Sample.data_of [Sample.e_old]) =
               Ok (map (fun e => snd (run_Json e)) [Sample.e_old]))
    by (vm_compute; reflexivity).
  assert (H5 : selected (run_sendOrSave [Sample.e_old] recovering) =
               Some (next_name recovering)) by (vm_compute; reflexivity).
  assert (H6 : @delivers Sample.lib Sample.cfg
                 (run_sendOrSave [Sample.e_old] recovering)).
  { split; [reflexivity|]. eexists. split; vm_compute; reflexivity. }
  destruct (failover_roundtrip (L := Sample.lib) Sample.cfg [Sample.e_old]
              recovering (Sample.data_of [Sample.e_old]) H1 H2 H3 H4 H5 H6)
    as (_ & R1 & R2 & R3).
  split; [exact R1|]. split; [exact R2|exact R3].
Defined.

(** X10 at work: a format, one operand and a trailing map. *)
Lemma entryf_builds_witness :
  @Frontend.entryf SampleFront.fmt LevelInfo "listening on "
    [Plain (AnyString ":8080"); MapArg (Some {[ "port" := AnyInt 8080 ]})]
    SampleFront.fresh =
  Done {| AppType := "TEST"; Timestamp := "2025-10-19T10:28:50.567024001Z";
          Level := LevelInfo; Message := "listening on :8080";
          Fields := Some {[ "port" := AnyInt 8080 ]} |}
       (final (now_stamp SampleFront.fresh)).
Proof.
  assert (H : forall s, @Sprint SampleFront.fmt [Plain (AnyString s)] = s)
    by (intros s; reflexivity).
  exact (entryf_builds (F := SampleFront.fmt) LevelInfo "listening on "
           [Plain (AnyString ":8080"); MapArg (Some {[ "port" := AnyInt 8080 ]})]
           SampleFront.fresh H).
Defined.

(** X11 at work: warnings are filtered out. *)
Lemma send_filtered_witness :
  filterLevels (loggers ready) = Some [LevelWarn] /\
  run_send SampleFront.e_warn ready = Done tt ready.
Proof.
  assert (H1 : filterLevels (loggers ready) = Some [LevelWarn])
    by (vm_compute; reflexivity).
  assert (H2 : Level SampleFront.e_warn ∈ [LevelWarn])
    by apply list_elem_of_here.
  split; [exact H1|].
  exact (send_filtered (L := Sample.lib) SampleFront.e_warn ready [LevelWarn]
           H1 H2).
Defined.

(** X12 at work: after [Init], an entry at the level INFO reaches stdout
    and both channels. *)
Lemma send_reaches_sinks_witness :
  exists g',
    run_send Sample.e_old ready = Done tt g' /\
    stdout g' = [fst (@String_ Sample.lib Sample.e_old)] /\
    queued (esEntryChannel (loggers g')) = [Sample.e_old] /\
    queued (fileEntryChannel (loggers g')) = [Sample.e_old].
Proof.
  assert (H1 : passes Sample.e_old ready).
  { intros levels H. vm_compute in H. injection H as <-.
    intros Hin. apply list_elem_of_singleton in Hin. discriminate. }
  assert (H2 : has_room (esEntryChannel (loggers ready))).
  { eexists. split; [vm_compute; reflexivity|]. split; reflexivity. }
  assert (H3 : has_room (fileEntryChannel (loggers ready))).
  { eexists. split; [vm_compute; reflexivity|]. split; reflexivity. }
  destruct (send_reaches_sinks (L := Sample.lib) Sample.e_old ready H1)
    as [H _].
  destruct (H (fun _ => H2) (fun _ => H3)) as (g' & R1 & R2 & R3 & R4).
  exists g'. split; [exact R1|]. split; [exact R2|]. split; [exact R3|exact R4].
Defined.


(** X13 at work: [Init], [CLose], and then a second [CLose] or a
    [send]. *)
Lemma use_after_CLose_witness :
  run_CLose closed_down = Panicked "close of closed channel" closed_down /\
  run_send Sample.e_old closed_down =
    Panicked "send on closed channel"
      (print (fst (@String_ Sample.lib Sample.e_old)) closed_down).
Proof.
  assert (H1 : Frontend.CLose ready = Done tt closed_down)
    by (vm_compute; reflexivity).
  assert (H2 : useEsLogger (loggers ready) = true \/
               useFailLogger (loggers ready) = true)
    by (left; vm_compute; reflexivity).
  assert (H3 : passes Sample.e_old ready).
  { intros levels H. vm_compute in H. injection H as <-.
    intros Hin. apply list_elem_of_singleton in Hin. discriminate. }
  exact (use_after_CLose (L := Sample.lib) Sample.e_old ready closed_down
           H1 H2 H3).
Defined.

(** X15 at work: a line of the standard logger that carries a level. *)
Lemma Write_parses_witness :
  run_Write "2025/10/19 10:28:50 [INFO] cache warmed" ready =
  bind (@Frontend.entry SampleFront.fmt "INFO"
          [Plain (AnyString (@TrimSpace SampleFront.fmt " cache warmed"))])
    (fun e => bind (run_send e) (fun _ => ret 13%Z)) ready.
Proof.
  assert (H1 : LevelDefault ready <> LevelNone) by (vm_compute; discriminate).
  exact (proj1 (Write_parses (L := Sample.lib) (F := SampleFront.fmt)
                  "2025/10/19" "10:28:50" "INFO" " cache warmed" ready
                  H1 eq_refl eq_refl eq_refl)).
Defined.

(** X18 at work: the sample configuration holds two entries a batch. *)
Lemma Init_sets_up_witness :
  exists g',
    run_Init true = Done tt g' /\
    esEntryChannel (loggers g') =
      Some {| buf := []; cap := 2; chan_closed := false |} /\
    fileEntryChannel (loggers g') =
      Some {| buf := []; cap := 100; chan_closed := false |} /\
    useEsLogger (loggers g') = true /\ useFailLogger (loggers g') = true.
Proof.
  destruct (Init_sets_up (L := Sample.lib) (F := SampleFront.fmt)
              (SampleFront.config true) Sample.cfg SampleFront.file_cfg
              SampleFront.fresh eq_refl eq_refl eq_refl) as [H _].
  assert (Hpos : (0 <= EntriesToHold Sample.cfg)%Z) by (vm_compute; discriminate).
  destruct (H Hpos) as (g' & R1 & R2 & R3 & R4 & R5 & _).
  exists g'. split; [exact R1|]. split; [exact R2|]. split; [exact R3|].
  split; [exact R4|exact R5].
Defined.

(** X19 at work: the first entry in both channels is the message of
    [Init]. *)
Lemma Init_logs_itself_witness :
  exists g' e,
    run_Init false = Done tt g' /\
    Level e = LevelDebug /\ Message e = "logger initialized" /\
    queued (esEntryChannel (loggers g')) = [e] /\
    queued (fileEntryChannel (loggers g')) = [e] /\
    stdout g' = [fst (@String_ Sample.lib e)].
Proof.
  assert (Hpos : (0 <= EntriesToHold Sample.cfg)%Z) by (vm_compute; discriminate).
  assert (Hd : LevelDefault SampleFront.fresh <> LevelNone) by discriminate.
  assert (Hp : forall levels,
             Frontend.FilterLevels (SampleFront.config false) = Some levels ->
             LevelDefault SampleFront.fresh ∉ levels).
  { intros levels H. injection H as <-.
    intros Hin. apply list_elem_of_singleton in Hin. discriminate. }
  destruct (Init_logs_itself (L := Sample.lib) (F := SampleFront.fmt)
              (SampleFront.config false) Sample.cfg SampleFront.file_cfg
              SampleFront.fresh "2025/10/19" "10:28:50"
              eq_refl eq_refl Hpos eq_refl Hd eq_refl eq_refl eq_refl Hp)
    as (g' & R1 & R2 & R3 & R4).
  exists g'. eexists. split; [exact R1|].
  split; [|split; [|split; [exact R2|split; [exact R3|exact R4]]]];
    reflexivity.
Defined.

(** X20 at work. *)
Lemma PrintLevel_prints_witness :
  exists line g1 g2,
    @Frontend.Sentry Sample.lib SampleFront.fmt LevelInfo
      [Plain (AnyString "cache warmed")] ready = Done line g1 /\
    @Frontend.PrintLevel Sample.lib SampleFront.fmt LevelInfo
      [Plain (AnyString "cache warmed")] ready = Done tt g2 /\
    stdout g2 = (stdout ready ++ [line])%list.
Proof.
  assert (H1 : forall levels, filterLevels (loggers ready) = Some levels ->
                              LevelInfo ∉ levels).
  { intros levels H. vm_compute in H. injection H as <-.
    intros Hin. apply list_elem_of_singleton in Hin. discriminate. }
  assert (H2 : useStdoutLogger (loggers ready) = true)
    by (vm_compute; reflexivity).
  assert (H3 : has_room (esEntryChannel (loggers ready))).
  { eexists. split; [vm_compute; reflexivity|]. split; reflexivity. }
  assert (H4 : has_room (fileEntryChannel (loggers ready))).
  { eexists. split; [vm_compute; reflexivity|]. split; reflexivity. }
  destruct (PrintLevel_prints (L := Sample.lib) (F := SampleFront.fmt) LevelInfo
              [Plain (AnyString "cache warmed")] ready H1 H2
              (fun _ => H3) (fun _ => H4))
    as (line & g1 & g2 & R1 & R2 & R3 & _).
  exists line, g1, g2. split; [exact R1|]. split; [exact R2|exact R3].
Defined.

(** X17 at work: a cap of -1. *)
Lemma negative_cap_saves_nothing_witness :
  exists err,
    run_save (@Frontend.es_defaults Sample.lib "app" cfg_negative)
      [Sample.e_old] recovering = (Some err, recovering).
Proof.
  assert (H : (MaxFailoverFiles cfg_negative < 0)%Z) by reflexivity.
  exact (proj2 (negative_cap_saves_nothing (L := Sample.lib) "app" cfg_negative
                  [Sample.e_old] recovering H)).
Defined.

(** X21 at work: two entries, rotation switched off. *)
Lemma file_appends_in_order_witness :
  fs (snd (@file_entryHandler Sample.lib
             (map FRecv [Sample.e_old; Sample.e_new]) sink_plain disk_ok))
  = <[old_log := File ("first line" +:+
                       @log_lines Sample.lib [Sample.e_old; Sample.e_new])]>
      (fs disk_ok).
Proof.
  assert (H1 : f sink_plain = Some {| Name := old_log; closed := false |})
    by reflexivity.
  assert (H2 : fs disk_ok !! old_log = Some (File "first line"))
    by (vm_compute; reflexivity).
  assert (H3 : (CreateNewAfter (Config sink_plain) <= 0 \/
                forall k, now disk_ok k - fCreatedAt sink_plain
                          <= CreateNewAfter (Config sink_plain))%Z)
    by (left; vm_compute; discriminate).
  destruct (file_appends_in_order (L := Sample.lib)
              [Sample.e_old; Sample.e_new] sink_plain
              {| Name := old_log; closed := false |} disk_ok "first line"
              H1 eq_refl H2 H3) as (_ & R & _).
  exact R.
Defined.

(** X22 at work.  After a quiet [Init] the message of the creation is
    queued in the worker's own channel and the entry's line written;
    with a hundred entries waiting in that channel the worker is parked,
    the file created and empty. *)
Lemma first_entry_opens_file_witness :
  (exists g' m,
     snd (run_wired Sample.e_old sink_new disk_ok ready) = Done tt g' /\
     Message m = "create new log file: /var/log/app/app_2000.log" /\
     queued (fileEntryChannel (loggers g')) = [m] /\
     fs (snd (fst (run_wired Sample.e_old sink_new disk_ok ready)))
       !! "/var/log/app/app_2000.log" =
       Some (File (fst (@String_ Sample.lib Sample.e_old) +:+ NL))) /\
  (exists g',
     snd (run_wired Sample.e_old sink_new disk_ok jammed) = Blocked g' /\
     fs (snd (fst (run_wired Sample.e_old sink_new disk_ok jammed)))
       !! "/var/log/app/app_2000.log" = Some (File EmptyString)).
Proof.
  assert (H1 : fs disk_ok !! @log_folder Sample.lib sink_new = Some Dir \/
               fs disk_ok !! @log_folder Sample.lib sink_new = None /\
               mkdir_fault disk_ok = None)
    by (left; vm_compute; reflexivity).
  assert (H2 : fs disk_ok !! @log_name Sample.lib sink_new
                                 (now disk_ok (now_reads disk_ok)) = None /\
               EmptyString = EmptyString \/
               fs disk_ok !! @log_name Sample.lib sink_new
                                 (now disk_ok (now_reads disk_ok))
               = Some (File EmptyString))
    by (left; split; vm_compute; reflexivity).
  split.
  - destruct (first_entry_opens_file (L := Sample.lib) (F := SampleFront.fmt)
                Sample.e_old sink_new disk_ok ready EmptyString eq_refl H1 H2)
      as (R1 & _ & _ & R4 & _ & _ & _ & _ & R9).
    assert (Hc : std_custom ready = true) by (vm_compute; reflexivity).
    assert (Hd : LevelDefault ready <> LevelNone) by (vm_compute; discriminate).
    assert (Hp : std_prefix ready = "2025/10/19" +:+ " " +:+ "10:28:50" +:+ " ")
      by (vm_compute; reflexivity).
    assert (Hf : forall levels, filterLevels (loggers ready) = Some levels ->
                                LevelDefault ready ∉ levels).
    { intros levels H. vm_compute in H. injection H as <-.
      intros Hin. apply list_elem_of_singleton in Hin. vm_compute in Hin.
      discriminate. }
    assert (H3 : has_room (esEntryChannel (loggers ready))).
    { eexists. split; [vm_compute; reflexivity|]. split; [reflexivity|].
      vm_compute. reflexivity. }
    assert (H4 : has_room (fileEntryChannel (loggers ready))).
    { eexists. split; [vm_compute; reflexivity|]. split; [reflexivity|].
      vm_compute. reflexivity. }
    destruct (R9 "2025/10/19" "10:28:50" Hc Hd Hp eq_refl eq_refl Hf)
      as [Hroom _].
    destruct (Hroom (fun _ => H3) (fun _ => H4)) as (g' & Hcall & Hq).
    exists g'. eexists. unfold run_wired.
    split; [rewrite R1; exact Hcall|].
    split; [|split; [exact Hq|]].
    + vm_compute. reflexivity.
    + rewrite R4, Hcall. apply lookup_insert_eq.
  - destruct (first_entry_opens_file (L := Sample.lib) (F := SampleFront.fmt)
                Sample.e_old sink_new disk_ok jammed EmptyString eq_refl H1 H2)
      as (R1 & _ & _ & R4 & _ & _ & _ & _ & R9).
    assert (Hd : LevelDefault jammed <> LevelNone) by discriminate.
    assert (Hf : forall levels, filterLevels (loggers jammed) = Some levels ->
                                LevelDefault jammed ∉ levels)
      by (intros levels H; discriminate).
    assert (H3 : is_full (fileEntryChannel (loggers jammed))).
    { eexists. split; [reflexivity|]. split; [reflexivity|].
      vm_compute. discriminate. }
    destruct (R9 "2025/10/19" "10:28:50" eq_refl Hd eq_refl eq_refl eq_refl Hf)
      as [_ Hfull].
    destruct (Hfull eq_refl eq_refl H3) as (g' & Hcall).
    exists g'. unfold run_wired.
    split; [rewrite R1; exact Hcall|].
    rewrite R4, Hcall. apply lookup_insert_eq.
Defined.

(** X23 at work: a read-only file system. *)
Lemma entries_dropped_without_folder_witness :
  fs (snd (@file_entryHandler Sample.lib
             (map FRecv [Sample.e_old; Sample.e_new]) sink_new read_only))
    = fs read_only /\
  f (fst (@file_entryHandler Sample.lib
            (map FRecv [Sample.e_old; Sample.e_new]) sink_new read_only))
    = None.
Proof.
  assert (H1 : fs read_only !! @log_folder Sample.lib sink_new = None)
    by (vm_compute; reflexivity).
  destruct (entries_dropped_without_folder (L := Sample.lib)
              [Sample.e_old; Sample.e_new] sink_new
              "mkdir /var/log/app: read-only file system" read_only
              eq_refl H1 eq_refl) as (R1 & R2 & _).
  split; [exact R2|]. now rewrite R1.
Defined.

(** X24 at work: the file was created at 10.2 s, the clock reads 10.9 s
    and the sink rotates every half second. *)
Lemma rotation_onto_active_name_witness :
  returned
    (snd (@Wired.file_entry lib_seconds SampleFront.fmt Sample.e_old sink_fast
            same_second ready)) = true /\
  fs (@fire lib_seconds
        (snd (fst (@Wired.file_entry lib_seconds SampleFront.fmt Sample.e_old
                     sink_fast same_second ready))))
    !! "/var/log/app/app_10.log" = None /\
  fs (@fire lib_seconds
        (snd (fst (@Wired.file_entry lib_seconds SampleFront.fmt Sample.e_old
                     sink_fast same_second ready))))
    !! "/var/log/app/app_10.log.gz" =
    Some (File (@gzip lib_seconds
                  ("first line" +:+ fst (@String_ lib_seconds Sample.e_old)
                     +:+ NL))).
Proof.
  assert (H1 : f sink_fast =
               Some {| Name := "/var/log/app/app_10.log"; closed := false |})
    by reflexivity.
  assert (H2 : (0 < CreateNewAfter (Config sink_fast))%Z) by reflexivity.
  assert (H3 : (CreateNewAfter (Config sink_fast) <
                now same_second (now_reads same_second)
                - fCreatedAt sink_fast)%Z) by reflexivity.
  assert (H4 : "/var/log/app/app_10.log" =
               @log_name lib_seconds sink_fast
                 (now same_second (S (now_reads same_second))))
    by (vm_compute; reflexivity).
  assert (H5 : fs same_second !! @log_folder lib_seconds sink_fast = Some Dir)
    by (vm_compute; reflexivity).
  assert (H6 : fs same_second !! "/var/log/app/app_10.log" =
               Some (File "first line")) by (vm_compute; reflexivity).
  assert (H7 : fs same_second !! ("/var/log/app/app_10.log" +:+ ".gz")
               <> Some Dir) by (vm_compute; discriminate).
  destruct (rotation_onto_active_name (L := lib_seconds) (F := SampleFront.fmt)
              Sample.e_old sink_fast same_second ready
              {| Name := "/var/log/app/app_10.log"; closed := false |}
              "first line" H1 H2 H3 H4 H5 H6 eq_refl eq_refl H7)
    as (R1 & _ & _ & _ & _ & R6 & R7).
  assert (Hret : returned
                   (@Frontend.std_Println lib_seconds SampleFront.fmt
                      ("create new log file: " +:+ "/var/log/app/app_10.log")
                      ready) = true) by (vm_compute; reflexivity).
  cbn [Name] in R1, R7. rewrite Hret in R7.
  split; [rewrite R1; exact Hret|]. split; [exact R6|exact R7].
Defined.

(** X7 at work: two records written a second apart in 2025. *)
Lemma retry_oldest_first_witness :
  selected backlog = Some "batch-1760869730567024001.json" /\
  (1760869730567024001 <= 1760869731567024001)%Z.
Proof.
  assert (H1 : (10 ^ 18 <= 1760869730567024001 < 10 ^ 19)%Z) by lia.
  assert (H2 : (10 ^ 18 <= 1760869731567024001 < 10 ^ 19)%Z) by lia.
  assert (H3 : selected backlog = Some (batch_name 1760869730567024001))
    by (vm_compute; reflexivity).
  assert (H4 : is_Some (disk backlog !! batch_name 1760869731567024001)).
  { eexists. vm_compute. reflexivity. }
  split; [exact H3|].
  exact (retry_oldest_first backlog _ _ H1 H2 H3 H4).
Defined.


(** X6 at work: two records at rest; three iterations leave one for the
    tick. *)
Lemma backlog_drains_witness :
  exists w',
    run_loop 3 [Tick] idle = run_loop 1 [Tick] (set_world w' idle) /\
    Glob w' = [] /\ List.length (wire w') = 2%nat.
Proof.
  assert (H1 : FailoverDir Sample.cfg <> EmptyString) by discriminate.
  assert (H2 : @NewRequest_error Sample.lib (@bulk_url Sample.cfg) = None)
    by reflexivity.
  assert (H3 : always_ok (world idle)).
  { intros k. eexists. split; reflexivity. }
  assert (HG : Glob backlog =
               ["batch-1760869730567024001.json";
                "batch-1760869731567024001.json"] \/
               Glob backlog =
               ["batch-1760869731567024001.json";
                "batch-1760869730567024001.json"]).
  { vm_compute. auto. }
  assert (H4 : @all_valid Sample.lib (world idle)).
  { intros n Hn. change (world idle) with backlog in *.
    assert (Hn' : n = "batch-1760869730567024001.json" \/
                  n = "batch-1760869731567024001.json").
    { destruct HG as [HG|HG]; rewrite HG in Hn;
        apply elem_of_cons in Hn as [->|Hn]; auto;
        apply list_elem_of_singleton in Hn as ->; auto. }
    destruct Hn' as [-> | ->]; eexists _, _; split; vm_compute; reflexivity. }
  destruct (backlog_drains (L := Sample.lib) Sample.cfg idle [Tick] 1
              H1 H2 H3 H4) as (w' & R1 & R2 & R3 & _).
  exists w'. split; [exact R1|]. split; [exact R2|exact R3].
Defined.
